(** * LogSmith automation scripts: [get_issues.py] and [send_issue_email.py]

    A shallow embedding of the two scripts and the properties their
    specification states about them.

    Conventions of the embedding.
    - A Python [str] is a [string] holding its UTF-8 text, one byte per
      [ascii]; [Unicode.next] reads a character off it.  A byte that
      belongs to no well-formed sequence stands for the lone surrogate by
      which [os.fsdecode] escapes it in a file name.
    - A Python [int] is a [Z]; [str(n)] and [f"{n}"] are [str_int n].
    - [print] adds one line to the output, tagged with its stream.
    - A call returns, raises, or leaves through [sys.exit]: see [outcome].
    - The command line, the settings file, the file system, the [gh]
      subprocess and the SMTP server are read through the record [world];
      the code observes nothing else of them.
    - [int] and [json.loads] are parameters of the scripts' sections.
    - [os.path] is the POSIX one. *)

From Stdlib Require Import ZArith List String Ascii Bool Lia Permutation Sorted.
From Stdlib Require Decimal DecimalString DecimalZ.
Import ListNotations.

#[local] Open Scope list_scope.
#[local] Open Scope string_scope.
#[local] Open Scope Z_scope.

(* ================================================================== *)
(** * Python strings and integers *)

(** [str(n)] for an [int]: decimal digits, a leading ["-"] when negative. *)
Definition str_int (n : Z) : string :=
  DecimalString.NilZero.string_of_int (Z.to_int n).

(** An ASCII digit, ['0'..'9']: the digits of [str(n)] and of a range
    such as [[0-9]] in a pattern. *)
Definition is_digit (c : ascii) : bool :=
  ((48 <=? nat_of_ascii c) && (nat_of_ascii c <=? 57))%nat.

(** [s.startswith(p)], returning what follows the prefix. *)
Fixpoint strip_prefix (p s : string) : option string :=
  match p with
  | EmptyString => Some s
  | String a p' =>
      match s with
      | EmptyString => None
      | String b s' => if Ascii.eqb a b then strip_prefix p' s' else None
      end
  end.

(** [sep.join(parts)]. *)
Fixpoint join (sep : string) (parts : list string) : string :=
  match parts with
  | [] => ""
  | [x] => x
  | x :: rest => x ++ sep ++ join sep rest
  end.

(** [needle in haystack] for two strings. *)
Fixpoint contains (needle hay : string) : bool :=
  match strip_prefix needle hay with
  | Some _ => true
  | None =>
      match hay with
      | EmptyString => false
      | String _ hay' => contains needle hay'
      end
  end.

(** The last character of a string, [None] on the empty string. *)
Fixpoint last_char (s : string) : option ascii :=
  match s with
  | EmptyString => None
  | String c EmptyString => Some c
  | String _ s' => last_char s'
  end.

(* ================================================================== *)
(** * The characters of a [str] *)

Module Unicode.

Definition byte (c : ascii) : Z := Z.of_N (N_of_ascii c).

Definition between (lo hi : Z) (c : ascii) : bool :=
  (lo <=? byte c) && (byte c <=? hi).

(** A continuation byte. *)
Definition cont (c : ascii) : bool := between 128 191 c.

(** How a well-formed sequence of two, three and four bytes begins. *)
Definition lead2 (b0 : ascii) : bool := between 194 223 b0.

Definition lead3 (b0 b1 : ascii) : bool :=
  ((byte b0 =? 224) && between 160 191 b1) ||
  (between 225 236 b0 && cont b1) ||
  ((byte b0 =? 237) && between 128 159 b1) ||
  (between 238 239 b0 && cont b1).

Definition lead4 (b0 b1 : ascii) : bool :=
  ((byte b0 =? 240) && between 144 191 b1) ||
  (between 241 243 b0 && cont b1) ||
  ((byte b0 =? 244) && between 128 143 b1).

(** The six bits a continuation byte carries. *)
Definition bits (c : ascii) : Z := byte c - 128.

(** The first character of a text: its code point, its bytes, and the
    text after it.  A byte that begins no well-formed sequence is the
    character [U+DC00 + byte]. *)
Definition next (s : string) : option (Z * string * string) :=
  match s with
  | EmptyString => None
  | String b0 s1 =>
      if byte b0 <? 128 then Some (byte b0, String b0 "", s1)
      else
        let stray := Some (56320 + byte b0, String b0 "", s1) in
        match s1 with
        | EmptyString => stray
        | String b1 s2 =>
            if lead2 b0 && cont b1 then
              Some ((byte b0 - 192) * 64 + bits b1, String b0 (String b1 ""), s2)
            else
              match s2 with
              | EmptyString => stray
              | String b2 s3 =>
                  if lead3 b0 b1 && cont b2 then
                    Some ((byte b0 - 224) * 4096 + bits b1 * 64 + bits b2,
                          String b0 (String b1 (String b2 "")), s3)
                  else
                    match s3 with
                    | EmptyString => stray
                    | String b3 s4 =>
                        if lead4 b0 b1 && cont b2 && cont b3 then
                          Some ((byte b0 - 240) * 262144 + bits b1 * 4096 +
                                bits b2 * 64 + bits b3,
                                String b0 (String b1 (String b2 (String b3 ""))), s4)
                        else stray
                    end
              end
        end
  end.

(** The decimal digits (general category Nd) come in runs of ten, zero
    to nine; these are the code points of the zeros, in the Unicode
    Character Database 14.0.0 of CPython 3.11.  Later versions add runs. *)
Definition decimal_zeros : list Z :=
  [48; 1632; 1776; 1984; 2406; 2534; 2662; 2790; 2918; 3046; 3174; 3302; 3430;
   3558; 3664; 3792; 3872; 4160; 4240; 6112; 6160; 6470; 6608; 6784; 6800;
   6992; 7088; 7232; 7248; 42528; 43216; 43264; 43472; 43504; 43600; 44016;
   65296; 66720; 68912; 69734; 69872; 69942; 70096; 70384; 70736; 70864;
   71248; 71360; 71472; 71904; 72016; 72784; 73040; 73120; 92768; 92864;
   93008; 120782; 120792; 120802; 120812; 120822; 123200; 123632; 125264;
   130032].

(** The digit a code point stands for: what [\d] in a [str] pattern takes
    and what [int] reads. *)
Definition decimal_value (cp : Z) : option Z :=
  match find (fun zero => (zero <=? cp) && (cp <=? zero + 9)) decimal_zeros with
  | Some zero => Some (cp - zero)
  | None => None
  end.

(** A decimal digit at the front of a text: its value, its bytes, and
    the text after it. *)
Definition take_decimal (s : string) : option (Z * string * string) :=
  match next s with
  | Some (cp, txt, rest) =>
      match decimal_value cp with
      | Some v => Some (v, txt, rest)
      | None => None
      end
  | None => None
  end.

(** [str.isspace] on one character. *)
Definition is_space (cp : Z) : bool :=
  ((9 <=? cp) && (cp <=? 13)) || ((28 <=? cp) && (cp <=? 32)) ||
  (cp =? 133) || (cp =? 160) || (cp =? 5760) ||
  ((8192 <=? cp) && (cp <=? 8202)) || (cp =? 8232) || (cp =? 8233) ||
  (cp =? 8239) || (cp =? 8287) || (cp =? 12288).

End Unicode.

(* ================================================================== *)
(** * The fragment of [re] the scripts use *)

Module Re.

(** Syntax of the patterns that occur: literal text, [\d] (any decimal
    digit of Unicode, the pattern being a [str]), [r?], sequence, one
    capturing group, and [$]. *)
Inductive regex : Type :=
| Lit (s : string)
| Digit
| Opt (r : regex)
| Cat (r1 r2 : regex)
| Group (r : regex)
| Dollar.

(** [r{n}]. *)
Fixpoint times (n : nat) (r : regex) : regex :=
  match n with
  | O => Lit ""
  | S n' => Cat r (times n' r)
  end.

(** The text consumed between two positions of the subject: the first
    [length from - length to] characters of [from]. *)
Definition consumed (from to : string) : string :=
  substring 0 (String.length from - String.length to) from.

(** Backtracking matcher in continuation-passing style: [run r inp g k]
    matches [r] at the front of [inp], with [g] the capturing group so
    far, and hands the rest of the subject to [k]; a failing continuation
    makes the matcher try its next alternative, as [re] does.  The greedy
    [r?] tries [r] first.  Without [re.MULTILINE], [$] succeeds at the end
    of the subject and also just before a newline that ends the subject. *)
Fixpoint run {R : Type} (r : regex) (inp : string) (g : option string)
    (k : string -> option string -> option R) : option R :=
  match r with
  | Lit s =>
      match strip_prefix s inp with
      | Some rest => k rest g
      | None => None
      end
  | Digit =>
      match Unicode.take_decimal inp with
      | Some (_, _, rest) => k rest g
      | None => None
      end
  | Opt r1 =>
      match run r1 inp g k with
      | Some x => Some x
      | None => k inp g
      end
  | Cat r1 r2 => run r1 inp g (fun rest g' => run r2 rest g' k)
  | Group r1 => run r1 inp g (fun rest _ => k rest (Some (consumed inp rest)))
  | Dollar =>
      match inp with
      | EmptyString => k inp g
      | String c EmptyString => if Ascii.eqb c "010" then k inp g else None
      | String _ _ => None
      end
  end.

(** [pattern.match(s)]: [None] when there is no match at the start of [s],
    otherwise the match object, of which the scripts read [group(1)] only
    ([None] inside when the group took no part in the match). *)
Definition re_match (r : regex) (s : string) : option (option string) :=
  run r s None (fun _ g => Some g).

End Re.

Import Re.

Infix "+>" := Cat (at level 61, right associativity).

(** [re.compile(rf'Test-Results-GH{issue_number}-(\d{{2}}-\d{{2}}-\d{{4}}-\d{{2}}-\d{{2}}-\d{{2}})\.html?$')].
    The interpolated number is digits and at most a leading ["-"]: literal
    text in a pattern. *)
Definition pattern (issue_number : Z) : regex :=
  Lit ("Test-Results-GH" ++ str_int issue_number ++ "-") +>
  Group (times 2 Digit +> Lit "-" +> times 2 Digit +> Lit "-" +>
         times 4 Digit +> Lit "-" +> times 2 Digit +> Lit "-" +>
         times 2 Digit +> Lit "-" +> times 2 Digit) +>
  Lit ".htm" +> Opt (Lit "l") +> Dollar.

(* ================================================================== *)
(** * [datetime] and [datetime.strptime] *)

Module Datetime.

(** A naive [datetime]. *)
Record datetime : Type := mk_datetime {
  year : Z; month : Z; day : Z;
  hour : Z; minute : Z; second : Z; microsecond : Z
}.

(** Naive datetimes compare as the tuples of their fields. *)
Definition fields (t : datetime) : list Z :=
  [year t; month t; day t; hour t; minute t; second t; microsecond t].

Fixpoint tuple_cmp (a b : list Z) : comparison :=
  match a, b with
  | [], [] => Eq
  | [], _ :: _ => Lt
  | _ :: _, [] => Gt
  | x :: a', y :: b' =>
      match x ?= y with
      | Eq => tuple_cmp a' b'
      | c => c
      end
  end.

Definition cmp (a b : datetime) : comparison := tuple_cmp (fields a) (fields b).

(** [a < b], the only comparison [list.sort] asks of its keys. *)
Definition ltb (a b : datetime) : bool :=
  match cmp a b with Lt => true | _ => false end.

Definition is_leap (y : Z) : bool :=
  (y mod 4 =? 0) && (negb (y mod 100 =? 0) || (y mod 400 =? 0)).

Definition days_in_month (y m : Z) : Z :=
  if (m =? 2) && is_leap y then 29
  else nth (Z.to_nat m) [-1; 31; 28; 31; 30; 31; 30; 31; 31; 30; 31; 30; 31] 0.

(** [_check_date_fields]: [False] stands for the [ValueError]. *)
Definition check_date_fields (y m d : Z) : bool :=
  (1 <=? y) && (y <=? 9999) && (1 <=? m) && (m <=? 12) &&
  (1 <=? d) && (d <=? days_in_month y m).

(** [_check_time_fields]. *)
Definition check_time_fields (h mi s us : Z) : bool :=
  (0 <=? h) && (h <=? 23) && (0 <=? mi) && (mi <=? 59) &&
  (0 <=? s) && (s <=? 59) && (0 <=? us) && (us <=? 999999).

(** [datetime(y, m, d, h, mi, s, us)]; [None] is the [ValueError] of
    an out-of-range field. *)
Definition new (y m d h mi s us : Z) : option datetime :=
  if check_date_fields y m d && check_time_fields h mi s us
  then Some (mk_datetime y m d h mi s us)
  else None.

(** ** The format compiler of [_strptime]

    A format is compiled to a regular expression, one alternation per
    directive; the alternatives are tried in the order written and each is
    a fixed sequence of character classes: a set of ASCII characters, or
    [\d]. *)

Inductive cls : Type :=
| Among (p : ascii -> bool)
| Decimal.

Definition one (a : ascii) : cls := Among (Ascii.eqb a).
Definition rng (lo hi : ascii) : cls :=
  Among (fun c => ((nat_of_ascii lo <=? nat_of_ascii c) &&
                   (nat_of_ascii c <=? nat_of_ascii hi))%nat).
Definition dig : cls := Decimal.

(** The entries of [TimeRE] for the directives of the format used. *)
Definition directive_alts (d : ascii) : list (list cls) :=
  match d with
  | "m"%char => [[one "1"; rng "0" "2"]; [one "0"; rng "1" "9"]; [rng "1" "9"]]
  | "d"%char => [[one "3"; rng "0" "1"]; [rng "1" "2"; dig]; [one "0"; rng "1" "9"];
                 [rng "1" "9"]; [one " "; rng "1" "9"]]
  | "Y"%char => [[dig; dig; dig; dig]]
  | "H"%char => [[one "2"; rng "0" "3"]; [rng "0" "1"; dig]; [dig]]
  | "M"%char => [[rng "0" "5"; dig]; [dig]]
  | "S"%char => [[one "6"; rng "0" "1"]; [rng "0" "5"; dig]; [dig]]
  | _ => []
  end.

Inductive fmt_item : Type :=
| Directive (d : ascii)
| Literal (c : ascii).

Fixpoint compile_format (f : string) : list fmt_item :=
  match f with
  | EmptyString => []
  | String "%" (String d f') => Directive d :: compile_format f'
  | String c f' => Literal c :: compile_format f'
  end.

(** One alternative at the front of [s]: the text it takes and the rest. *)
Fixpoint take_alt (alt : list cls) (s : string) : option (string * string) :=
  match alt with
  | [] => Some ("", s)
  | Among p :: alt' =>
      match s with
      | String c s' =>
          if p c then
            match take_alt alt' s' with
            | Some (t, r) => Some (String c t, r)
            | None => None
            end
          else None
      | EmptyString => None
      end
  | Decimal :: alt' =>
      match Unicode.take_decimal s with
      | Some (_, txt, s') =>
          match take_alt alt' s' with
          | Some (t, r) => Some (txt ++ t, r)
          | None => None
          end
      | None => None
      end
  end.

(** [format_regex.match(data_string)]: the first way, in priority order,
    to match every item of the format; the groups found and the
    unconverted rest. *)
Fixpoint fmt_match (f : list fmt_item) (s : string) (found : list (ascii * string))
  : option (list (ascii * string) * string) :=
  match f with
  | [] => Some (found, s)
  | Literal c :: f' =>
      match s with
      | String c' s' => if Ascii.eqb c c' then fmt_match f' s' found else None
      | EmptyString => None
      end
  | Directive d :: f' =>
      (fix first (alts : list (list cls)) :=
         match alts with
         | [] => None
         | a :: more =>
             match take_alt a s with
             | Some (txt, rest) =>
                 match fmt_match f' rest ((d, txt) :: found) with
                 | Some r => Some r
                 | None => first more
                 end
             | None => first more
             end
         end) (directive_alts d)
  end.

(** The number of the decimal digits among the first [n] characters. *)
Fixpoint int_chars (n : nat) (acc : Z) (s : string) : Z :=
  match n with
  | O => acc
  | S n' =>
      match Unicode.next s with
      | Some (cp, _, rest) =>
          match Unicode.decimal_value cp with
          | Some v => int_chars n' (10 * acc + v) rest
          | None => int_chars n' acc rest
          end
      | None => acc
      end
  end.

(** [int(text)] on the texts a directive can take: decimal digits, after
    at most one blank.  A text has no more characters than bytes. *)
Definition int_field (txt : string) : Z := int_chars (String.length txt) 0 txt.

Fixpoint group (d : ascii) (found : list (ascii * string)) (default : Z) : Z :=
  match found with
  | [] => default
  | (d', txt) :: found' => if Ascii.eqb d d' then int_field txt else group d found' default
  end.

(** [datetime.strptime(data_string, format)]; [None] is [ValueError]:
    no match, unconverted data, or a field out of range. *)
Definition strptime (data_string format : string) : option datetime :=
  match fmt_match (compile_format format) data_string [] with
  | None => None
  | Some (found, rest) =>
      match rest with
      | String _ _ => None
      | EmptyString =>
          let y := group "Y" found 1900 in
          let m := group "m" found 1 in
          let d := group "d" found 1 in
          if check_date_fields y m d
          then new y m d (group "H" found 0) (group "M" found 0) (group "S" found 0) 0
          else None
      end
  end.

End Datetime.

(* ================================================================== *)
(** * Control effects: output, exceptions, [sys.exit] *)

(** The exceptions the scripts can meet. *)
Inductive exn : Type :=
| ValueError
| TypeError
| KeyError (key : string)
| OSError (what : string)
| CalledProcessError (returncode : Z) (stderr : string)
| FileNotFoundError
| IndexError
| ConfigError (what : string).

(** A line written by [print], on standard output unless [file=sys.stderr]. *)
Inductive line : Type :=
| Stdout (s : string)
| Stderr (s : string).

(** How a call ends. *)
Inductive outcome (A : Type) : Type :=
| Returned (a : A)
| Raised (e : exn)
| Exited (code : Z).
Arguments Returned {A} a.
Arguments Raised {A} e.
Arguments Exited {A} code.

(** A computation: the lines it printed, in order, and how it ended. *)
Definition io (A : Type) : Type := list line * outcome A.

Definition ret {A : Type} (a : A) : io A := ([], Returned a).
Definition raise {A : Type} (e : exn) : io A := ([], Raised e).
Definition sys_exit {A : Type} (code : Z) : io A := ([], Exited code).
Definition print (s : string) : io unit := ([Stdout s], Returned tt).
Definition print_err (s : string) : io unit := ([Stderr s], Returned tt).

Definition bind {A B : Type} (m : io A) (f : A -> io B) : io B :=
  match m with
  | (out, Returned a) => let (out', r) := f a in ((out ++ out')%list, r)
  | (out, Raised e) => (out, Raised e)
  | (out, Exited c) => (out, Exited c)
  end.

Notation "x <- c1 ;; c2" := (bind c1 (fun x => c2))
  (at level 100, c1 at next level, right associativity).
Notation "c1 ;; c2" := (bind c1 (fun _ => c2))
  (at level 100, right associativity).

(** [try: m  except ...: handler]: [handler e] is [None] when no clause
    catches [e].  [SystemExit] passes through every clause used here. *)
Definition try_except {A : Type} (m : io A) (handler : exn -> option (io A)) : io A :=
  match m with
  | (out, Raised e) =>
      match handler e with
      | Some h => let (out', r) := h in ((out ++ out')%list, r)
      | None => (out, Raised e)
      end
  | _ => m
  end.

(** [for x in xs: s = body(x, s)], the loop variables threaded as [s]. *)
Fixpoint for_each {A S : Type} (xs : list A) (body : A -> S -> io S) (s : S) : io S :=
  match xs with
  | [] => ret s
  | x :: xs' => s' <- body x s ;; for_each xs' body s'
  end.

(** The status the interpreter hands to the operating system: the
    argument of [sys.exit], 1 after an uncaught exception, 0 otherwise. *)
Definition exit_status {A : Type} (r : io A) : Z :=
  match snd r with
  | Returned _ => 0
  | Raised _ => 1
  | Exited c => c
  end.

(* ================================================================== *)
(** * [list.sort] *)

Section ListSort.
Context {A K : Type}.
Variable key : A -> K.
Variable lt : K -> K -> bool.

(** Insertion in front of the elements that are not smaller. *)
Fixpoint insert (x : A) (l : list A) : list A :=
  match l with
  | [] => [x]
  | y :: l' => if lt (key y) (key x) then y :: insert x l' else x :: y :: l'
  end.

(** A stable ascending sort that, like [list.sort], only asks [<] of the
    keys.  Stability fixes the result, so this is the list [list.sort]
    computes. *)
Fixpoint stable_sort (l : list A) : list A :=
  match l with
  | [] => []
  | x :: l' => insert x (stable_sort l')
  end.

(** [l.sort(key=key, reverse=reverse)]: with [reverse], the list is
    reversed, sorted, and reversed again, which keeps equal keys in
    their original order. *)
Definition list_sort (reverse : bool) (l : list A) : list A :=
  if reverse then rev (stable_sort (rev l)) else stable_sort l.
End ListSort.

(* ================================================================== *)
(** * [os.path] (POSIX flavour) *)

Module OsPath.

Definition ends_with_sep (p : string) : bool :=
  match last_char p with
  | Some c => Ascii.eqb c "/"
  | None => false
  end.

(** [os.path.join(a, b)]. *)
Definition join (a b : string) : string :=
  match strip_prefix "/" b with
  | Some _ => b
  | None =>
      match a with
      | EmptyString => b
      | String _ _ => if ends_with_sep a then a ++ b else a ++ "/" ++ b
      end
  end.

(** [p[p.rfind(sep) + 1:]] with [sep] one character: what follows the
    last separator, all of [p] when there is none. *)
Fixpoint after_last (sep : ascii) (p : string) : string :=
  match p with
  | EmptyString => ""
  | String c p' =>
      if contains (String sep "") p' then after_last sep p'
      else if Ascii.eqb c sep then p' else p
  end.

(** [os.path.basename(p)]. *)
Definition basename (p : string) : string := after_last "/" p.

End OsPath.

(* ================================================================== *)
(** * The world outside the scripts *)

(** What [subprocess.run(args, capture_output=True, text=True)] meets. *)
Inductive completed_process : Type :=
| NotInstalled
| Completed (returncode : Z) (stdout stderr : string).

(** A label and an account as the tracker's JSON gives them. *)
Record label : Type := { label_name : string }.
Record account : Type := { login : string }.

(** The JSON object of [gh issue view]; the keys the code reads with
    [.get] may be missing. *)
Record issue : Type := {
  number : Z;
  title : string;
  body : option string;
  url : string;
  state : string;
  labels : option (list label);
  assignees : option (list account);
  createdAt : string;
  updatedAt : string
}.

(** One part of a MIME message. *)
Inductive part : Type :=
| MIMEText (text subtype : string)
| MIMEBase (maintype subtype : string) (payload : list Byte.byte)
           (headers : list (string * string)).

Record message : Type := {
  msg_subtype : string;
  msg_subject : string;
  msg_from : string;
  msg_to : string;
  msg_parts : list part
}.

(** What [config[section][option]] meets in a parsed settings file. *)
Inductive setting : Type :=
| Value (v : string)   (** the option is there, [v] its interpolated text *)
| NoSection            (** the file has no such section *)
| NoOption             (** the section has no such option *)
| Invalid (e : exn).   (** the text cannot be interpolated: [e] is raised,
                           as for a value that holds a bare [%] *)

(** A parsed configuration file: section, option, what is found there. *)
Definition config : Type := string -> string -> setting.

Record world : Type := {
  (** [sys.argv] *)
  argv : list string;
  (** [configparser.ConfigParser().read(file)]: the settings parsed, none
      at all when the file is missing, or the error raised by a file that
      cannot be decoded or parsed *)
  read_config : string -> exn + config;
  (** [subprocess.run] *)
  subprocess_run : list string -> completed_process;
  (** [os.path.exists] *)
  path_exists : string -> bool;
  (** [os.listdir]: the names in enumeration order, or the [OSError] *)
  listdir : string -> exn + list string;
  (** [open(path, 'rb').read()] *)
  read_binary : string -> exn + list Byte.byte;
  (** the session [SMTP(host, port)], [starttls], [login], [send_message]:
      [None] when the message is accepted, otherwise the text of the
      exception raised on the way *)
  smtp_session : string -> Z -> string -> string -> message -> option string
}.

(** [config[section][option]]. *)
Definition config_get (c : config) (section option : string) : io string :=
  match c section option with
  | Value v => ret v
  | NoSection => raise (KeyError section)
  | NoOption => raise (KeyError option)
  | Invalid e => raise e
  end.

(** [config[section].get(option, fallback)]. *)
Definition config_get_fallback (c : config) (section option fallback : string) :
    io string :=
  match c section option with
  | Value v => ret v
  | NoSection => raise (KeyError section)
  | NoOption => ret fallback
  | Invalid e => raise e
  end.

(** [subprocess.run(args, capture_output=True, text=True, check=True).stdout]. *)
Definition run_checked (w : world) (args : list string) : io string :=
  match subprocess_run w args with
  | NotInstalled => raise FileNotFoundError
  | Completed returncode stdout stderr =>
      if returncode =? 0 then ret stdout
      else raise (CalledProcessError returncode stderr)
  end.

Definition nl : string := String "010" "".
Definition dq : string := String "034" "".

(** The lines of a text, joined by newlines. *)
Definition lines (l : list string) : string := join nl l.

(** [s.lstrip()] over at most [n] characters. *)
Fixpoint lstrip_chars (n : nat) (s : string) : string :=
  match n with
  | O => s
  | S n' =>
      match Unicode.next s with
      | Some (cp, _, rest) => if Unicode.is_space cp then lstrip_chars n' rest else s
      | None => s
      end
  end.

(** [s.rstrip()] over at most [n] characters. *)
Fixpoint rstrip_chars (n : nat) (s : string) : string :=
  match n with
  | O => s
  | S n' =>
      match Unicode.next s with
      | Some (cp, txt, rest) =>
          match rstrip_chars n' rest with
          | EmptyString => if Unicode.is_space cp then "" else txt
          | String _ _ as r => txt ++ r
          end
      | None => ""
      end
  end.

(** A text has no more characters than bytes. *)
Definition lstrip (s : string) : string := lstrip_chars (String.length s) s.
Definition rstrip (s : string) : string := rstrip_chars (String.length s) s.

(** [s.strip()]. *)
Definition strip (s : string) : string := rstrip (lstrip s).

(** [s.split(sep)] with [sep] one character. *)
Fixpoint split_on (sep : ascii) (s : string) : list string :=
  match s with
  | EmptyString => [""]
  | String c s' =>
      if Ascii.eqb c sep then "" :: split_on sep s'
      else match split_on sep s' with
           | x :: rest => String c x :: rest
           | [] => [String c ""]
           end
  end.

(** Truth value of a [str]. *)
Definition nonempty (s : string) : bool :=
  match s with
  | EmptyString => false
  | String _ _ => true
  end.

(* ================================================================== *)
(** * [send_issue_email.py] *)

Module SendIssueEmail.

Import Datetime.

Section Script.

(** [int(s)] on a [str]; [None] is its [ValueError]. *)
Variable int_of_str : string -> option Z.
(** [json.loads] on the output of [gh issue view]; [None] is its
    [JSONDecodeError], a [ValueError]. *)
Variable json_loads : string -> option issue.
Variable w : world.

(** [load_settings]: the parsed settings file. *)
Definition load_settings (config_file : string) : io config :=
  match read_config w config_file with
  | inr cfg => ret cfg
  | inl e => raise e
  end.

(** The command line of [gh issue view]. *)
Definition gh_issue_view (issue_number : Z) (repository : string) : list string :=
  ["gh"; "issue"; "view"; str_int issue_number; "--repo"; repository; "--json";
   "number,title,body,url,state,labels,assignees,createdAt,updatedAt"].

(** [get_github_issue]: the record of the issue, or [sys.exit(1)] when
    [gh] is missing or fails; an output that is not JSON raises. *)
Definition get_github_issue (issue_number : Z) (repository : string) : io issue :=
  try_except
    (stdout <- run_checked w (gh_issue_view issue_number repository) ;;
     match json_loads stdout with
     | Some i => ret i
     | None => raise ValueError
     end)
    (fun e =>
       match e with
       | CalledProcessError _ stderr =>
           Some (print ("Error fetching issue: " ++ stderr) ;; sys_exit 1)
       | FileNotFoundError =>
           Some (print "Error: 'gh' command not found. Please install GitHub CLI." ;;
                 sys_exit 1)
       | _ => None
       end).

(** [os.listdir(dir)]. *)
Definition os_listdir (dir : string) : io (list string) :=
  match listdir w dir with
  | inr names => ret names
  | inl e => raise e
  end.

(** The format given to [strptime]. *)
Definition timestamp_format : string := "%m-%d-%Y-%H-%M-%S".

(** The body of the loop over the directory listing.
    A match object is always true; [m] is its [group(1)], and [strptime]
    of a missing group would raise [TypeError]. *)
Definition scan_entry (issue_number : Z) (output_dir filename : string)
    (matching_files : list (string * datetime)) : io (list (string * datetime)) :=
  match re_match (pattern issue_number) filename with
  | Some m =>
      let filepath := OsPath.join output_dir filename in
      match m with
      | Some timestamp_str =>
          match strptime timestamp_str timestamp_format with
          | Some timestamp => ret (matching_files ++ [(filepath, timestamp)])%list
          | None => ret matching_files
          end
      | None => raise TypeError
      end
  | None => ret matching_files
  end.

(** [find_latest_test_result]: the path of the newest artifact of the
    issue in [output_dir], [None] after a warning when there is none. *)
Definition find_latest_test_result (issue_number : Z) (output_dir : string)
  : io (option string) :=
  if negb (path_exists w output_dir) then
    (print ("Warning: " ++ output_dir ++ " directory not found.") ;;
     ret None)
  else
    (names <- os_listdir output_dir ;;
     matching_files <- for_each names (scan_entry issue_number output_dir) [] ;;
     match matching_files with
     | [] =>
         print ("Warning: No test result files found for issue #" ++
                str_int issue_number) ;;
         ret None
     | _ :: _ =>
         match list_sort snd ltb true matching_files with
         | (filepath, _) :: _ => ret (Some filepath)
         | [] => raise IndexError
         end
     end).

(** ** The literal text of the HTML template, between its fields *)

Definition html_head : string :=
  lines ["";
         "    <html>";
         "    <head>";
         "        <style>";
         "            body { font-family: Arial, sans-serif; margin: 20px; }";
         "            h2 { color: #333; }";
         "            .info { margin: 10px 0; }";
         "            .label { font-weight: bold; }";
         "            .body {";
         "                background-color: #f5f5f5;";
         "                padding: 15px;";
         "                border-left: 4px solid #0969da;";
         "                margin: 20px 0;";
         "            }";
         "            .link {";
         "                display: inline-block;";
         "                margin: 20px 0;";
         "                padding: 10px 20px;";
         "                background-color: #0969da;";
         "                color: white;";
         "                text-decoration: none;";
         "                border-radius: 5px;";
         "            }";
         "        </style>";
         "    </head>";
         "    <body>";
         "        <h2>Issue #"].

Definition html_after_number : string :=
  ": ".

Definition html_after_title : string :=
  lines ["</h2>";
         "";
         ("        <div class=" ++ dq ++ "info" ++ dq ++ ">")%string;
         ("            <span class=" ++ dq ++ "label" ++ dq ++ ">Status:</span> ")%string].

Definition html_after_state : string :=
  lines ["";
         "        </div>";
         "";
         "        "].

Definition html_after_labels : string :=
  lines ["";
         "";
         "        "].

Definition html_after_assignees : string :=
  lines ["";
         "";
         ("        <div class=" ++ dq ++ "info" ++ dq ++ ">")%string;
         ("            <span class=" ++ dq ++ "label" ++ dq ++ ">Created:</span> ")%string].

Definition html_after_created : string :=
  lines ["";
         "        </div>";
         "";
         ("        <div class=" ++ dq ++ "info" ++ dq ++ ">")%string;
         ("            <span class=" ++ dq ++ "label" ++ dq ++ ">Updated:</span> ")%string].

Definition html_after_updated : string :=
  lines ["";
         "        </div>";
         "";
         ("        <div class=" ++ dq ++ "body" ++ dq ++ ">")%string;
         "            <h3>Description:</h3>";
         "            <pre>"].

Definition html_after_body : string :=
  lines ["</pre>";
         "        </div>";
         "";
         ("        <a href=" ++ dq)%string].

Definition html_tail : string :=
  lines [(dq ++ " class=" ++ dq ++ "link" ++ dq ++ ">View Issue on GitHub</a>")%string;
         "    </body>";
         "    </html>";
         "    "].

(** [d.get(key, default)] on a key that may be missing. *)
Definition get_default {A : Type} (v : option A) (default : A) : A :=
  match v with
  | Some a => a
  | None => default
  end.

(** The two optional lines of the template. *)
Definition labels_line (labels_text : string) : string :=
  "<div class=" ++ dq ++ "info" ++ dq ++ "><span class=" ++ dq ++ "label" ++ dq ++
  ">Labels:</span> " ++ labels_text ++ "</div>".

Definition assignees_line (assignees_text : string) : string :=
  "<div class=" ++ dq ++ "info" ++ dq ++ "><span class=" ++ dq ++ "label" ++ dq ++
  ">Assignees:</span> " ++ assignees_text ++ "</div>".

(** [format_issue_html]: the f-string, field by field. *)
Definition format_issue_html (i : issue) : string :=
  let labels_text := join ", " (map label_name (get_default (labels i) [])) in
  let assignees_text := join ", " (map login (get_default (assignees i) [])) in
  html_head ++ str_int (number i) ++ html_after_number ++ title i ++
  html_after_title ++ state i ++ html_after_state ++
  (if nonempty labels_text then labels_line labels_text else "") ++
  html_after_labels ++
  (if nonempty assignees_text then assignees_line assignees_text else "") ++
  html_after_assignees ++ createdAt i ++ html_after_created ++ updatedAt i ++
  html_after_updated ++ get_default (body i) "No description provided." ++
  html_after_body ++ url i ++ html_tail.

(** [int(s)]. *)
Definition py_int (s : string) : io Z :=
  match int_of_str s with
  | Some n => ret n
  | None => raise ValueError
  end.

(** [open(path, 'rb').read()]. *)
Definition open_read (path : string) : io (list Byte.byte) :=
  match read_binary w path with
  | inr data => ret data
  | inl e => raise e
  end.

(** [attachment_path and os.path.exists(attachment_path)]. *)
Definition attachment_available (attachment_path : option string) : option string :=
  match attachment_path with
  | Some p => if nonempty p && path_exists w p then Some p else None
  | None => None
  end.

(** [msg.attach(p)]. *)
Definition attach (msg : message) (p : part) : message :=
  {| msg_subtype := msg_subtype msg; msg_subject := msg_subject msg;
     msg_from := msg_from msg; msg_to := msg_to msg;
     msg_parts := (msg_parts msg ++ [p])%list |}.

(** The attachment part: the file's bytes, which [encode_base64] marks as
    carried in base64, and the disposition header. *)
Definition attachment_part (filename : string) (payload : list Byte.byte) : part :=
  MIMEBase "application" "octet-stream" payload
    [("Content-Transfer-Encoding", "base64");
     ("Content-Disposition", ("attachment; filename= " ++ filename)%string)].

(** [send_email]: [True] when the transport accepted the message,
    [False] when the session raised. *)
Definition send_email (cfg : config) (i : issue) (attachment_path : option string)
    (repo_name : string) : io bool :=
  from_addr <- config_get cfg "Email" "FromAddress" ;;
  to_text <- config_get cfg "Email" "ToAddresses" ;;
  let to_addrs := map strip (split_on "," to_text) in
  smtp_host <- config_get cfg "Email" "SMTPHost" ;;
  port_text <- config_get cfg "Email" "SMTPPort" ;;
  smtp_port <- py_int port_text ;;
  smtp_user <- config_get cfg "Email" "SMTPUsername" ;;
  smtp_pass <- config_get cfg "Email" "SMTPPassword" ;;
  let subject_prefix := if nonempty repo_name then repo_name ++ " " else "" in
  let msg :=
    {| msg_subtype := "alternative";
       msg_subject := subject_prefix ++ "GH-" ++ str_int (number i) ++ ": " ++ title i;
       msg_from := from_addr;
       msg_to := join ", " to_addrs;
       msg_parts := [MIMEText (format_issue_html i) "html"] |} in
  msg <- match attachment_available attachment_path with
         | Some p =>
             let filename := OsPath.basename p in
             payload <- open_read p ;;
             print ("Attached: " ++ filename) ;;
             ret (attach msg (attachment_part filename payload))
         | None => ret msg
         end ;;
  match smtp_session w smtp_host smtp_port smtp_user smtp_pass msg with
  | None =>
      print ("Email sent successfully to: " ++ join ", " to_addrs) ;;
      ret true
  | Some e =>
      print ("Error sending email: " ++ e) ;;
      ret false
  end.

(** Truth value of [attachment] in [main]. *)
Definition truthy (p : option string) : bool :=
  match p with
  | Some s => nonempty s
  | None => false
  end.

(** [main]. *)
Definition main : io unit :=
  match argv w with
  | [] | [_] =>
      print "Usage: python send_issue_email.py <issue_number>" ;;
      sys_exit 1
  | _ :: arg :: _ =>
      issue_number <-
        try_except (py_int arg)
          (fun e =>
             match e with
             | ValueError =>
                 Some (print "Error: Issue number must be an integer" ;; sys_exit 1)
             | _ => None
             end) ;;
      cfg <- load_settings "settings.ini" ;;
      repository <- config_get cfg "GitHub" "Repository" ;;
      repo_name <- config_get_fallback cfg "GitHub" "RepositoryName"
                     (last (split_on "/" repository) "") ;;
      output_dir <- config_get cfg "TestResults" "OutputDirectory" ;;
      print ("Fetching issue #" ++ str_int issue_number ++ " from " ++ repository ++ "...") ;;
      i <- get_github_issue issue_number repository ;;
      print ("Found: " ++ title i) ;;
      print ("Searching for test results in " ++ output_dir ++ "...") ;;
      attachment <- find_latest_test_result issue_number output_dir ;;
      (if truthy attachment
       then print ("Found test result: " ++ OsPath.basename (get_default attachment ""))
       else ret tt) ;;
      print "Sending email..." ;;
      sent <- send_email cfg i attachment repo_name ;;
      if sent : bool then print "Done!" else sys_exit 1
  end.

End Script.

End SendIssueEmail.

(* ================================================================== *)
(** * [get_issues.py] *)

Module GetIssues.

(** One element of the JSON array of [gh issue list]. *)
Record issue : Type := {
  number : Z;
  title : string;
  labels : list label
}.

(** [x in l] for a list of [str]. *)
Definition str_in (x : string) (l : list string) : bool :=
  existsb (String.eqb x) l.

Section Script.

(** [json.loads] on the output of [gh issue list]. *)
Variable json_loads : string -> option (list issue).
Variable w : world.

(** The command line of [gh issue list]. *)
Definition gh_issue_list : list string :=
  ["gh"; "issue"; "list"; "--state"; "open"; "--json"; "number,title,labels";
   "--limit"; "50"].

(** The line printed for a matching issue. *)
Definition report_line (i : issue) : string :=
  str_int (number i) ++ ": " ++ title i ++ " - Labels: " ++
  join "," (map label_name (labels i)).

(** The body of the loop over the issues. *)
Definition report (i : issue) : io unit :=
  let names := map label_name (labels i) in
  if str_in "in-progress" names || str_in "ready" names
  then print (report_line i)
  else ret tt.

(** The module body. *)
Definition script : io unit :=
  try_except
    (stdout <- run_checked w gh_issue_list ;;
     issues <- match json_loads stdout with
               | Some l => ret l
               | None => raise ValueError
               end ;;
     for_each issues (fun i _ => report i) tt)
    (fun e =>
       match e with
       | CalledProcessError _ stderr =>
           Some (print_err ("Error: " ++ stderr) ;; sys_exit 1)
       | _ => None
       end).

End Script.

End GetIssues.

(* ================================================================== *)
(** * What the specification speaks of

    Definitions in the words of the specification, against which the
    code is proved, and the worlds of the examples. *)

Import SendIssueEmail.

(** ** The patterns, read declaratively *)

(** [matches r inp g rest g']: [r] can take a prefix of [inp], leaving
    [rest], and turns the group [g] into [g']. *)
Inductive matches : regex -> string -> option string -> string -> option string -> Prop :=
| M_Lit s rest g : matches (Lit s) (s ++ rest) g rest g
| M_Digit inp v txt rest g :
    Unicode.take_decimal inp = Some (v, txt, rest) -> matches Digit inp g rest g
| M_Opt_some r inp g rest g' :
    matches r inp g rest g' -> matches (Opt r) inp g rest g'
| M_Opt_none r inp g : matches (Opt r) inp g inp g
| M_Cat r1 r2 inp g mid g1 rest g2 :
    matches r1 inp g mid g1 -> matches r2 mid g1 rest g2 ->
    matches (Cat r1 r2) inp g rest g2
| M_Group r inp g rest g' :
    matches r inp g rest g' ->
    matches (Group r) inp g rest (Some (consumed inp rest))
| M_Dollar_end g : matches Dollar "" g "" g
| M_Dollar_newline g : matches Dollar nl g nl g.

(** ** The naming convention of the artifacts *)

(** A text of exactly the given character classes. *)
Fixpoint has_shape (cs : list (ascii -> bool)) (s : string) : bool :=
  match cs, s with
  | [], EmptyString => true
  | c :: cs', String a s' => c a && has_shape cs' s'
  | _, _ => false
  end.

Definition dash (c : ascii) : bool := Ascii.eqb c "-".

(** [MM-DD-YYYY-HH-MM-SS]: two digits per field, four for the year. *)
Definition timestamp_classes : list (ascii -> bool) :=
  [is_digit; is_digit; dash; is_digit; is_digit; dash;
   is_digit; is_digit; is_digit; is_digit; dash;
   is_digit; is_digit; dash; is_digit; is_digit; dash; is_digit; is_digit].

Definition artifact_prefix (issue_number : Z) : string :=
  "Test-Results-GH" ++ str_int issue_number ++ "-".

(** The convention [Test-Results-GH<issue>-<MM-DD-YYYY-HH-MM-SS>.htm[l]]
    as the specification words it: the timestamp text of a name that
    follows it for the issue, [None] for any other name. *)
Definition artifact_timestamp (issue_number : Z) (filename : string) : option string :=
  match strip_prefix (artifact_prefix issue_number) filename with
  | Some rest =>
      let ts := substring 0 19 rest in
      let ext := substring 19 (String.length rest - 19) rest in
      if has_shape timestamp_classes ts &&
         (String.eqb ext ".htm" || String.eqb ext ".html")
      then Some ts
      else None
  | None => None
  end.

(** Every byte of a text is of a class. *)
Fixpoint all_bytes (p : ascii -> bool) (s : string) : bool :=
  match s with
  | EmptyString => true
  | String c s' => p c && all_bytes p s'
  end.

(** An ASCII character, and a byte of a character beyond ASCII. *)
Definition ascii_byte (c : ascii) : bool := Unicode.byte c <? 128.
Definition high (c : ascii) : bool := 128 <=? Unicode.byte c.

(** A name written in printable ASCII characters, blank to tilde. *)
Definition plain_name (s : string) : bool := all_bytes (Unicode.between 32 126) s.

(** ** What the pattern takes for a timestamp

    [\d{2}-\d{2}-\d{4}-\d{2}-\d{2}-\d{2}], where a digit is any decimal
    digit. *)
Inductive stamp_item : Type := A_digit | A_dash.

Definition stamp_items : list stamp_item :=
  [A_digit; A_digit; A_dash; A_digit; A_digit; A_dash;
   A_digit; A_digit; A_digit; A_digit; A_dash;
   A_digit; A_digit; A_dash; A_digit; A_digit; A_dash; A_digit; A_digit].

Fixpoint reads (items : list stamp_item) (s : string) : bool :=
  match items with
  | [] => match s with EmptyString => true | String _ _ => false end
  | A_digit :: items' =>
      match Unicode.take_decimal s with
      | Some (_, _, rest) => reads items' rest
      | None => false
      end
  | A_dash :: items' =>
      match s with
      | String c rest => Ascii.eqb c "-" && reads items' rest
      | EmptyString => false
      end
  end.

Definition decimal_timestamp (ts : string) : bool := reads stamp_items ts.

(** The same items in ASCII digits. *)
Definition item_class (i : stamp_item) : ascii -> bool :=
  match i with
  | A_digit => is_digit
  | A_dash => dash
  end.

Fixpoint all_digits (s : string) : bool :=
  match s with
  | EmptyString => true
  | String c s' => is_digit c && all_digits s'
  end.

(** The pattern accepts the name. *)
Definition accepted (issue_number : Z) (filename : string) : bool :=
  match re_match (pattern issue_number) filename with
  | Some _ => true
  | None => false
  end.

(** ** The scan of the directory listing *)

(** What the loop reads off one name: the timestamp, when the pattern
    accepts the name and its group parses. *)
Definition entry_timestamp (issue_number : Z) (filename : string)
  : option Datetime.datetime :=
  match re_match (pattern issue_number) filename with
  | Some (Some ts) => Datetime.strptime ts timestamp_format
  | _ => None
  end.

(** What one name adds to [matching_files]. *)
Definition entry (issue_number : Z) (output_dir filename : string)
  : list (string * Datetime.datetime) :=
  match entry_timestamp issue_number filename with
  | Some t => [(OsPath.join output_dir filename, t)]
  | None => []
  end.

(** [matching_files] after the loop over [names]. *)
Definition candidates (issue_number : Z) (output_dir : string) (names : list string)
  : list (string * Datetime.datetime) :=
  flat_map (entry issue_number output_dir) names.

(** What [find_latest_test_result] answers once [matching_files] is known. *)
Definition select (issue_number : Z) (matching_files : list (string * Datetime.datetime))
  : io (option string) :=
  match matching_files with
  | [] =>
      ([Stdout ("Warning: No test result files found for issue #" ++ str_int issue_number)],
       Returned None)
  | _ :: _ =>
      match list_sort snd Datetime.ltb true matching_files with
      | (filepath, _) :: _ => ([], Returned (Some filepath))
      | [] => ([], Raised IndexError)
      end
  end.


(** [a == b] on datetimes. *)
Definition datetime_eqb (a b : Datetime.datetime) : bool :=
  match Datetime.cmp a b with
  | Eq => true
  | _ => false
  end.

(** ** The label filter *)

(** The labels for which an issue is listed. *)
Definition allow_set : list string := ["in-progress"; "ready"].

(** The names of the labels of an issue. *)
Definition label_names (i : GetIssues.issue) : list string :=
  map label_name (GetIssues.labels i).

(** The label set of the issue meets the allow-set. *)
Definition intersects_allow_set (i : GetIssues.issue) : Prop :=
  exists l, In l (label_names i) /\ In l allow_set.

Definition intersects_allow_setb (i : GetIssues.issue) : bool :=
  existsb (fun l => GetIssues.str_in l allow_set) (label_names i).

(** The line of the specification: identifier, title, comma-joined labels. *)
Definition listing_line (i : GetIssues.issue) : line :=
  Stdout (str_int (GetIssues.number i) ++ ": " ++ GetIssues.title i ++
          " - Labels: " ++ join "," (label_names i)).

(** ** The notification *)

(** [needle] occurs in [hay], character for character. *)
Definition occurs_in (needle hay : string) : Prop :=
  exists before after, hay = (before ++ needle ++ after)%string.

(** The literal text of the template when both optional lines are left
    out: what stands between the state and the creation time. *)
Definition html_between_state_and_created : string :=
  html_after_state ++ html_after_labels ++ html_after_assignees.

(** The literal pieces of a notification without the optional lines. *)
Definition html_literals : list string :=
  [html_head; html_after_number; html_after_title; html_between_state_and_created;
   html_after_created; html_after_updated; html_after_body; html_tail].

(** The body as the document shows it: the text of the issue, or the
    placeholder when the record has none. *)
Definition body_text (i : issue) : string :=
  get_default (body i) "No description provided.".

(** The message [send_email] builds before any attachment. *)
Definition html_message (i : issue) (repo_name from_addr to_text : string) : message :=
  {| msg_subtype := "alternative";
     msg_subject := (if nonempty repo_name then repo_name ++ " " else "") ++
                    "GH-" ++ str_int (number i) ++ ": " ++ title i;
     msg_from := from_addr;
     msg_to := join ", " (map strip (split_on "," to_text));
     msg_parts := [MIMEText (format_issue_html i) "html"] |}.

(** ** Exit status *)

(** A computation that can only leave through [sys.exit] with status 1. *)
Definition exits_with_1 {A : Type} (m : io A) : Prop :=
  forall c, snd m = Exited c -> c = 1.

(** ** Worlds and records of the examples *)

(** The settings of a missing file. *)
Definition no_config : config := fun _ _ => NoSection.

(** A world in which [dir] is the only path that exists, a directory
    that lists [names]. *)
Definition world_with_listing (dir : string) (names : list string) : world :=
  {| argv := ["send_issue_email.py"];
     read_config := fun _ => inr no_config;
     subprocess_run := fun _ => NotInstalled;
     path_exists := fun p => String.eqb p dir;
     listdir := fun p => if String.eqb p dir then inr names
                         else inl (OSError "No such file or directory");
     read_binary := fun _ => inl (OSError "No such file or directory");
     smtp_session := fun _ _ _ _ _ => Some "Connection refused" |}.

(** A world with nothing on disk. *)
Definition empty_world : world :=
  {| argv := ["send_issue_email.py"];
     read_config := fun _ => inr no_config;
     subprocess_run := fun _ => NotInstalled;
     path_exists := fun _ => false;
     listdir := fun _ => inl (OSError "No such file or directory");
     read_binary := fun _ => inl (OSError "No such file or directory");
     smtp_session := fun _ _ _ _ _ => Some "Connection refused" |}.

(** A name that follows the convention, then one newline. *)
Definition newline_name : string :=
  "Test-Results-GH32-01-03-2024-09-00-00.html" ++ nl.

Definition lister_world : world :=
  {| argv := ["get_issues.py"];
     read_config := fun _ => inr no_config;
     subprocess_run := fun _ => Completed 0 "[...]" "";
     path_exists := fun _ => false;
     listdir := fun _ => inl (OSError "No such file or directory");
     read_binary := fun _ => inl (OSError "No such file or directory");
     smtp_session := fun _ _ _ _ _ => Some "Connection refused" |}.

Definition listed_issues : list GetIssues.issue :=
  [{| GetIssues.number := 7; GetIssues.title := "Rotate logs";
      GetIssues.labels := [{| label_name := "ready" |}; {| label_name := "blocked" |}] |};
   {| GetIssues.number := 8; GetIssues.title := "Flush on exit";
      GetIssues.labels := [{| label_name := "blocked" |}] |};
   {| GetIssues.number := 9; GetIssues.title := "Sink filters";
      GetIssues.labels := [{| label_name := "in-progress" |}] |}].

Definition bare_issue : issue :=
  {| number := 32; title := "Rotate logs"; body := Some "Logs grow without bound.";
     url := "https://github.com/irsiksoftware/LogSmith/issues/32"; state := "OPEN";
     labels := Some []; assignees := Some [];
     createdAt := "2024-01-02T10:00:00Z"; updatedAt := "2024-01-03T09:00:00Z" |}.

Definition mail_config : config :=
  fun section option =>
    match section, option with
    | "GitHub", "Repository" => Value "irsiksoftware/LogSmith"
    | "TestResults", "OutputDirectory" => Value "TestOutputs"
    | "Email", "FromAddress" => Value "ci@example.org"
    | "Email", "ToAddresses" => Value "dev@example.org, qa@example.org"
    | "Email", "SMTPHost" => Value "email-smtp.example.org"
    | "Email", "SMTPPort" => Value "587"
    | "Email", "SMTPUsername" => Value "user"
    | "Email", "SMTPPassword" => Value "secret"
    | "GitHub", _ | "TestResults", _ | "Email", _ => NoOption
    | _, _ => NoSection
    end%string.

(** The name shown in the subject: the display name when the settings
    give one, the last segment of the repository path when they leave it
    out. *)
Definition display_name (cfg : config) (repository : string) : string :=
  match cfg "GitHub" "RepositoryName" with
  | Value name => name
  | _ => last (split_on "/" repository) ""
  end.

(** A stand-in for [int] that knows the two numerals of the examples. *)
Definition example_int (s : string) : option Z :=
  if String.eqb s "32" then Some 32
  else if String.eqb s "587" then Some 587
  else None.

(** A world in which everything works and no artifact exists. *)
Definition mail_world : world :=
  {| argv := ["send_issue_email.py"; "32"];
     read_config := fun _ => inr mail_config;
     subprocess_run := fun _ => Completed 0 "{...}" "";
     path_exists := fun _ => false;
     listdir := fun _ => inl (OSError "No such file or directory");
     read_binary := fun _ => inr [];
     smtp_session := fun _ _ _ _ _ => None |}.

(** ** The mail settings *)

(** The options of the section [Email] that [send_email] reads, in the
    order in which it reads them. *)
Definition email_keys : list string :=
  ["FromAddress"; "ToAddresses"; "SMTPHost"; "SMTPPort"; "SMTPUsername";
   "SMTPPassword"].

(** A world whose only file is one artifact of issue 32, of three bytes. *)
Definition artifact_world : world :=
  {| argv := ["send_issue_email.py"; "32"];
     read_config := fun _ => inr mail_config;
     subprocess_run := fun _ => Completed 0 "{...}" "";
     path_exists := fun p =>
       String.eqb p "TestOutputs" ||
       String.eqb p "TestOutputs/Test-Results-GH32-01-03-2024-09-00-00.html";
     listdir := fun p =>
       if String.eqb p "TestOutputs"
       then inr ["notes.txt"; "Test-Results-GH32-01-03-2024-09-00-00.html"]
       else inl (OSError "Not a directory");
     read_binary := fun p =>
       if String.eqb p "TestOutputs/Test-Results-GH32-01-03-2024-09-00-00.html"
       then inr [Byte.x3c; Byte.x70; Byte.x3e]
       else inl (OSError "No such file or directory");
     smtp_session := fun _ _ _ _ _ => None |}.

(** An issue with two labels and one assignee. *)
Definition labelled_issue : issue :=
  {| number := 32; title := "Rotate logs"; body := None;
     url := "https://github.com/irsiksoftware/LogSmith/issues/32"; state := "OPEN";
     labels := Some [{| label_name := "ready" |}; {| label_name := "logging" |}];
     assignees := Some [{| login := "octocat" |}];
     createdAt := "2024-01-02T10:00:00Z"; updatedAt := "2024-01-03T09:00:00Z" |}.

(** A world in which [gh] fails with status 4. *)
Definition failing_gh_world : world :=
  {| argv := ["send_issue_email.py"; "32"];
     read_config := fun _ => inr mail_config;
     subprocess_run := fun _ => Completed 4 "" "HTTP 401: Bad credentials";
     path_exists := fun _ => false;
     listdir := fun _ => inl (OSError "No such file or directory");
     read_binary := fun _ => inl (OSError "No such file or directory");
     smtp_session := fun _ _ _ _ _ => None |}.

(** ** The calendar time of a timestamp *)

(** [int(ts[start:start+len])]. *)
Definition timestamp_field (ts : string) (start len : nat) : Z :=
  Datetime.int_field (substring start len ts).

(** Year, month, day, hour, minute and second as the text
    [MM-DD-YYYY-HH-MM-SS] writes them. *)
Definition calendar_fields (ts : string) : list Z :=
  [timestamp_field ts 6 4; timestamp_field ts 0 2; timestamp_field ts 3 2;
   timestamp_field ts 11 2; timestamp_field ts 14 2; timestamp_field ts 17 2].

(** The datetime of these fields, when there is one. *)
Definition calendar_time (ts : string) : option Datetime.datetime :=
  Datetime.new (timestamp_field ts 6 4) (timestamp_field ts 0 2)
               (timestamp_field ts 3 2) (timestamp_field ts 11 2)
               (timestamp_field ts 14 2) (timestamp_field ts 17 2) 0.

(** The alternation of one directive, with what follows it as a
    continuation: the first alternative after which [k] succeeds. *)
Fixpoint first_alt {R : Type} (k : string -> string -> option R)
    (alts : list (list Datetime.cls)) (s : string) : option R :=
  match alts with
  | [] => None
  | a :: more =>
      match Datetime.take_alt a s with
      | Some (txt, rest) =>
          match k txt rest with
          | Some r => Some r
          | None => first_alt k more s
          end
      | None => first_alt k more s
      end
  end.

(** The two-digit values the alternation of a directive takes. *)
Definition field_ok (d : ascii) (v : Z) : bool :=
  if Ascii.eqb d "m" then (1 <=? v) && (v <=? 12)
  else if Ascii.eqb d "d" then (1 <=? v) && (v <=? 31)
  else if Ascii.eqb d "H" then v <=? 23
  else if Ascii.eqb d "M" then v <=? 59
  else if Ascii.eqb d "S" then v <=? 61
  else false.

(* ================================================================== *)
(** * Properties *)

(** ** The model on examples *)

Example pattern_accepts_html :
  re_match (pattern 32) "Test-Results-GH32-01-02-2024-10-00-00.html"
  = Some (Some "01-02-2024-10-00-00").
Proof. reflexivity. Qed.

Example pattern_accepts_htm :
  re_match (pattern 32) "Test-Results-GH32-01-02-2024-10-00-00.htm"
  = Some (Some "01-02-2024-10-00-00").
Proof. reflexivity. Qed.

Example pattern_accepts_trailing_newline :
  re_match (pattern 32) ("Test-Results-GH32-01-02-2024-10-00-00.html" ++ nl)
  = Some (Some "01-02-2024-10-00-00").
Proof. reflexivity. Qed.

Example pattern_rejects_other_issue :
  re_match (pattern 32) "Test-Results-GH99-01-02-2024-10-00-00.html" = None /\
  re_match (pattern 32) "Test-Results-GH320-01-02-2024-10-00-00.html" = None /\
  re_match (pattern 32) "Test-Results-GH3-01-02-2024-10-00-00.html" = None.
Proof. repeat split. Qed.

Example pattern_rejects_other_shapes :
  re_match (pattern 32) "test-results-gh32-01-02-2024-10-00-00.html" = None /\
  re_match (pattern 32) "Test-Results-GH32-1-2-2024-10-00-00.html" = None /\
  re_match (pattern 32) "Test-Results-GH32-01-02-24-10-00-00.html" = None /\
  re_match (pattern 32) "Test-Results-GH32-01-02-2024-10-00-00.html.bak" = None /\
  re_match (pattern 32) "Test-Results-GH32-01-02-2024-10-00-00.txt" = None /\
  re_match (pattern 32) "old-Test-Results-GH32-01-02-2024-10-00-00.html" = None.
Proof. repeat split. Qed.

Example strptime_parses :
  Datetime.strptime "01-03-2024-09-00-00" timestamp_format
  = Some (Datetime.mk_datetime 2024 1 3 9 0 0 0) /\
  Datetime.strptime "02-29-2024-23-59-59" timestamp_format
  = Some (Datetime.mk_datetime 2024 2 29 23 59 59 0).
Proof. repeat split. Qed.

Example strptime_refuses :
  Datetime.strptime "13-03-2024-09-00-00" timestamp_format = None /\
  Datetime.strptime "00-03-2024-09-00-00" timestamp_format = None /\
  Datetime.strptime "02-30-2024-09-00-00" timestamp_format = None /\
  Datetime.strptime "02-29-2023-09-00-00" timestamp_format = None /\
  Datetime.strptime "01-03-0000-09-00-00" timestamp_format = None /\
  Datetime.strptime "01-03-2024-24-00-00" timestamp_format = None /\
  Datetime.strptime "01-03-2024-09-60-00" timestamp_format = None /\
  Datetime.strptime "01-03-2024-09-00-60" timestamp_format = None.
Proof. repeat split. Qed.

Example list_sort_reverse_keeps_ties :
  list_sort snd Z.ltb true [("a", 1); ("b", 3); ("c", 3); ("d", 2)]
  = [("b", 3); ("c", 3); ("d", 2); ("a", 1)].
Proof. reflexivity. Qed.

Example os_path_join :
  OsPath.join "TestOutputs" "r.html" = "TestOutputs/r.html" /\
  OsPath.join "TestOutputs/" "r.html" = "TestOutputs/r.html" /\
  OsPath.join "TestOutputs" "/tmp/r.html" = "/tmp/r.html" /\
  OsPath.basename "TestOutputs/r.html" = "r.html".
Proof. repeat split. Qed.

(** ** The effect monad *)

Lemma bind_ret {A B : Type} (a : A) (f : A -> io B) : bind (ret a) f = f a.
Proof. unfold bind, ret. destruct (f a) as [out r]. reflexivity. Qed.

Lemma bind_print {B : Type} (s : string) (f : unit -> io B) :
  bind (print s) f = (Stdout s :: fst (f tt), snd (f tt)).
Proof. unfold bind, print. destruct (f tt) as [out r]. reflexivity. Qed.

(** ** [list.sort] *)

Section SortFacts.
Context {A K : Type}.
Variable key : A -> K.
Variable lt : K -> K -> bool.

Lemma insert_In (x y : A) (l : list A) :
  In y (insert key lt x l) <-> x = y \/ In y l.
Proof.
  induction l as [|z l IH]; simpl.
  - tauto.
  - destruct (lt (key z) (key x)); simpl; rewrite ?IH; tauto.
Qed.

Lemma stable_sort_In (y : A) (l : list A) :
  In y (stable_sort key lt l) <-> In y l.
Proof.
  induction l as [|x l IH]; simpl.
  - tauto.
  - rewrite insert_In, IH. tauto.
Qed.

Lemma list_sort_In (reverse : bool) (y : A) (l : list A) :
  In y (list_sort key lt reverse l) <-> In y l.
Proof.
  unfold list_sort. destruct reverse.
  - rewrite <- in_rev, stable_sort_In, <- in_rev. tauto.
  - apply stable_sort_In.
Qed.

(** An element greater than all of [l] is inserted at the end. *)
Lemma insert_at_end (x : A) (l : list A) :
  (forall y, In y l -> lt (key y) (key x) = true) ->
  insert key lt x l = (l ++ [x])%list.
Proof.
  induction l as [|z l IH]; simpl; intros H.
  - reflexivity.
  - rewrite (H z) by auto. rewrite IH by auto. reflexivity.
Qed.

(** An element not greater than the last one leaves it last. *)
Lemma insert_keeps_last (x m : A) (l : list A) :
  lt (key m) (key x) = false ->
  exists l', insert key lt x (l ++ [m])%list = (l' ++ [m])%list.
Proof.
  intros Hm. induction l as [|z l [l' IH]]; simpl.
  - rewrite Hm. exists [x]. reflexivity.
  - destruct (lt (key z) (key x)).
    + exists (z :: l'). rewrite IH. reflexivity.
    + exists (x :: z :: l). reflexivity.
Qed.

(** The ascending sort ends with the last of the greatest elements. *)
Lemma stable_sort_last (a b : list A) (m : A) :
  (forall x, In x a -> lt (key m) (key x) = false) ->
  (forall x, In x b -> lt (key x) (key m) = true) ->
  exists s, stable_sort key lt (a ++ m :: b)%list = (s ++ [m])%list.
Proof.
  intros Ha Hb. induction a as [|x a IH]; simpl.
  - exists (stable_sort key lt b). apply insert_at_end.
    intros y Hy. apply Hb. now apply stable_sort_In.
  - destruct IH as [s Hs]; [intros; apply Ha; now right|].
    rewrite Hs. apply insert_keeps_last. apply Ha. now left.
Qed.

(** With [reverse=True] the sorted list starts with the first of the
    greatest elements. *)
Lemma list_sort_reverse_head (l1 l2 : list A) (m : A) :
  (forall x, In x l1 -> lt (key x) (key m) = true) ->
  (forall x, In x l2 -> lt (key m) (key x) = false) ->
  exists t, list_sort key lt true (l1 ++ m :: l2)%list = m :: t.
Proof.
  intros H1 H2. unfold list_sort.
  rewrite rev_app_distr. simpl. rewrite <- app_assoc. simpl.
  destruct (stable_sort_last (rev l2) (rev l1) m) as [s Hs].
  - intros x Hx. apply H2. now apply in_rev.
  - intros x Hx. apply H1. now apply in_rev.
  - rewrite Hs, rev_app_distr. simpl. now exists (rev s).
Qed.

End SortFacts.

(** ** The order of [datetime] values *)

Lemma tuple_cmp_eq (a b : list Z) : Datetime.tuple_cmp a b = Eq -> a = b.
Proof.
  revert b. induction a as [|x a IH]; intros [|y b]; simpl; try discriminate.
  - reflexivity.
  - destruct (Z.compare_spec x y) as [Hxy| |]; try discriminate.
    intros Hc. subst. f_equal. now apply IH.
Qed.

Lemma tuple_cmp_antisym (a b : list Z) :
  Datetime.tuple_cmp b a = CompOpp (Datetime.tuple_cmp a b).
Proof.
  revert b. induction a as [|x a IH]; intros [|y b]; simpl; try reflexivity.
  rewrite (Z.compare_antisym x y).
  destruct (x ?= y); simpl; auto.
Qed.

Lemma datetime_cmp_eq (a b : Datetime.datetime) : Datetime.cmp a b = Eq -> a = b.
Proof.
  intros H. apply tuple_cmp_eq in H.
  destruct a, b. unfold Datetime.fields in H. simpl in H.
  now inversion H.
Qed.

(** Of two different datetimes one is earlier. *)
Lemma datetime_ltb_total (a b : Datetime.datetime) :
  a <> b -> Datetime.ltb b a = false -> Datetime.ltb a b = true.
Proof.
  unfold Datetime.ltb, Datetime.cmp. intros Hne.
  rewrite (tuple_cmp_antisym (Datetime.fields a) (Datetime.fields b)).
  destruct (Datetime.tuple_cmp (Datetime.fields a) (Datetime.fields b)) eqn:E;
    simpl; try easy.
  intros _. exfalso. apply Hne. now apply datetime_cmp_eq.
Qed.

Lemma datetime_ltb_irrefl (a : Datetime.datetime) : Datetime.ltb a a = false.
Proof.
  unfold Datetime.ltb, Datetime.cmp.
  pose proof (tuple_cmp_antisym (Datetime.fields a) (Datetime.fields a)) as H.
  destruct (Datetime.tuple_cmp (Datetime.fields a) (Datetime.fields a));
    simpl in H; try discriminate; reflexivity.
Qed.

(** ** The result of [list.sort] is sorted *)

Section SortedFacts.
Context {A K : Type}.
Variable key : A -> K.
Variable lt : K -> K -> bool.
Hypothesis lt_asym : forall a b, lt a b = true -> lt b a = false.
(** [a <= b] and [b <= c] give [a <= c], with [a <= b] read as not [b < a]. *)
Hypothesis le_trans :
  forall a b c, lt b a = false -> lt c b = false -> lt c a = false.

Lemma insert_perm (x : A) (l : list A) : Permutation (x :: l) (insert key lt x l).
Proof.
  induction l as [|y l IH]; simpl.
  - apply Permutation_refl.
  - destruct (lt (key y) (key x)).
    + apply perm_trans with (y :: x :: l); [apply perm_swap | now apply perm_skip].
    + apply Permutation_refl.
Qed.

Lemma list_sort_perm (reverse : bool) (l : list A) :
  Permutation l (list_sort key lt reverse l).
Proof.
  assert (S : forall l', Permutation l' (stable_sort key lt l')).
  { induction l' as [|x l' IH]; simpl; [constructor|].
    apply perm_trans with (x :: stable_sort key lt l');
      [now apply perm_skip | apply insert_perm]. }
  unfold list_sort. destruct reverse; [|apply S].
  apply perm_trans with (rev l); [apply Permutation_rev|].
  apply perm_trans with (stable_sort key lt (rev l)); [apply S | apply Permutation_rev].
Qed.

Lemma insert_sorted (x : A) (l : list A) :
  StronglySorted (fun a b => lt (key b) (key a) = false) l ->
  StronglySorted (fun a b => lt (key b) (key a) = false) (insert key lt x l).
Proof.
  induction 1 as [|y l Hs IH Hy]; simpl.
  - repeat constructor.
  - destruct (lt (key y) (key x)) eqn:E.
    + constructor; [assumption|].
      apply Forall_forall. intros z Hz. apply insert_In in Hz.
      destruct Hz as [<-|Hz]; [now apply lt_asym|].
      rewrite Forall_forall in Hy. now apply Hy.
    + constructor; [now constructor|].
      constructor; [assumption|].
      apply Forall_forall. intros z Hz. rewrite Forall_forall in Hy.
      apply le_trans with (key y); [assumption | now apply Hy].
Qed.

Lemma stable_sort_sorted (l : list A) :
  StronglySorted (fun a b => lt (key b) (key a) = false) (stable_sort key lt l).
Proof.
  induction l as [|x l IH]; simpl; [constructor | now apply insert_sorted].
Qed.

Lemma sorted_rev (R : A -> A -> Prop) (l : list A) :
  StronglySorted R l -> StronglySorted (fun a b => R b a) (rev l).
Proof.
  induction 1 as [|x l Hs IH Hx]; simpl; [constructor|].
  assert (G : forall l', StronglySorted (fun a b => R b a) l' ->
                         Forall (fun y => R x y) l' ->
                         StronglySorted (fun a b => R b a) (l' ++ [x])).
  { induction 1 as [|y l' Hs' IH' Hy]; simpl; intros Hall.
    - repeat constructor.
    - inversion Hall as [|? ? Hxy Hall']; subst.
      constructor; [now apply IH'|].
      apply Forall_app. split; [assumption | now repeat constructor]. }
  apply G; [assumption|].
  apply Forall_forall. intros y Hy. rewrite Forall_forall in Hx.
  apply Hx. now apply in_rev.
Qed.

(** With [reverse=True] no element is followed by a greater one. *)
Lemma list_sort_reverse_sorted (l : list A) :
  StronglySorted (fun a b => lt (key a) (key b) = false) (list_sort key lt true l).
Proof.
  unfold list_sort.
  apply (sorted_rev (fun a b => lt (key b) (key a) = false)).
  apply stable_sort_sorted.
Qed.

End SortedFacts.

Lemma tuple_cmp_lt_trans (a b c : list Z) :
  Datetime.tuple_cmp a b = Lt -> Datetime.tuple_cmp b c = Lt ->
  Datetime.tuple_cmp a c = Lt.
Proof.
  revert b c. induction a as [|x a IH]; intros [|y b] [|z c]; simpl;
    try discriminate; try reflexivity.
  destruct (Z.compare_spec x y) as [->|Hxy|Hxy]; try discriminate;
    destruct (Z.compare_spec y z) as [->|Hyz|Hyz]; try discriminate;
    try (intros _ _; reflexivity).
  - apply IH.
  - intros _ _. apply Z.compare_lt_iff in Hxy. now rewrite Hxy.
  - intros _ _. assert (H : x < z) by lia.
    apply Z.compare_lt_iff in H. now rewrite H.
Qed.

Lemma datetime_ltb_asym (a b : Datetime.datetime) :
  Datetime.ltb a b = true -> Datetime.ltb b a = false.
Proof.
  unfold Datetime.ltb, Datetime.cmp.
  rewrite (tuple_cmp_antisym (Datetime.fields a) (Datetime.fields b)).
  destruct (Datetime.tuple_cmp (Datetime.fields a) (Datetime.fields b));
    simpl; congruence.
Qed.

Lemma datetime_le_trans (a b c : Datetime.datetime) :
  Datetime.ltb b a = false -> Datetime.ltb c b = false -> Datetime.ltb c a = false.
Proof.
  unfold Datetime.ltb, Datetime.cmp.
  destruct (Datetime.tuple_cmp (Datetime.fields b) (Datetime.fields a)) eqn:Eba;
    try discriminate; intros _;
    destruct (Datetime.tuple_cmp (Datetime.fields c) (Datetime.fields b)) eqn:Ecb;
    try discriminate; intros _.
  - apply tuple_cmp_eq in Eba, Ecb. rewrite Ecb, Eba.
    pose proof (tuple_cmp_antisym (Datetime.fields a) (Datetime.fields a)) as H.
    destruct (Datetime.tuple_cmp (Datetime.fields a) (Datetime.fields a));
      simpl in H; congruence.
  - apply tuple_cmp_eq in Eba. rewrite <- Eba, Ecb. reflexivity.
  - apply tuple_cmp_eq in Ecb. rewrite Ecb, Eba. reflexivity.
  - destruct (Datetime.tuple_cmp (Datetime.fields c) (Datetime.fields a)) eqn:Eca;
      try reflexivity.
    pose proof (tuple_cmp_lt_trans _ _ _ Eca
                  ltac:(rewrite tuple_cmp_antisym, Eba; reflexivity)) as H.
    rewrite Ecb in H. discriminate.
Qed.

(** [matching_files.sort(key=lambda x: x[1], reverse=True)] rearranges
    the entries so that no entry is followed by a later one. *)
Lemma matching_files_sorted (matching_files : list (string * Datetime.datetime)) :
  Permutation matching_files (list_sort snd Datetime.ltb true matching_files) /\
  StronglySorted (fun a b => Datetime.ltb (snd a) (snd b) = false)
                 (list_sort snd Datetime.ltb true matching_files).
Proof.
  split.
  - apply list_sort_perm.
  - apply list_sort_reverse_sorted.
    + apply datetime_ltb_asym.
    + apply datetime_le_trans.
Qed.

(** ** Strings *)

Lemma append_assoc (a b c : string) : ((a ++ b) ++ c = a ++ (b ++ c))%string.
Proof. induction a as [|x a IH]; simpl; [reflexivity | now rewrite IH]. Qed.

Lemma append_nil_r (a : string) : (a ++ "")%string = a.
Proof. induction a as [|x a IH]; simpl; [reflexivity | now rewrite IH]. Qed.

Lemma length_append (a b : string) :
  String.length (a ++ b) = (String.length a + String.length b)%nat.
Proof. induction a as [|x a IH]; simpl; [reflexivity | now rewrite IH]. Qed.

Lemma strip_prefix_spec (p s rest : string) :
  strip_prefix p s = Some rest <-> s = (p ++ rest)%string.
Proof.
  revert s. induction p as [|a p IH]; intros s; simpl.
  - split; [intros [= ->] | intros ->]; reflexivity.
  - destruct s as [|b s].
    + split; discriminate.
    + destruct (Ascii.eqb_spec a b) as [->|Hab].
      * rewrite IH. split; [intros -> | intros [= ->]]; reflexivity.
      * split; [discriminate | intros [= <- _]; contradiction].
Qed.

Lemma strip_prefix_app (p rest : string) : strip_prefix p (p ++ rest) = Some rest.
Proof. now apply strip_prefix_spec. Qed.

Lemma substring_prefix (a b : string) : substring 0 (String.length a) (a ++ b) = a.
Proof.
  induction a as [|x a IH]; simpl.
  - destruct b; reflexivity.
  - now rewrite IH.
Qed.

Lemma consumed_app (a b : string) : consumed (a ++ b) b = a.
Proof.
  unfold consumed. rewrite length_append.
  replace (String.length a + String.length b - String.length b)%nat
    with (String.length a) by lia.
  apply substring_prefix.
Qed.

(** ** The matcher against a declarative reading of the patterns *)

(** Whatever the matcher returns was returned by its continuation, at a
    position and group that the pattern allows. *)
Lemma run_sound (r : regex) :
  forall (R : Type) (inp : string) (g : option string)
         (k : string -> option string -> option R) (x : R),
    run r inp g k = Some x ->
    exists rest g', matches r inp g rest g' /\ k rest g' = Some x.
Proof.
  induction r as [s| |r IH|r1 IH1 r2 IH2|r IH|]; intros R inp g k x H; simpl in H.
  - destruct (strip_prefix s inp) as [rest|] eqn:E; [|discriminate].
    apply strip_prefix_spec in E. subst inp.
    exists rest, g. split; [constructor | assumption].
  - destruct (Unicode.take_decimal inp) as [[[v txt] rest]|] eqn:E; [|discriminate].
    exists rest, g. split; [now apply M_Digit with v txt | assumption].
  - destruct (run r inp g k) as [y|] eqn:E.
    + injection H as ->. apply IH in E. destruct E as (rest & g' & Hm & Hk).
      exists rest, g'. split; [now apply M_Opt_some | assumption].
    + exists inp, g. split; [apply M_Opt_none | assumption].
  - apply IH1 in H. destruct H as (mid & g1 & Hm1 & H).
    apply IH2 in H. destruct H as (rest & g2 & Hm2 & H).
    exists rest, g2. split; [now apply M_Cat with mid g1 | assumption].
  - apply IH in H. destruct H as (rest & g' & Hm & H).
    exists rest, (Some (consumed inp rest)). split; [now apply M_Group with g' | assumption].
  - destruct inp as [|c [|c' inp]]; try discriminate.
    + exists "", g. split; [constructor | assumption].
    + destruct (Ascii.eqb_spec c "010") as [->|]; [|discriminate].
      exists nl, g. split; [apply M_Dollar_newline | assumption].
Qed.

Ltac invert_matches :=
  repeat match goal with
         | H : matches (Cat _ _) _ _ _ _ |- _ => inversion H; subst; clear H
         | H : matches (Group _) _ _ _ _ |- _ => inversion H; subst; clear H
         | H : matches (Lit _) _ _ _ _ |- _ => inversion H; subst; clear H
         | H : matches Digit _ _ _ _ |- _ => inversion H; subst; clear H
         | H : matches Dollar _ _ _ _ |- _ => inversion H; subst; clear H
         | H : matches (Opt _) _ _ _ _ |- _ => inversion H; subst; clear H
         end.

(** ** Characters *)

Lemma is_digit_byte (c : ascii) :
  is_digit c = (48 <=? Unicode.byte c) && (Unicode.byte c <=? 57).
Proof. destruct c as [[] [] [] [] [] [] [] []]; reflexivity. Qed.

Lemma byte_range (c : ascii) : 0 <= Unicode.byte c < 256.
Proof. destruct c as [[] [] [] [] [] [] [] []]; vm_compute; split; congruence. Qed.

Lemma find_none {A : Type} (f : A -> bool) (l : list A) :
  Forall (fun x => f x = false) l -> find f l = None.
Proof. induction 1 as [|x l Hx _ IH]; simpl; [reflexivity | now rewrite Hx]. Qed.

Ltac outside_runs :=
  repeat constructor;
  first [ apply andb_false_intro1; apply Z.leb_gt; lia
        | apply andb_false_intro2; apply Z.leb_gt; lia ].

Lemma decimal_value_ascii (cp : Z) :
  0 <= cp < 128 ->
  Unicode.decimal_value cp
  = if (48 <=? cp) && (cp <=? 57) then Some (cp - 48) else None.
Proof.
  intros H. unfold Unicode.decimal_value, Unicode.decimal_zeros.
  match goal with
  | |- context [find ?f (?x :: ?l)] =>
      change (find f (x :: l)) with (if f x then Some x else find f l)
  end.
  cbv beta. change (48 + 9) with 57.
  destruct ((48 <=? cp) && (cp <=? 57)); [reflexivity|].
  rewrite find_none; [reflexivity|]. outside_runs.
Qed.

Lemma decimal_value_stray (b : Z) :
  128 <= b < 256 -> Unicode.decimal_value (56320 + b) = None.
Proof.
  intros H. unfold Unicode.decimal_value.
  rewrite find_none; [reflexivity|]. unfold Unicode.decimal_zeros. outside_runs.
Qed.

Lemma decimal_value_range (cp v : Z) :
  Unicode.decimal_value cp = Some v -> 0 <= v <= 9.
Proof.
  unfold Unicode.decimal_value.
  destruct (find _ _) as [zero|] eqn:E; [|discriminate].
  apply find_some in E. destruct E as [_ E]. intros [= <-].
  apply andb_prop in E. rewrite !Z.leb_le in E. lia.
Qed.

Lemma next_ascii (c : ascii) (s : string) :
  Unicode.byte c < 128 ->
  Unicode.next (String c s) = Some (Unicode.byte c, String c "", s).
Proof. intros H. apply Z.ltb_lt in H. unfold Unicode.next. now rewrite H. Qed.

Lemma take_decimal_digit (c : ascii) (s : string) :
  is_digit c = true ->
  Unicode.take_decimal (String c s) = Some (Unicode.byte c - 48, String c "", s).
Proof.
  intros H. rewrite is_digit_byte in H.
  pose proof H as H'. apply andb_prop in H'. rewrite !Z.leb_le in H'.
  unfold Unicode.take_decimal. rewrite next_ascii by lia.
  rewrite decimal_value_ascii by lia. now rewrite H.
Qed.

Lemma take_decimal_ascii (c : ascii) (s : string) (r : Z * string * string) :
  Unicode.byte c < 128 ->
  Unicode.take_decimal (String c s) = Some r ->
  is_digit c = true.
Proof.
  intros H. pose proof (byte_range c) as Hr.
  unfold Unicode.take_decimal. rewrite next_ascii by assumption.
  rewrite decimal_value_ascii by lia. rewrite is_digit_byte.
  now destruct (_ && _).
Qed.

Lemma cont_high (c : ascii) : Unicode.cont c = true -> high c = true.
Proof.
  unfold Unicode.cont, Unicode.between, high. intros H.
  apply andb_prop in H. tauto.
Qed.

Ltac bool_facts :=
  repeat match goal with
         | H : _ && _ = true |- _ => apply andb_prop in H; destruct H
         | H : _ || _ = true |- _ => apply orb_prop in H; destruct H
         end.

Lemma lead3_high (b0 b1 : ascii) : Unicode.lead3 b0 b1 = true -> high b1 = true.
Proof.
  unfold Unicode.lead3, Unicode.cont, Unicode.between, high. intros H.
  bool_facts; apply Z.leb_le; rewrite ?Z.leb_le in *; lia.
Qed.

Lemma lead4_high (b0 b1 : ascii) : Unicode.lead4 b0 b1 = true -> high b1 = true.
Proof.
  unfold Unicode.lead4, Unicode.cont, Unicode.between, high. intros H.
  bool_facts; apply Z.leb_le; rewrite ?Z.leb_le in *; lia.
Qed.

(** A decimal digit at the front of a text is one ASCII digit or a
    well-formed sequence of bytes above the ASCII range, and is a decimal
    digit whatever follows it. *)
Lemma take_decimal_inv (s : string) (v : Z) (txt rest : string) :
  Unicode.take_decimal s = Some (v, txt, rest) ->
  s = (txt ++ rest)%string /\
  (forall rest', Unicode.take_decimal (txt ++ rest') = Some (v, txt, rest')) /\
  ((exists c, txt = String c "" /\ is_digit c = true) \/
   (exists c txt', txt = String c txt' /\ all_bytes high txt = true)).
Proof.
  unfold Unicode.take_decimal at 1, Unicode.next.
  destruct s as [|b0 s1]; [discriminate|].
  pose proof (byte_range b0) as R0.
  destruct (Unicode.byte b0 <? 128) eqn:E0.
  { destruct (Unicode.decimal_value (Unicode.byte b0)) as [v'|] eqn:Ev;
      [|intros H; discriminate H].
    intros [= <- <- <-]. split; [reflexivity|]. split.
    - intros rest'. simpl. unfold Unicode.take_decimal, Unicode.next.
      now rewrite E0, Ev.
    - left. exists b0. split; [reflexivity|].
      apply Z.ltb_lt in E0. rewrite decimal_value_ascii in Ev by lia.
      rewrite is_digit_byte. now destruct (_ && _). }
  assert (H0 : high b0 = true) by (apply Z.ltb_ge in E0; now apply Z.leb_le).
  assert (Hstray : Unicode.decimal_value (56320 + Unicode.byte b0) = None)
    by (apply decimal_value_stray; apply Z.ltb_ge in E0; lia).
  cbv zeta.
  destruct s1 as [|b1 s2]; [cbv beta iota; rewrite Hstray; intros H; discriminate H|].
  destruct (Unicode.lead2 b0 && Unicode.cont b1) eqn:E2.
  { cbv beta iota.
    match goal with
    | |- context [Unicode.decimal_value ?cp] =>
        destruct (Unicode.decimal_value cp) as [v'|] eqn:Ev; [|intros H; discriminate H]
    end.
    intros [= <- <- <-]. split; [reflexivity|]. split.
    - intros rest'. simpl. unfold Unicode.take_decimal, Unicode.next.
      now rewrite E0, E2, Ev.
    - right. exists b0, (String b1 ""). split; [reflexivity|].
      apply andb_prop in E2. simpl. rewrite H0, (cont_high b1) by tauto. reflexivity. }
  destruct s2 as [|b2 s3]; [cbv beta iota; rewrite Hstray; intros H; discriminate H|].
  destruct (Unicode.lead3 b0 b1 && Unicode.cont b2) eqn:E3.
  { cbv beta iota.
    match goal with
    | |- context [Unicode.decimal_value ?cp] =>
        destruct (Unicode.decimal_value cp) as [v'|] eqn:Ev; [|intros H; discriminate H]
    end.
    intros [= <- <- <-]. split; [reflexivity|]. split.
    - intros rest'. simpl. unfold Unicode.take_decimal, Unicode.next.
      now rewrite E0, E2, E3, Ev.
    - right. exists b0, (String b1 (String b2 "")). split; [reflexivity|].
      apply andb_prop in E3. simpl.
      rewrite H0, (lead3_high b0 b1), (cont_high b2) by tauto. reflexivity. }
  destruct s3 as [|b3 s4]; [cbv beta iota; rewrite Hstray; intros H; discriminate H|].
  destruct (Unicode.lead4 b0 b1 && Unicode.cont b2 && Unicode.cont b3) eqn:E4;
    [|cbv beta iota; rewrite Hstray; intros H; discriminate H].
  cbv beta iota.
  match goal with
    | |- context [Unicode.decimal_value ?cp] =>
        destruct (Unicode.decimal_value cp) as [v'|] eqn:Ev; [|intros H; discriminate H]
    end.
  intros [= <- <- <-]. split; [reflexivity|]. split.
  - intros rest'. simpl. unfold Unicode.take_decimal, Unicode.next.
    now rewrite E0, E2, E3, E4, Ev.
  - right. exists b0, (String b1 (String b2 (String b3 ""))). split; [reflexivity|].
    apply andb_prop in E4. destruct E4 as [E4 E4'']. apply andb_prop in E4.
    simpl. rewrite H0, (lead4_high b0 b1), (cont_high b2), (cont_high b3) by tauto.
    reflexivity.
Qed.

(** ** The naming convention of the specification *)

Lemma has_shape_cons (c : ascii -> bool) (cs : list (ascii -> bool)) (s : string) :
  has_shape (c :: cs) s = true ->
  exists a s', s = String a s' /\ c a = true /\ has_shape cs s' = true.
Proof.
  destruct s as [|a s']; simpl; [discriminate|].
  intros H. apply andb_prop in H. destruct H. now exists a, s'.
Qed.

Lemma has_shape_nil (s : string) : has_shape [] s = true -> s = "".
Proof. destruct s; [reflexivity | discriminate]. Qed.

Lemma has_shape_length (cs : list (ascii -> bool)) (s : string) :
  has_shape cs s = true -> String.length s = List.length cs.
Proof.
  revert s. induction cs as [|c cs IH]; intros s H.
  - apply has_shape_nil in H. now subst.
  - apply has_shape_cons in H. destruct H as (a & s' & -> & _ & H).
    simpl. f_equal. now apply IH.
Qed.

Lemma substring_split (n : nat) (s : string) :
  String.length (substring 0 n s) = n ->
  s = (substring 0 n s ++ substring n (String.length s - n) s)%string.
Proof.
  revert s. induction n as [|n IH]; intros s H.
  - destruct s as [|a s]; simpl.
    + reflexivity.
    + f_equal. clear H. induction s as [|b s IHs]; simpl; [reflexivity|].
      now f_equal.
  - destruct s as [|a s]; simpl in *; [discriminate|].
    f_equal. apply IH. now injection H.
Qed.

(** The parts of a name that follows the convention. *)
Lemma artifact_timestamp_parts (issue_number : Z) (filename ts : string) :
  artifact_timestamp issue_number filename = Some ts ->
  has_shape timestamp_classes ts = true /\
  (filename = (artifact_prefix issue_number ++ ts ++ ".htm")%string \/
   filename = (artifact_prefix issue_number ++ ts ++ ".html")%string).
Proof.
  unfold artifact_timestamp.
  destruct (strip_prefix (artifact_prefix issue_number) filename) as [rest|] eqn:E;
    [|discriminate].
  apply strip_prefix_spec in E. subst filename.
  destruct (has_shape timestamp_classes (substring 0 19 rest)) eqn:Hs; [|discriminate].
  simpl andb.
  destruct (orb _ _) eqn:Hext; [|discriminate].
  intros [= <-]. split; [assumption|].
  pose proof (has_shape_length _ _ Hs) as Hlen.
  apply substring_split in Hlen. simpl List.length in Hlen.
  apply orb_prop in Hext. rewrite !String.eqb_eq in Hext.
  destruct Hext as [Hext|Hext]; [left|right]; f_equal;
    rewrite <- Hext; exact Hlen.
Qed.

Ltac peel_shape H :=
  repeat (apply has_shape_cons in H;
          let a := fresh "a" in
          let Ha := fresh "Ha" in
          destruct H as (a & ? & -> & Ha & H));
  apply has_shape_nil in H; subst.

Lemma reads_digit (items : list stamp_item) (s : string) :
  reads (A_digit :: items) s = true ->
  exists v t r,
    s = (t ++ r)%string /\
    ((forall r', Unicode.take_decimal (t ++ r') = Some (v, t, r')) /\
     ((exists c, t = String c "" /\ is_digit c = true) \/
      (exists c t', t = String c t' /\ all_bytes high t = true))) /\
    reads items r = true.
Proof.
  cbn [reads].
  destruct (Unicode.take_decimal s) as [[[v t] r]|] eqn:E; [|discriminate].
  intros H. apply take_decimal_inv in E. destruct E as (E & L & D).
  now exists v, t, r.
Qed.

Lemma reads_dash (items : list stamp_item) (s : string) :
  reads (A_dash :: items) s = true ->
  exists r, s = String "-" r /\ reads items r = true.
Proof.
  cbn [reads]. destruct s as [|c r]; [discriminate|].
  intros H. apply andb_prop in H. destruct H as [H1 H2].
  apply Ascii.eqb_eq in H1. subst c. now exists r.
Qed.

Lemma reads_nil (s : string) : reads [] s = true -> s = "".
Proof. destruct s; [reflexivity | discriminate]. Qed.

Ltac peel_reads H :=
  repeat first
    [ apply reads_digit in H;
      let v := fresh "v" in
      let t := fresh "t" in
      let L := fresh "L" in
      let D := fresh "D" in
      destruct H as (v & t & ? & -> & (L & D) & H)
    | apply reads_dash in H; destruct H as (? & -> & H) ];
  apply reads_nil in H; subst.

Lemma run_cat {R : Type} (r1 r2 : regex) (inp : string) (g : option string)
    (k : string -> option string -> option R) :
  run (r1 +> r2) inp g k = run r1 inp g (fun rest g' => run r2 rest g' k).
Proof. reflexivity. Qed.

Lemma run_group {R : Type} (r : regex) (inp : string) (g : option string)
    (k : string -> option string -> option R) :
  run (Group r) inp g k
  = run r inp g (fun rest _ => k rest (Some (consumed inp rest))).
Proof. reflexivity. Qed.

Lemma run_lit {R : Type} (s inp : string) (g : option string)
    (k : string -> option string -> option R) :
  run (Lit s) inp g k
  = match strip_prefix s inp with Some rest => k rest g | None => None end.
Proof. reflexivity. Qed.

(** The group of the pattern takes a timestamp text whole. *)
Lemma run_timestamp {R : Type} (ts after : string) (g : option string)
    (k : string -> option string -> option R) :
  decimal_timestamp ts = true ->
  run (times 2 Digit +> Lit "-" +> times 2 Digit +> Lit "-" +>
       times 4 Digit +> Lit "-" +> times 2 Digit +> Lit "-" +>
       times 2 Digit +> Lit "-" +> times 2 Digit) (ts ++ after) g k
  = k after g.
Proof.
  intros Hs. unfold decimal_timestamp, stamp_items in Hs. peel_reads Hs.
  repeat (rewrite append_assoc; simpl append).
  simpl times. cbn [run].
  repeat first [ rewrite L | rewrite L0 | rewrite L1 | rewrite L2 | rewrite L3
               | rewrite L4 | rewrite L5 | rewrite L6 | rewrite L7 | rewrite L8
               | rewrite L9 | rewrite L10 | rewrite L11 | rewrite L12
               | progress cbn [strip_prefix]
               | rewrite Ascii.eqb_refl ].
  reflexivity.
Qed.

Lemma pattern_takes_timestamp (issue_number : Z) (ts ext tail : string) :
  decimal_timestamp ts = true ->
  ext = ".htm" \/ ext = ".html" ->
  tail = "" \/ tail = nl ->
  re_match (pattern issue_number) (artifact_prefix issue_number ++ ts ++ ext ++ tail)
  = Some (Some ts).
Proof.
  intros Hs Hext Htail.
  unfold re_match, pattern. fold (artifact_prefix issue_number).
  rewrite run_cat, run_lit, strip_prefix_app, run_cat, run_group.
  rewrite (run_timestamp _ _ _ _ Hs), consumed_app.
  destruct Hext as [-> | ->], Htail as [-> | ->]; reflexivity.
Qed.


Lemma all_bytes_app (p : ascii -> bool) (a b : string) :
  all_bytes p (a ++ b) = all_bytes p a && all_bytes p b.
Proof.
  induction a as [|c a IH]; simpl; [reflexivity|].
  now rewrite IH, andb_assoc.
Qed.

Lemma shape_reads (items : list stamp_item) (s : string) :
  has_shape (map item_class items) s = true -> reads items s = true.
Proof.
  revert s. induction items as [|[|] items IH]; intros s H.
  - apply has_shape_nil in H. now subst.
  - apply has_shape_cons in H. destruct H as (c & r & -> & Hc & H).
    cbn [reads]. rewrite (take_decimal_digit c r Hc). now apply IH.
  - apply has_shape_cons in H. destruct H as (c & r & -> & Hc & H).
    cbn [reads]. change (Ascii.eqb c "-") with (item_class A_dash c).
    rewrite Hc. now apply IH.
Qed.

Lemma reads_shape (items : list stamp_item) (s : string) :
  reads items s = true -> all_bytes ascii_byte s = true ->
  has_shape (map item_class items) s = true.
Proof.
  revert s. induction items as [|[|] items IH]; intros s H Ha.
  - apply reads_nil in H. now subst.
  - apply reads_digit in H.
    destruct H as (v & t & r & -> & (_ & [(c & -> & Hc) | (c & t' & -> & Hh)]) & H).
    + simpl in Ha. apply andb_prop in Ha. simpl. rewrite Hc. now apply IH.
    + exfalso. simpl in Ha, Hh. unfold ascii_byte, high in Ha, Hh.
      apply andb_prop in Ha. apply andb_prop in Hh.
      destruct Ha as [Ha _], Hh as [Hh _].
      apply Z.ltb_lt in Ha. apply Z.leb_le in Hh. lia.
  - apply reads_dash in H. destruct H as (r & -> & H).
    simpl in Ha. simpl. now apply IH.
Qed.

(** A timestamp in ASCII digits is a timestamp of decimal digits, and a
    timestamp of decimal digits that is ASCII text is in ASCII digits. *)
Lemma shape_decimal (ts : string) :
  has_shape timestamp_classes ts = true -> decimal_timestamp ts = true.
Proof. apply (shape_reads stamp_items). Qed.

Lemma decimal_shape_ascii (ts : string) :
  decimal_timestamp ts = true -> all_bytes ascii_byte ts = true ->
  has_shape timestamp_classes ts = true.
Proof. apply (reads_shape stamp_items). Qed.

(** A name the pattern accepts is the prefix of the issue, a timestamp of
    decimal digits, [.htm] or [.html], and at most one newline. *)
Lemma pattern_match_sound (issue_number : Z) (filename : string) (g : option string) :
  re_match (pattern issue_number) filename = Some g ->
  exists ts ext tail,
    g = Some ts /\
    filename = (artifact_prefix issue_number ++ ts ++ ext ++ tail)%string /\
    (ext = ".htm" \/ ext = ".html") /\ (tail = "" \/ tail = nl) /\
    decimal_timestamp ts = true.
Proof.
  unfold re_match. intros H. apply run_sound in H.
  destruct H as (rest & g' & Hm & [= <-]).
  unfold pattern in Hm. simpl times in Hm.
  fold (artifact_prefix issue_number) in Hm. revert Hm.
  generalize (artifact_prefix issue_number). intros pre Hm.
  invert_matches.
  all: repeat match goal with
         | H : Unicode.take_decimal ?x = Some (_, _, _) |- _ =>
             apply take_decimal_inv in H;
             let E := fresh "E" in
             let L := fresh "L" in
             destruct H as (E & L & _); subst x
         end.
  all: simpl append.
  all: match goal with
       | |- context [consumed ?a ?b] =>
           match a with
           | context C [b] =>
               let ts := context C [EmptyString] in
               assert (E : a = (ts ++ b)%string)
                 by (repeat (rewrite append_assoc; simpl append); reflexivity);
               rewrite E, consumed_app; exists ts
           end
       end.
  all: first [ exists ".html", ""; split; [reflexivity|]; split; [reflexivity|]
             | exists ".htm", ""; split; [reflexivity|]; split; [reflexivity|]
             | exists ".html", nl; split; [reflexivity|]; split; [reflexivity|]
             | exists ".htm", nl; split; [reflexivity|]; split; [reflexivity|] ].
  all: split; [tauto|]; split; [tauto|].
  all: unfold decimal_timestamp, stamp_items; cbn [reads].
  all: repeat match goal with
         | L : forall rest', Unicode.take_decimal (?t ++ rest') = _
           |- context [Unicode.take_decimal (?t ++ _)] => rewrite L; cbn [reads]
         | |- context [Ascii.eqb ?c ?c] => rewrite Ascii.eqb_refl; cbn [andb]
         end.
  all: reflexivity.
Qed.

Lemma substring_suffix (a b : string) :
  substring (String.length a) (String.length (a ++ b) - String.length a) (a ++ b) = b.
Proof.
  induction a as [|c a IH]; simpl.
  - rewrite Nat.sub_0_r. clear. induction b as [|c b IH]; simpl; [reflexivity|].
    destruct b; simpl in *; now f_equal.
  - exact IH.
Qed.

(** A name made of the prefix of the issue, a timestamp in ASCII digits
    and one of the two extensions follows the convention. *)
Lemma artifact_timestamp_intro (issue_number : Z) (ts ext : string) :
  has_shape timestamp_classes ts = true ->
  ext = ".htm" \/ ext = ".html" ->
  artifact_timestamp issue_number (artifact_prefix issue_number ++ ts ++ ext)
  = Some ts.
Proof.
  intros Hs Hext. unfold artifact_timestamp. rewrite strip_prefix_app. cbv zeta.
  pose proof (has_shape_length _ _ Hs) as Hlen. simpl List.length in Hlen.
  rewrite <- Hlen, substring_prefix, substring_suffix, Hs.
  destruct Hext as [-> | ->]; reflexivity.
Qed.

(** A name that follows the convention is accepted by the pattern, and so
    is the name followed by one newline. *)
Lemma pattern_match_complete (issue_number : Z) (filename ts : string) :
  artifact_timestamp issue_number filename = Some ts ->
  re_match (pattern issue_number) filename = Some (Some ts) /\
  re_match (pattern issue_number) (filename ++ nl) = Some (Some ts).
Proof.
  intros H. apply artifact_timestamp_parts in H. destruct H as [Hs Hf].
  apply shape_decimal in Hs.
  assert (Hext : exists ext, (ext = ".htm" \/ ext = ".html") /\
                   filename = (artifact_prefix issue_number ++ ts ++ ext)%string)
    by (destruct Hf as [-> | ->];
        [exists ".htm" | exists ".html"]; split; auto).
  destruct Hext as (ext & Hext & ->). split.
  - rewrite <- (pattern_takes_timestamp issue_number ts ext "" Hs Hext (or_introl eq_refl)).
    now rewrite append_nil_r.
  - rewrite <- (pattern_takes_timestamp issue_number ts ext nl Hs Hext (or_intror eq_refl)).
    now rewrite !append_assoc.
Qed.

Lemma all_bytes_impl (p q : ascii -> bool) (s : string) :
  (forall c, p c = true -> q c = true) ->
  all_bytes p s = true -> all_bytes q s = true.
Proof.
  intros Hpq. induction s as [|c s IH]; simpl; [reflexivity|].
  intros H. apply andb_prop in H. destruct H as [Hc Hs].
  now rewrite (Hpq c Hc), IH.
Qed.

Lemma printable_ascii (c : ascii) : Unicode.between 32 126 c = true -> ascii_byte c = true.
Proof.
  unfold Unicode.between, ascii_byte. intros H. apply andb_prop in H.
  rewrite !Z.leb_le in H. apply Z.ltb_lt. lia.
Qed.

(** Among names in printable ASCII the pattern accepts the names of the
    convention only. *)
Lemma plain_accepted (issue_number : Z) (filename : string) (g : option string) :
  plain_name filename = true ->
  re_match (pattern issue_number) filename = Some g ->
  exists ts, g = Some ts /\ artifact_timestamp issue_number filename = Some ts.
Proof.
  intros Hp H. apply pattern_match_sound in H.
  destruct H as (ts & ext & tail & -> & -> & Hext & Htail & Hs).
  exists ts. split; [reflexivity|].
  unfold plain_name in Hp. rewrite !all_bytes_app in Hp.
  apply andb_prop in Hp. destruct Hp as [_ Hp].
  apply andb_prop in Hp. destruct Hp as [Hts Hp].
  apply andb_prop in Hp. destruct Hp as [_ Htl].
  destruct Htail as [-> | ->]; [|discriminate Htl].
  rewrite append_nil_r. apply artifact_timestamp_intro; [|assumption].
  apply decimal_shape_ascii; [assumption|].
  revert Hts. apply all_bytes_impl. exact printable_ascii.
Qed.

(** ** The scan of the directory listing *)

Lemma scan_entry_eq (issue_number : Z) (output_dir filename : string)
    (acc : list (string * Datetime.datetime)) :
  scan_entry issue_number output_dir filename acc
  = ret (acc ++ entry issue_number output_dir filename)%list.
Proof.
  unfold scan_entry, entry, entry_timestamp.
  destruct (re_match (pattern issue_number) filename) as [g|] eqn:E.
  - destruct (pattern_match_sound _ _ _ E) as (ts & ext & tail & -> & _).
    destruct (Datetime.strptime ts timestamp_format).
    + reflexivity.
    + now rewrite app_nil_r.
  - now rewrite app_nil_r.
Qed.

Lemma scan_eq (issue_number : Z) (output_dir : string) (names : list string) :
  forall acc,
    for_each names (scan_entry issue_number output_dir) acc
    = ret (acc ++ candidates issue_number output_dir names)%list.
Proof.
  induction names as [|f names IH]; intros acc; simpl.
  - now rewrite app_nil_r.
  - rewrite scan_entry_eq, bind_ret, IH, <- app_assoc. reflexivity.
Qed.

Lemma find_latest_absent (w : world) (issue_number : Z) (output_dir : string) :
  path_exists w output_dir = false ->
  find_latest_test_result w issue_number output_dir
  = ([Stdout ("Warning: " ++ output_dir ++ " directory not found.")], Returned None).
Proof. unfold find_latest_test_result. intros ->. reflexivity. Qed.

Lemma find_latest_listed (w : world) (issue_number : Z) (output_dir : string)
    (names : list string) :
  path_exists w output_dir = true ->
  listdir w output_dir = inr names ->
  find_latest_test_result w issue_number output_dir
  = select issue_number (candidates issue_number output_dir names).
Proof.
  unfold find_latest_test_result, os_listdir, select. intros -> ->. simpl negb. cbv iota.
  rewrite bind_ret, scan_eq, bind_ret. simpl app.
  destruct (candidates issue_number output_dir names) as [|c cs].
  - reflexivity.
  - destruct (list_sort snd Datetime.ltb true (c :: cs)) as [|[p t] rest]; reflexivity.
Qed.

Lemma find_latest_unlistable (w : world) (issue_number : Z) (output_dir : string)
    (e : exn) :
  path_exists w output_dir = true ->
  listdir w output_dir = inl e ->
  find_latest_test_result w issue_number output_dir = ([], Raised e).
Proof.
  unfold find_latest_test_result, os_listdir. intros -> ->. reflexivity.
Qed.

Lemma candidates_app (issue_number : Z) (output_dir : string) (l1 l2 : list string) :
  candidates issue_number output_dir (l1 ++ l2)
  = (candidates issue_number output_dir l1 ++ candidates issue_number output_dir l2)%list.
Proof. apply flat_map_app. Qed.

Lemma candidates_In (issue_number : Z) (output_dir : string) (names : list string)
    (c : string * Datetime.datetime) :
  In c (candidates issue_number output_dir names) <->
  exists f, In f names /\ entry_timestamp issue_number f = Some (snd c) /\
            fst c = OsPath.join output_dir f.
Proof.
  unfold candidates. rewrite in_flat_map. unfold entry.
  split; intros (f & Hf & H); exists f; (split; [assumption|]).
  - destruct (entry_timestamp issue_number f) as [t|]; simpl in H; [|contradiction].
    destruct H as [<-|[]]. now split.
  - destruct H as [-> H]. destruct c as [p t]. simpl in *. subst. now left.
Qed.

(** The selection returns the first listed name among those with the
    latest timestamp. *)
Lemma find_latest_first_max (w : world) (issue_number : Z) (output_dir : string)
    (l1 l2 : list string) (f : string) (t : Datetime.datetime) :
  path_exists w output_dir = true ->
  listdir w output_dir = inr (l1 ++ f :: l2)%list ->
  entry_timestamp issue_number f = Some t ->
  (forall g t', In g l1 -> entry_timestamp issue_number g = Some t' ->
                Datetime.ltb t' t = true) ->
  (forall g t', In g l2 -> entry_timestamp issue_number g = Some t' ->
                Datetime.ltb t t' = false) ->
  find_latest_test_result w issue_number output_dir
  = ([], Returned (Some (OsPath.join output_dir f))).
Proof.
  intros He Hl Hf H1 H2.
  rewrite (find_latest_listed _ _ _ _ He Hl).
  rewrite candidates_app. simpl. unfold candidates at 2. simpl flat_map.
  unfold entry at 1. rewrite Hf. simpl app.
  fold (candidates issue_number output_dir l2).
  destruct (list_sort_reverse_head snd Datetime.ltb
              (candidates issue_number output_dir l1)
              (candidates issue_number output_dir l2)
              (OsPath.join output_dir f, t)) as [rest Hsort].
  - intros c Hc. apply candidates_In in Hc. destruct Hc as (g & Hg & Ht & _).
    simpl. now apply (H1 g).
  - intros c Hc. apply candidates_In in Hc. destruct Hc as (g & Hg & Ht & _).
    simpl. now apply (H2 g).
  - unfold select. rewrite Hsort.
    destruct (candidates issue_number output_dir l1); reflexivity.
Qed.

Lemma in_split_first (x : string) (l : list string) :
  In x l -> exists l1 l2, l = (l1 ++ x :: l2)%list /\ ~ In x l1.
Proof.
  induction l as [|y l IH]; intros H.
  - contradiction.
  - destruct (string_dec y x) as [->|Hne].
    + exists [], l. split; [reflexivity | intros []].
    + destruct H as [->|H]; [contradiction|].
      destruct (IH H) as (l1 & l2 & -> & Hn).
      exists (y :: l1), l2. split; [reflexivity|].
      intros [->|Hin]; contradiction.
Qed.

(** ** The newest artifact is selected *)

(** C1.  When the names of the directory that the scan accepts for the
    issue carry pairwise distinct timestamps, [find_latest_test_result]
    returns the path of the name whose parsed timestamp is the latest,
    and prints nothing. *)
Theorem find_latest_selects_newest
    (w : world) (issue_number : Z) (output_dir : string) (names : list string)
    (f : string) (t : Datetime.datetime) :
  path_exists w output_dir = true ->
  listdir w output_dir = inr names ->
  (forall g h t', In g names -> In h names ->
                  entry_timestamp issue_number g = Some t' ->
                  entry_timestamp issue_number h = Some t' -> g = h) ->
  In f names ->
  entry_timestamp issue_number f = Some t ->
  (forall g t', In g names -> entry_timestamp issue_number g = Some t' ->
                Datetime.ltb t t' = false) ->
  find_latest_test_result w issue_number output_dir
  = ([], Returned (Some (OsPath.join output_dir f))).
Proof.
  intros He Hl Hdistinct Hin Hf Hmax.
  destruct (in_split_first f names Hin) as (l1 & l2 & -> & Hfirst).
  apply (find_latest_first_max w issue_number output_dir l1 l2 f t He Hl Hf).
  - intros g t' Hg Hg'.
    assert (Hgin : In g (l1 ++ f :: l2)) by (apply in_or_app; now left).
    apply datetime_ltb_total.
    + intros ->. apply Hfirst.
      now rewrite <- (Hdistinct g f t Hgin Hin Hg' Hf).
    + now apply (Hmax g).
  - intros g t' Hg Hg'. apply (Hmax g); [|assumption].
    apply in_or_app. right. now right.
Qed.

(** The example of the specification: of the artifacts of 2 January 10:00
    and 3 January 09:00 the second is selected. *)
Lemma find_latest_selects_newest_example :
  find_latest_test_result
    (world_with_listing "TestOutputs"
       ["Test-Results-GH32-01-02-2024-10-00-00.html";
        "Test-Results-GH32-01-03-2024-09-00-00.html"])
    32 "TestOutputs"
  = ([], Returned (Some "TestOutputs/Test-Results-GH32-01-03-2024-09-00-00.html")).
Proof.
  apply (find_latest_selects_newest _ 32 "TestOutputs"
           ["Test-Results-GH32-01-02-2024-10-00-00.html";
            "Test-Results-GH32-01-03-2024-09-00-00.html"]
           "Test-Results-GH32-01-03-2024-09-00-00.html"
           (Datetime.mk_datetime 2024 1 3 9 0 0 0)).
  - reflexivity.
  - reflexivity.
  - intros g h t' [<-|[<-|[]]] [<-|[<-|[]]]; vm_compute; intros [= <-];
      try reflexivity; discriminate.
  - right. now left.
  - reflexivity.
  - intros g t' [<-|[<-|[]]]; vm_compute; intros [= <-]; reflexivity.
Defined.

(** ** Ties *)

Section Stability.
Context {A K : Type}.
Variable key : A -> K.
Variable lt : K -> K -> bool.
(** [same a k]: the key [a] is the key [k]. *)
Variable same : K -> K -> bool.
Hypothesis same_not_lt :
  forall a b k, same a k = true -> same b k = true -> lt a b = false.

Lemma insert_filter (k : K) (x : A) (l : list A) :
  filter (fun y => same (key y) k) (insert key lt x l)
  = filter (fun y => same (key y) k) (x :: l).
Proof.
  induction l as [|y l IH]; [reflexivity|].
  simpl insert. destruct (lt (key y) (key x)) eqn:E; [|reflexivity].
  simpl filter in *. rewrite IH.
  destruct (same (key y) k) eqn:Ey, (same (key x) k) eqn:Ex; try reflexivity.
  rewrite (same_not_lt _ _ k Ey Ex) in E. discriminate.
Qed.

Lemma stable_sort_filter (k : K) (l : list A) :
  filter (fun y => same (key y) k) (stable_sort key lt l)
  = filter (fun y => same (key y) k) l.
Proof.
  induction l as [|x l IH]; [reflexivity|].
  simpl stable_sort. rewrite insert_filter. simpl. now rewrite IH.
Qed.

(** The elements of one key come out of [list.sort] in the order in
    which they went in, with and without [reverse]. *)
Lemma list_sort_stable (reverse : bool) (k : K) (l : list A) :
  filter (fun y => same (key y) k) (list_sort key lt reverse l)
  = filter (fun y => same (key y) k) l.
Proof.
  unfold list_sort. destruct reverse.
  - now rewrite filter_rev, stable_sort_filter, filter_rev, rev_involutive.
  - apply stable_sort_filter.
Qed.

End Stability.

Lemma datetime_eqb_not_ltb (a b k : Datetime.datetime) :
  datetime_eqb a k = true -> datetime_eqb b k = true -> Datetime.ltb a b = false.
Proof.
  unfold datetime_eqb. intros Ha Hb.
  destruct (Datetime.cmp a k) eqn:Ea; try discriminate.
  destruct (Datetime.cmp b k) eqn:Eb; try discriminate.
  apply datetime_cmp_eq in Ea, Eb. subst. apply datetime_ltb_irrefl.
Qed.

(** C9.  The sort of [matching_files] keeps entries of one timestamp in
    the order of the listing, and when several accepted names share the
    latest timestamp, [find_latest_test_result] returns the one listed
    first. *)
Theorem find_latest_tie_first_listed :
  (forall (t : Datetime.datetime) (matching_files : list (string * Datetime.datetime)),
      filter (fun c => datetime_eqb (snd c) t)
             (list_sort snd Datetime.ltb true matching_files)
      = filter (fun c => datetime_eqb (snd c) t) matching_files) /\
  (forall (w : world) (issue_number : Z) (output_dir : string)
          (l1 l2 : list string) (f : string) (t : Datetime.datetime),
      path_exists w output_dir = true ->
      listdir w output_dir = inr (l1 ++ f :: l2)%list ->
      entry_timestamp issue_number f = Some t ->
      (forall g t', In g (l1 ++ f :: l2) ->
                    entry_timestamp issue_number g = Some t' ->
                    Datetime.ltb t t' = false) ->
      (forall g, In g l1 -> entry_timestamp issue_number g <> Some t) ->
      find_latest_test_result w issue_number output_dir
      = ([], Returned (Some (OsPath.join output_dir f)))).
Proof.
  split.
  - intros t matching_files.
    apply (list_sort_stable snd Datetime.ltb datetime_eqb datetime_eqb_not_ltb).
  - intros w issue_number output_dir l1 l2 f t He Hl Hf Hmax Hfirst.
    apply (find_latest_first_max w issue_number output_dir l1 l2 f t He Hl Hf).
    + intros g t' Hg Hg'. apply datetime_ltb_total.
      * intros ->. now apply (Hfirst g).
      * apply (Hmax g); [|assumption]. apply in_or_app. now left.
    + intros g t' Hg Hg'. apply (Hmax g); [|assumption].
      apply in_or_app. right. now right.
Qed.

(** Two artifacts of the same second, a [.htm] and a [.html]: the one the
    directory lists first is returned, whichever it is. *)
Lemma find_latest_tie_example :
  find_latest_test_result
    (world_with_listing "TestOutputs"
       ["Test-Results-GH32-01-02-2024-10-00-00.html";
        "Test-Results-GH32-01-03-2024-09-00-00.htm";
        "Test-Results-GH32-01-03-2024-09-00-00.html"])
    32 "TestOutputs"
  = ([], Returned (Some "TestOutputs/Test-Results-GH32-01-03-2024-09-00-00.htm")) /\
  find_latest_test_result
    (world_with_listing "TestOutputs"
       ["Test-Results-GH32-01-03-2024-09-00-00.html";
        "Test-Results-GH32-01-03-2024-09-00-00.htm"])
    32 "TestOutputs"
  = ([], Returned (Some "TestOutputs/Test-Results-GH32-01-03-2024-09-00-00.html")).
Proof.
  split.
  - apply (proj2 find_latest_tie_first_listed _ 32 "TestOutputs"
             ["Test-Results-GH32-01-02-2024-10-00-00.html"]
             ["Test-Results-GH32-01-03-2024-09-00-00.html"]
             "Test-Results-GH32-01-03-2024-09-00-00.htm"
             (Datetime.mk_datetime 2024 1 3 9 0 0 0)).
    + reflexivity.
    + reflexivity.
    + reflexivity.
    + intros g t' [<-|[<-|[<-|[]]]]; vm_compute; intros [= <-]; reflexivity.
    + intros g [<-|[]]; vm_compute; discriminate.
  - apply (proj2 find_latest_tie_first_listed _ 32 "TestOutputs"
             []
             ["Test-Results-GH32-01-03-2024-09-00-00.htm"]
             "Test-Results-GH32-01-03-2024-09-00-00.html"
             (Datetime.mk_datetime 2024 1 3 9 0 0 0)).
    + reflexivity.
    + reflexivity.
    + reflexivity.
    + intros g t' [<-|[<-|[]]]; vm_compute; intros [= <-]; reflexivity.
    + intros g [].
Defined.

(** ** What is returned was listed *)

Lemma accepted_name_relative (issue_number : Z) (filename : string) (g : option string) :
  re_match (pattern issue_number) filename = Some g ->
  strip_prefix "/" filename = None.
Proof.
  intros H. apply pattern_match_sound in H.
  destruct H as (ts & ext & tail & _ & -> & _). reflexivity.
Qed.

Lemma join_relative (dir filename : string) :
  strip_prefix "/" filename = None ->
  exists sep, (sep = "" \/ sep = "/") /\
              OsPath.join dir filename = (dir ++ sep ++ filename)%string.
Proof.
  intros H. unfold OsPath.join. rewrite H.
  destruct dir as [|c dir].
  - exists "". split; [now left | reflexivity].
  - destruct (OsPath.ends_with_sep (String c dir)).
    + exists "". split; [now left | reflexivity].
    + exists "/". split; [now right | reflexivity].
Qed.



(** ** Nothing found *)



Lemma select_never_raises (issue_number : Z)
    (matching_files : list (string * Datetime.datetime)) :
  exists out r, select issue_number matching_files = (out, Returned r).
Proof.
  unfold select. destruct matching_files as [|c cs]; [now eexists; eexists|].
  destruct (list_sort snd Datetime.ltb true (c :: cs)) as [|[p t] rest] eqn:Hs.
  - exfalso. assert (H : In c (list_sort snd Datetime.ltb true (c :: cs))).
    { apply list_sort_In. now left. }
    rewrite Hs in H. contradiction.
  - now eexists; eexists.
Qed.



(** ** Which names the scan can see *)

Lemma string_of_uint_digits (d : Decimal.uint) :
  all_digits (DecimalString.NilEmpty.string_of_uint d) = true.
Proof. induction d; simpl; auto. Qed.

(** [str(n)] is an optional minus sign and at least one digit. *)
Lemma str_int_shape (n : Z) :
  exists sign c ds,
    str_int n = (sign ++ String c ds)%string /\ (sign = "" \/ sign = "-") /\
    is_digit c = true /\ all_digits ds = true.
Proof.
  unfold str_int.
  assert (U : forall d, exists c ds,
               DecimalString.NilZero.string_of_uint d = String c ds /\
               is_digit c = true /\ all_digits ds = true).
  { intros d. pose proof (string_of_uint_digits d) as H.
    destruct d; simpl in *; eauto;
      eexists; eexists; (split; [reflexivity|]); split; auto. }
  destruct (Z.to_int n) as [d|d]; simpl;
    destruct (U d) as (c & ds & -> & Hc & Hds).
  - exists "", c, ds. auto.
  - exists "-", c, ds. auto.
Qed.

Lemma str_int_inj (n m : Z) : str_int n = str_int m -> n = m.
Proof.
  unfold str_int. intros H. apply DecimalZ.to_int_inj.
  assert (N : forall z, Z.to_int z <> Decimal.Pos Decimal.Nil /\
                        Z.to_int z <> Decimal.Neg Decimal.Nil).
  { intros [|p|p]; simpl; split; try discriminate;
      intros [= E]; now apply (DecimalPos.Unsigned.to_uint_nonnil p). }
  pose proof (DecimalString.NilZero.isi _ (proj1 (N n)) (proj2 (N n))) as Hn.
  pose proof (DecimalString.NilZero.isi _ (proj1 (N m)) (proj2 (N m))) as Hm.
  rewrite H in Hn. rewrite Hn in Hm. now injection Hm.
Qed.

(** Two runs of digits that are each followed by a dash, at the front of
    the same text, are the same run. *)
Lemma digits_dash_unique (a b r1 r2 : string) :
  all_digits a = true -> all_digits b = true ->
  (a ++ String "-" r1 = b ++ String "-" r2)%string -> a = b.
Proof.
  revert b. induction a as [|c a IH]; intros [|c' b]; simpl; intros Ha Hb H.
  - reflexivity.
  - injection H as <- _. discriminate.
  - injection H as -> _. discriminate.
  - injection H as <- H.
    apply andb_prop in Ha, Hb. f_equal. now apply IH.
Qed.

Lemma int_dash_unique (n m : Z) (r1 r2 : string) :
  (str_int n ++ "-" ++ r1 = str_int m ++ "-" ++ r2)%string -> n = m.
Proof.
  intros H. apply str_int_inj.
  destruct (str_int_shape n) as (s1 & c1 & d1 & E1 & S1 & C1 & D1).
  destruct (str_int_shape m) as (s2 & c2 & d2 & E2 & S2 & C2 & D2).
  rewrite E1, E2 in *.
  assert (A1 : all_digits (String c1 d1) = true) by (simpl; now rewrite C1).
  assert (A2 : all_digits (String c2 d2) = true) by (simpl; now rewrite C2).
  destruct S1 as [-> | ->], S2 as [-> | ->]; simpl in H |- *.
  - now apply (digits_dash_unique (String c1 d1) (String c2 d2) r1 r2).
  - injection H as -> _. discriminate.
  - injection H as <- _. discriminate.
  - injection H as Hc Hr. subst c2. do 2 f_equal.
    now apply (digits_dash_unique d1 d2 r1 r2).
Qed.

Lemma append_cancel_l (p a b : string) : (p ++ a = p ++ b)%string -> a = b.
Proof. induction p as [|c p IH]; simpl; [auto | intros [= H]; auto]. Qed.

(** The name of an artifact of one issue is rejected by the pattern of
    every other issue. *)
Lemma other_issue_rejected (n m : Z) (filename ts : string) :
  n <> m ->
  artifact_timestamp m filename = Some ts ->
  re_match (pattern n) filename = None.
Proof.
  intros Hne Hm.
  destruct (re_match (pattern n) filename) as [g|] eqn:E; [|reflexivity].
  exfalso. apply Hne.
  apply artifact_timestamp_parts in Hm. destruct Hm as [_ Hm].
  apply pattern_match_sound in E. destruct E as (ts' & ext & tail & _ & E & _).
  assert (H : exists r1 r2,
             (artifact_prefix n ++ r1 = artifact_prefix m ++ r2)%string)
    by (destruct Hm as [Hm|Hm]; rewrite E in Hm; eauto).
  destruct H as (r1 & r2 & H). unfold artifact_prefix in H.
  rewrite !append_assoc in H. apply append_cancel_l in H.
  now apply int_dash_unique in H.
Qed.

Lemma candidates_filter (issue_number : Z) (output_dir : string) (names : list string) :
  candidates issue_number output_dir (filter (accepted issue_number) names)
  = candidates issue_number output_dir names.
Proof.
  induction names as [|f names IH]; [reflexivity|].
  simpl filter. unfold accepted at 1.
  destruct (re_match (pattern issue_number) f) as [g|] eqn:E.
  - unfold candidates in *. simpl. now rewrite IH.
  - unfold candidates in *. simpl. rewrite IH.
    unfold entry at 2, entry_timestamp. now rewrite E.
Qed.

(** Names that the pattern rejects, such as every name of the convention
    for another issue, change nothing: two listings with the same
    accepted names, in the same order, give the same answer and output. *)
Lemma rejected_names_are_ignored (w w' : world) (issue_number : Z)
    (output_dir : string) (names names' : list string) :
  path_exists w output_dir = true ->
  path_exists w' output_dir = true ->
  listdir w output_dir = inr names ->
  listdir w' output_dir = inr names' ->
  filter (accepted issue_number) names = filter (accepted issue_number) names' ->
  find_latest_test_result w issue_number output_dir
  = find_latest_test_result w' issue_number output_dir.
Proof.
  intros He He' Hl Hl' Hf.
  rewrite (find_latest_listed _ _ _ _ He Hl), (find_latest_listed _ _ _ _ He' Hl').
  now rewrite <- (candidates_filter _ _ names), <- (candidates_filter _ _ names'), Hf.
Qed.

(** ** Names outside the convention *)

(** C2, at a name that does not follow the convention.  [newline_name]
    is not of the form [Test-Results-GH32-<timestamp>.htm[l]], yet its
    presence changes what is selected for issue 32: alone it is found
    where nothing should be, and beside an artifact of the day before it
    is preferred to it. *)
Theorem trailing_newline_name_is_selected :
  artifact_timestamp 32 newline_name = None /\
  find_latest_test_result (world_with_listing "TestOutputs" []) 32 "TestOutputs"
  = ([Stdout "Warning: No test result files found for issue #32"], Returned None) /\
  find_latest_test_result (world_with_listing "TestOutputs" [newline_name])
    32 "TestOutputs"
  = ([], Returned (Some ("TestOutputs/" ++ newline_name))) /\
  find_latest_test_result
    (world_with_listing "TestOutputs"
       ["Test-Results-GH32-01-02-2024-10-00-00.html"])
    32 "TestOutputs"
  = ([], Returned (Some "TestOutputs/Test-Results-GH32-01-02-2024-10-00-00.html")) /\
  find_latest_test_result
    (world_with_listing "TestOutputs"
       ["Test-Results-GH32-01-02-2024-10-00-00.html"; newline_name])
    32 "TestOutputs"
  = ([], Returned (Some ("TestOutputs/" ++ newline_name))).
Proof. repeat split; vm_compute; reflexivity. Qed.

(* ------------------------------------------------------------------ *)
(** ** The issue lister *)

Lemma str_in_In (x : string) (l : list string) :
  GetIssues.str_in x l = true <-> In x l.
Proof.
  unfold GetIssues.str_in. rewrite existsb_exists. split.
  - intros (y & Hy & E). apply String.eqb_eq in E. now subst.
  - intros H. exists x. split; [assumption | apply String.eqb_refl].
Qed.

Lemma intersects_allow_setb_spec (i : GetIssues.issue) :
  intersects_allow_setb i = true <-> intersects_allow_set i.
Proof.
  unfold intersects_allow_setb, intersects_allow_set. rewrite existsb_exists.
  split; intros (l & Hl & H); exists l; (split; [assumption|]); now apply str_in_In.
Qed.

(** The test of the loop is the intersection with the allow-set. *)
Lemma loop_test_intersects (i : GetIssues.issue) :
  GetIssues.str_in "in-progress" (label_names i) || GetIssues.str_in "ready" (label_names i)
  = intersects_allow_setb i.
Proof.
  apply Bool.eq_iff_eq_true.
  rewrite orb_true_iff, !str_in_In, intersects_allow_setb_spec.
  unfold intersects_allow_set, allow_set. split.
  - intros [H|H]; eexists; (split; [exact H|]); simpl; auto.
  - intros (l & Hl & [<-|[<-|[]]]); auto.
Qed.

Lemma report_eq (i : GetIssues.issue) :
  GetIssues.report i
  = ((if intersects_allow_setb i then [listing_line i] else []), Returned tt).
Proof.
  unfold GetIssues.report. fold (label_names i). rewrite loop_test_intersects.
  destruct (intersects_allow_setb i); reflexivity.
Qed.

Lemma lister_loop_eq (issues : list GetIssues.issue) :
  for_each issues (fun i _ => GetIssues.report i) tt
  = (map listing_line (filter intersects_allow_setb issues), Returned tt).
Proof.
  induction issues as [|i issues IH]; [reflexivity|].
  simpl. rewrite report_eq.
  destruct (intersects_allow_setb i); unfold bind; rewrite IH; reflexivity.
Qed.

(** C4.  The lister prints the line of an issue exactly when the labels of
    the issue meet the allow-set; the output for a list of open issues is,
    in order, the lines of the issues that do; the line holds the
    identifier, the title and the labels joined by commas.  An issue
    labelled only [blocked] is left out, one labelled [ready] and
    [blocked] is printed. *)
Theorem lister_prints_allowed_issues :
  (forall i,
      (intersects_allow_set i ->
       GetIssues.report i = ([listing_line i], Returned tt)) /\
      (~ intersects_allow_set i -> GetIssues.report i = ([], Returned tt))) /\
  (forall json_loads w stdout stderr issues,
      subprocess_run w GetIssues.gh_issue_list = Completed 0 stdout stderr ->
      json_loads stdout = Some issues ->
      GetIssues.script json_loads w
      = (map listing_line (filter intersects_allow_setb issues), Returned tt)) /\
  (forall n t,
      GetIssues.report
        {| GetIssues.number := n; GetIssues.title := t;
           GetIssues.labels := [{| label_name := "blocked" |}] |}
      = ([], Returned tt)) /\
  (forall n t,
      GetIssues.report
        {| GetIssues.number := n; GetIssues.title := t;
           GetIssues.labels := [{| label_name := "ready" |};
                                {| label_name := "blocked" |}] |}
      = ([Stdout (str_int n ++ ": " ++ t ++ " - Labels: ready,blocked")],
         Returned tt)).
Proof.
  repeat split.
  - intros H. apply intersects_allow_setb_spec in H.
    now rewrite report_eq, H.
  - intros H. rewrite report_eq.
    destruct (intersects_allow_setb i) eqn:E; [|reflexivity].
    exfalso. apply H. now apply intersects_allow_setb_spec.
  - intros json_loads w stdout stderr issues Hrun Hjson.
    unfold GetIssues.script, run_checked. rewrite Hrun.
    change (0 =? 0) with true. cbv iota.
    rewrite bind_ret, Hjson, bind_ret, lister_loop_eq. reflexivity.
Qed.

Lemma lister_prints_allowed_issues_example :
  GetIssues.script (fun _ => Some listed_issues) lister_world
  = ([Stdout "7: Rotate logs - Labels: ready,blocked";
      Stdout "9: Sink filters - Labels: in-progress"], Returned tt).
Proof.
  apply (proj1 (proj2 lister_prints_allowed_issues)
           (fun _ => Some listed_issues) lister_world "[...]" "" listed_issues).
  - reflexivity.
  - reflexivity.
Defined.

(* ------------------------------------------------------------------ *)
(** ** The rendered notification *)

(** C7.  For an issue without labels and without assignees the document
    is the literal text of the template around the identifier, the title,
    the state, the two timestamps, the body and the link target, and no
    piece of that literal text contains [Labels:] or [Assignees:]. *)
Theorem html_without_labels_and_assignees (i : issue) :
  get_default (labels i) [] = [] ->
  get_default (assignees i) [] = [] ->
  format_issue_html i
  = (html_head ++ str_int (number i) ++ html_after_number ++ title i ++
     html_after_title ++ state i ++ html_between_state_and_created ++
     createdAt i ++ html_after_created ++ updatedAt i ++ html_after_updated ++
     get_default (body i) "No description provided." ++ html_after_body ++
     url i ++ html_tail)%string /\
  Forall (fun piece => contains "Labels:" piece = false /\
                       contains "Assignees:" piece = false) html_literals.
Proof.
  intros Hl Ha. split.
  - unfold format_issue_html, html_between_state_and_created.
    rewrite Hl, Ha. simpl join. simpl nonempty. cbv iota.
    rewrite !append_assoc. reflexivity.
  - unfold html_literals. repeat constructor; vm_compute; reflexivity.
Qed.

Lemma html_without_labels_and_assignees_example :
  contains "Labels:" (format_issue_html bare_issue) = false /\
  contains "Assignees:" (format_issue_html bare_issue) = false /\
  format_issue_html bare_issue
  = (html_head ++ "32" ++ html_after_number ++ "Rotate logs" ++
     html_after_title ++ "OPEN" ++ html_between_state_and_created ++
     "2024-01-02T10:00:00Z" ++ html_after_created ++ "2024-01-03T09:00:00Z" ++
     html_after_updated ++ "Logs grow without bound." ++ html_after_body ++
     "https://github.com/irsiksoftware/LogSmith/issues/32" ++ html_tail)%string.
Proof.
  split; [vm_compute; reflexivity|]. split; [vm_compute; reflexivity|].
  apply (proj1 (html_without_labels_and_assignees bare_issue eq_refl eq_refl)).
Defined.

Lemma occurs_in_between (a p x q b left right : string) :
  occurs_in (p ++ x ++ q) (left ++ (a ++ p) ++ x ++ (q ++ b) ++ right).
Proof.
  exists (left ++ a)%string, (b ++ right)%string.
  now rewrite !append_assoc.
Qed.

(** A literal piece as what precedes its ending [p], then [p]. *)
Ltac split_end c p :=
  replace c with (substring 0 (String.length c - String.length p) c ++ p)%string
    by (vm_compute; reflexivity).

(** A literal piece as its beginning [q], then what follows. *)
Ltac split_start c q :=
  replace c
    with (q ++ substring (String.length q) (String.length c - String.length q) c)%string
    by (vm_compute; reflexivity).

(** The document with its conditional lines named. *)
Lemma format_issue_html_eq (i : issue) :
  exists optional_lines,
    format_issue_html i
    = (html_head ++ str_int (number i) ++ html_after_number ++ title i ++
       html_after_title ++ state i ++ optional_lines ++ html_after_assignees ++
       createdAt i ++ html_after_created ++ updatedAt i ++ html_after_updated ++
       body_text i ++ html_after_body ++ url i ++ html_tail)%string.
Proof.
  unfold format_issue_html, body_text.
  set (l := if nonempty _ then labels_line _ else ""%string).
  set (a := if nonempty (join ", " (map login _)) then assignees_line _ else ""%string).
  exists (html_after_state ++ l ++ html_after_labels ++ a)%string.
  now rewrite !append_assoc.
Qed.

(** C8.  The document holds, character for character, the heading with
    the identifier and the title, the state, the two timestamps, the body
    between [<pre>] and [</pre>], and the link to the url of the issue;
    the body shown is the body of the record whenever it has one. *)
Theorem html_embeds_issue_verbatim (i : issue) :
  let html := format_issue_html i in
  occurs_in ("<h2>Issue #" ++ str_int (number i) ++ ": " ++ title i ++ "</h2>") html /\
  occurs_in ("Status:</span> " ++ state i) html /\
  occurs_in ("Created:</span> " ++ createdAt i) html /\
  occurs_in ("Updated:</span> " ++ updatedAt i) html /\
  occurs_in ("<pre>" ++ body_text i ++ "</pre>") html /\
  occurs_in ("<a href=" ++ dq ++ url i ++ dq ++ " class=" ++ dq ++ "link" ++ dq ++
             ">View Issue on GitHub</a>") html /\
  (forall b, body i = Some b -> body_text i = b).
Proof.
  intros html. subst html.
  destruct (format_issue_html_eq i) as [opt ->].
  repeat split.
  - split_end html_head "<h2>Issue #". split_start html_after_title "</h2>".
    unfold html_after_number.
    set (a := substring _ _ html_head).
    exists a. eexists. rewrite !append_assoc. reflexivity.
  - split_end html_after_title "Status:</span> ".
    set (a := substring _ _ html_after_title).
    exists (html_head ++ str_int (number i) ++ html_after_number ++ title i ++ a)%string.
    eexists. rewrite !append_assoc. reflexivity.
  - split_end html_after_assignees "Created:</span> ".
    set (a := substring _ _ html_after_assignees).
    exists (html_head ++ str_int (number i) ++ html_after_number ++ title i ++
            html_after_title ++ state i ++ opt ++ a)%string.
    eexists. rewrite !append_assoc. reflexivity.
  - split_end html_after_created "Updated:</span> ".
    set (a := substring _ _ html_after_created).
    exists (html_head ++ str_int (number i) ++ html_after_number ++ title i ++
            html_after_title ++ state i ++ opt ++ html_after_assignees ++ createdAt i ++ a)%string.
    eexists. rewrite !append_assoc. reflexivity.
  - split_end html_after_updated "<pre>". split_start html_after_body "</pre>".
    set (a := substring _ _ html_after_updated).
    exists (html_head ++ str_int (number i) ++ html_after_number ++ title i ++
            html_after_title ++ state i ++ opt ++ html_after_assignees ++ createdAt i ++
            html_after_created ++ updatedAt i ++ a)%string.
    eexists. rewrite !append_assoc. reflexivity.
  - split_end html_after_body ("<a href=" ++ dq)%string.
    split_start html_tail (dq ++ " class=" ++ dq ++ "link" ++ dq ++
                           ">View Issue on GitHub</a>")%string.
    set (a := substring _ _ html_after_body).
    exists (html_head ++ str_int (number i) ++ html_after_number ++ title i ++
            html_after_title ++ state i ++ opt ++ html_after_assignees ++ createdAt i ++
            html_after_created ++ updatedAt i ++ html_after_updated ++
            body_text i ++ a)%string.
    eexists. rewrite !append_assoc. reflexivity.
  - intros b Hb. unfold body_text. now rewrite Hb.
Qed.

Lemma html_embeds_issue_verbatim_example :
  occurs_in "<pre>Logs grow without bound.</pre>" (format_issue_html bare_issue).
Proof.
  exact (proj1 (proj2 (proj2 (proj2 (proj2
           (html_embeds_issue_verbatim bare_issue)))))).
Defined.

(* ------------------------------------------------------------------ *)
(** ** Sending without an attachment *)

Lemma attachment_unavailable (w : world) (attachment_path : option string) :
  attachment_path = None \/
  (exists p, attachment_path = Some p /\ path_exists w p = false) ->
  attachment_available w attachment_path = None.
Proof.
  intros [-> | (p & -> & H)]; simpl; [reflexivity|].
  rewrite H. now rewrite andb_false_r.
Qed.

(** C6.  With no attachment path, or one at which nothing exists,
    [send_email] behaves as it does without the path; under a complete
    configuration it hands the transport the message whose only part is
    the HTML body, prints no [Attached:] line, raises nothing, and returns
    [True] exactly when the transport accepts the message. *)
Theorem send_email_without_attachment
    (int_of_str : string -> option Z) (w : world) (cfg : config) (i : issue)
    (attachment_path : option string) (repo_name : string) :
  attachment_path = None \/
  (exists p, attachment_path = Some p /\ path_exists w p = false) ->
  send_email int_of_str w cfg i attachment_path repo_name
  = send_email int_of_str w cfg i None repo_name /\
  forall from_addr to_text smtp_host port_text smtp_port smtp_user smtp_pass,
    cfg "Email" "FromAddress" = Value from_addr ->
    cfg "Email" "ToAddresses" = Value to_text ->
    cfg "Email" "SMTPHost" = Value smtp_host ->
    cfg "Email" "SMTPPort" = Value port_text ->
    int_of_str port_text = Some smtp_port ->
    cfg "Email" "SMTPUsername" = Value smtp_user ->
    cfg "Email" "SMTPPassword" = Value smtp_pass ->
    send_email int_of_str w cfg i attachment_path repo_name
    = match smtp_session w smtp_host smtp_port smtp_user smtp_pass
              (html_message i repo_name from_addr to_text) with
      | None =>
          ([Stdout ("Email sent successfully to: " ++
                    join ", " (map strip (split_on "," to_text)))],
           Returned true)
      | Some e => ([Stdout ("Error sending email: " ++ e)], Returned false)
      end.
Proof.
  intros H. apply attachment_unavailable in H.
  split.
  - unfold send_email. rewrite H. reflexivity.
  - intros from_addr to_text smtp_host port_text smtp_port smtp_user smtp_pass
           Hfrom Hto Hhost Hport Hint Huser Hpass.
    unfold send_email, config_get, py_int.
    repeat first [ rewrite bind_ret | rewrite Hfrom | rewrite Hto | rewrite Hhost
                 | rewrite Hport | rewrite Hint | rewrite Huser | rewrite Hpass
                 | rewrite H ].
    fold (html_message i repo_name from_addr to_text).
    destruct (smtp_session w smtp_host smtp_port smtp_user smtp_pass
                (html_message i repo_name from_addr to_text)); reflexivity.
Qed.

Lemma send_email_without_attachment_example :
  send_email example_int mail_world mail_config bare_issue
    (Some "TestOutputs/Test-Results-GH32-01-03-2024-09-00-00.html") "LogSmith"
  = ([Stdout "Email sent successfully to: dev@example.org, qa@example.org"],
     Returned true).
Proof.
  apply (proj2 (send_email_without_attachment example_int mail_world mail_config
                  bare_issue
                  (Some "TestOutputs/Test-Results-GH32-01-03-2024-09-00-00.html")
                  "LogSmith"
                  (or_intror (ex_intro _ _ (conj eq_refl eq_refl))))
           "ci@example.org" "dev@example.org, qa@example.org"
           "email-smtp.example.org" "587" 587 "user" "secret");
    reflexivity.
Defined.

(* ------------------------------------------------------------------ *)
(** ** Exit status of the notifier *)

Lemma exit_status_bind {A B : Type} (m : io A) (f : A -> io B) :
  exit_status (bind m f)
  = match snd m with
    | Returned a => exit_status (f a)
    | Raised _ => 1
    | Exited c => c
    end.
Proof.
  destruct m as [out [a|e|c]]; simpl; try reflexivity.
  destruct (f a). reflexivity.
Qed.

Lemma exit_status_bind_returned {A B : Type} (m : io A) (f : A -> io B) (a : A) :
  snd m = Returned a -> exit_status (bind m f) = exit_status (f a).
Proof. intros H. now rewrite exit_status_bind, H. Qed.

Lemma exits_with_1_bind {A B : Type} (m : io A) (f : A -> io B) :
  exits_with_1 m -> (forall a, exits_with_1 (f a)) -> exits_with_1 (bind m f).
Proof.
  unfold exits_with_1. destruct m as [out [a|e|c]]; simpl; intros Hm Hf c'.
  - specialize (Hf a c'). destruct (f a). exact Hf.
  - discriminate.
  - intros [= <-]. now apply Hm.
Qed.

Lemma exits_with_1_ret {A : Type} (a : A) : exits_with_1 (ret a).
Proof. intros c H. discriminate. Qed.

Lemma exits_with_1_raise {A : Type} (e : exn) : exits_with_1 (@raise A e).
Proof. intros c H. discriminate. Qed.

Lemma exits_with_1_print (s : string) : exits_with_1 (print s).
Proof. intros c H. discriminate. Qed.

Lemma exits_with_1_config_get (cfg : config) (section option : string) :
  exits_with_1 (config_get cfg section option).
Proof. unfold config_get. destruct (cfg section option); intros c H; discriminate. Qed.

Lemma exits_with_1_config_get_fallback (cfg : config)
    (section option fallback : string) :
  exits_with_1 (config_get_fallback cfg section option fallback).
Proof.
  unfold config_get_fallback.
  destruct (cfg section option); intros c H; discriminate.
Qed.

Lemma exits_with_1_load_settings (w : world) (file : string) :
  exits_with_1 (load_settings w file).
Proof.
  unfold load_settings. destruct (read_config w file) as [e|cfg]; intros c H;
    discriminate.
Qed.

Lemma exits_with_1_py_int (int_of_str : string -> option Z) (s : string) :
  exits_with_1 (py_int int_of_str s).
Proof. unfold py_int. destruct (int_of_str s); intros c H; discriminate. Qed.

Lemma exits_with_1_open_read (w : world) (p : string) : exits_with_1 (open_read w p).
Proof. unfold open_read. destruct (read_binary w p); intros c H; discriminate. Qed.

Create HintDb exits.

#[local] Hint Resolve exits_with_1_ret exits_with_1_raise exits_with_1_print
  exits_with_1_config_get exits_with_1_config_get_fallback
  exits_with_1_load_settings exits_with_1_py_int exits_with_1_open_read : exits.

Lemma exits_with_1_find_latest (w : world) (issue_number : Z) (output_dir : string) :
  exits_with_1 (find_latest_test_result w issue_number output_dir).
Proof.
  intros c.
  destruct (path_exists w output_dir) eqn:He.
  - destruct (listdir w output_dir) as [e|names] eqn:Hl.
    + rewrite (find_latest_unlistable _ _ _ _ He Hl). discriminate.
    + rewrite (find_latest_listed _ _ _ _ He Hl).
      destruct (select_never_raises issue_number
                  (candidates issue_number output_dir names)) as (out & r & ->).
      discriminate.
  - rewrite (find_latest_absent _ _ _ He). discriminate.
Qed.

Lemma exits_with_1_send_email (int_of_str : string -> option Z) (w : world)
    (cfg : config) (i : issue) (attachment_path : option string) (repo_name : string) :
  exits_with_1 (send_email int_of_str w cfg i attachment_path repo_name).
Proof.
  unfold send_email.
  repeat (apply exits_with_1_bind; [auto with exits | intros ?]).
  - destruct (attachment_available w attachment_path).
    + repeat (apply exits_with_1_bind; [auto with exits | intros ?]).
      auto with exits.
    + auto with exits.
  - destruct (smtp_session _ _ _ _ _ _);
      (apply exits_with_1_bind; [auto with exits | intros ?]); auto with exits.
Qed.

Section Notifier.
Variable int_of_str : string -> option Z.
Variable json_loads : string -> option issue.
Variable w : world.

Lemma gh_unavailable (n : Z) (repository : string) :
  subprocess_run w (gh_issue_view n repository) = NotInstalled ->
  get_github_issue json_loads w n repository
  = ([Stdout "Error: 'gh' command not found. Please install GitHub CLI."], Exited 1).
Proof.
  unfold get_github_issue, run_checked. intros ->. reflexivity.
Qed.

Lemma gh_failed (n : Z) (repository : string) (rc : Z) (stdout stderr : string) :
  subprocess_run w (gh_issue_view n repository) = Completed rc stdout stderr ->
  rc <> 0 ->
  get_github_issue json_loads w n repository
  = ([Stdout ("Error fetching issue: " ++ stderr)], Exited 1).
Proof.
  unfold get_github_issue, run_checked. intros -> Hrc.
  apply Z.eqb_neq in Hrc. rewrite Hrc. reflexivity.
Qed.

Lemma gh_succeeded (n : Z) (repository : string) (stdout stderr : string) (i : issue) :
  subprocess_run w (gh_issue_view n repository) = Completed 0 stdout stderr ->
  json_loads stdout = Some i ->
  get_github_issue json_loads w n repository = ret i.
Proof.
  unfold get_github_issue, run_checked. intros -> Hj.
  change (0 =? 0) with true. cbv iota. rewrite bind_ret, Hj. reflexivity.
Qed.

Lemma exits_with_1_gh (n : Z) (repository : string) :
  exits_with_1 (get_github_issue json_loads w n repository).
Proof.
  destruct (subprocess_run w (gh_issue_view n repository)) as [|rc out err] eqn:E.
  - rewrite (gh_unavailable _ _ E). now intros c [= <-].
  - destruct (Z.eq_dec rc 0) as [->|Hrc].
    + unfold get_github_issue, run_checked. rewrite E.
      change (0 =? 0) with true. cbv iota. rewrite bind_ret.
      destruct (json_loads out); intros c H; discriminate.
    + rewrite (gh_failed _ _ _ _ _ E Hrc). now intros c [= <-].
Qed.

Lemma exits_with_1_parse_argument (arg : string) :
  exits_with_1
    (try_except (py_int int_of_str arg)
       (fun e =>
          match e with
          | ValueError =>
              Some (print "Error: Issue number must be an integer" ;; sys_exit 1)
          | _ => None
          end)).
Proof.
  unfold py_int. destruct (int_of_str arg); intros c H; [discriminate|].
  now injection H as <-.
Qed.

(** A sequence ends with status 1 when its first part can only exit with
    1 and what follows a return ends with status 1. *)
Lemma exit_1_bind {A B : Type} (m : io A) (f : A -> io B) :
  exits_with_1 m ->
  (forall out a, m = (out, Returned a) -> exit_status (f a) = 1) ->
  exit_status (bind m f) = 1.
Proof.
  intros Hm Hf. rewrite exit_status_bind.
  destruct m as [out [a|e|c]]; simpl.
  - now apply (Hf out).
  - reflexivity.
  - now apply Hm.
Qed.

(** [main] ends with status 1 unless the issue is fetched and the
    message is sent. *)
Lemma main_status_1 :
  (forall n repository out i,
      get_github_issue json_loads w n repository = (out, Returned i) ->
      forall cfg attachment repo_name out',
        send_email int_of_str w cfg i attachment repo_name <> (out', Returned true)) ->
  exit_status (main int_of_str json_loads w) = 1.
Proof.
  intros H. unfold main.
  destruct (argv w) as [|prog [|arg rest]]; try reflexivity.
  apply exit_1_bind; [apply exits_with_1_parse_argument | intros out1 n _].
  apply exit_1_bind; [auto with exits | intros out0 cfg _].
  apply exit_1_bind; [auto with exits | intros out2 repository _].
  apply exit_1_bind; [auto with exits | intros out2' repo_name _].
  apply exit_1_bind; [auto with exits | intros out3 output_dir _].
  apply exit_1_bind; [auto with exits | intros out4 [] _].
  apply exit_1_bind; [apply exits_with_1_gh | intros out5 i Hi].
  apply exit_1_bind; [auto with exits | intros out6 [] _].
  apply exit_1_bind; [auto with exits | intros out7 [] _].
  apply exit_1_bind; [apply exits_with_1_find_latest | intros out8 attachment _].
  apply exit_1_bind;
    [destruct (truthy attachment); auto with exits | intros out9 [] _].
  apply exit_1_bind; [auto with exits | intros out10 [] _].
  apply exit_1_bind; [apply exits_with_1_send_email | intros out11 sent Hs].
  destruct sent; [|reflexivity].
  exfalso. exact (H _ _ _ _ Hi _ _ _ _ Hs).
Qed.

End Notifier.

Lemma bind_returned {A B : Type} (m : io A) (f : A -> io B) (out : list line) (b : B) :
  bind m f = (out, Returned b) ->
  exists o1 a o2, m = (o1, Returned a) /\ f a = (o2, Returned b).
Proof.
  destruct m as [o1 [a|e|c]]; simpl; try discriminate.
  destruct (f a) as [o2 r] eqn:E. intros [= _ ->]. now exists o1, a, o2.
Qed.

(** [send_email] returns [True] only after the transport accepted a
    message. *)
Lemma send_email_true_accepted (int_of_str : string -> option Z) (w : world)
    (cfg : config) (i : issue) (attachment_path : option string)
    (repo_name : string) (out : list line) :
  send_email int_of_str w cfg i attachment_path repo_name = (out, Returned true) ->
  exists host port user pass msg, smtp_session w host port user pass msg = None.
Proof.
  unfold send_email. intros H.
  repeat (apply bind_returned in H; destruct H as (? & ? & ? & _ & H)).
  match type of H with
  | match smtp_session w ?h ?p ?u ?pw ?m with _ => _ end = _ =>
      destruct (smtp_session w h p u pw m) eqn:E; [|now exists h, p, u, pw, m]
  end.
  apply bind_returned in H. destruct H as (? & ? & ? & _ & H). discriminate.
Qed.

(** [find_latest_test_result] returns when the path is missing and when
    the directory can be listed. *)
Lemma find_latest_returns (w : world) (issue_number : Z) (output_dir : string) :
  path_exists w output_dir = false \/
  (exists names, listdir w output_dir = inr names) ->
  exists out r,
    find_latest_test_result w issue_number output_dir = (out, Returned r).
Proof.
  intros [He | [names Hl]].
  - rewrite (find_latest_absent _ _ _ He). now eexists; eexists.
  - destruct (path_exists w output_dir) eqn:He.
    + rewrite (find_latest_listed _ _ _ _ He Hl). apply select_never_raises.
    + rewrite (find_latest_absent _ _ _ He). now eexists; eexists.
Qed.

(** The display name is read when it is given or left out. *)
Lemma config_get_fallback_returns (cfg : config) (section option fallback : string) :
  cfg section option = NoOption \/
  (exists v, cfg section option = Value v) ->
  exists v, config_get_fallback cfg section option fallback = ret v.
Proof.
  unfold config_get_fallback. intros [-> | [v ->]]; now eexists.
Qed.

Lemma config_get_fallback_display (cfg : config) (repository : string) :
  cfg "GitHub" "RepositoryName" = NoOption \/
  (exists display, cfg "GitHub" "RepositoryName" = Value display) ->
  config_get_fallback cfg "GitHub" "RepositoryName"
    (last (split_on "/" repository) "")
  = ret (display_name cfg repository).
Proof.
  unfold config_get_fallback, display_name. intros [-> | [v ->]]; reflexivity.
Qed.

(** With a complete configuration, readable files and a transport that
    accepts, [send_email] returns [True]. *)
Lemma send_email_succeeds (int_of_str : string -> option Z) (w : world)
    (cfg : config) (i : issue) (attachment_path : option string) (repo_name : string)
    (from_addr to_text smtp_host port_text smtp_user smtp_pass : string)
    (smtp_port : Z) :
  cfg "Email" "FromAddress" = Value from_addr ->
  cfg "Email" "ToAddresses" = Value to_text ->
  cfg "Email" "SMTPHost" = Value smtp_host ->
  cfg "Email" "SMTPPort" = Value port_text ->
  int_of_str port_text = Some smtp_port ->
  cfg "Email" "SMTPUsername" = Value smtp_user ->
  cfg "Email" "SMTPPassword" = Value smtp_pass ->
  (forall p, exists data, read_binary w p = inr data) ->
  (forall host port user pass msg, smtp_session w host port user pass msg = None) ->
  exists out,
    send_email int_of_str w cfg i attachment_path repo_name = (out, Returned true).
Proof.
  intros Hfrom Hto Hhost Hport Hint Huser Hpass Hread Hsmtp.
  unfold send_email, config_get, py_int.
  repeat first [ rewrite bind_ret | rewrite Hfrom | rewrite Hto | rewrite Hhost
               | rewrite Hport | rewrite Hint | rewrite Huser | rewrite Hpass ].
  destruct (attachment_available w attachment_path) as [p|].
  - unfold open_read. destruct (Hread p) as [data ->].
    rewrite bind_ret, bind_print. simpl. rewrite Hsmtp. now eexists.
  - rewrite bind_ret, Hsmtp. now eexists.
Qed.

(** C5.  The notifier ends with status 1 when the issue number is
    missing, when it is not an integer, when [gh] is not installed, when
    [gh] exits with a non-zero status, and when the transport accepts no
    message; it ends with status 0 when the argument is an integer, the
    configuration is complete, [gh] answers with a record, the directory
    is missing or can be listed, files can be read and the transport
    accepts the message. *)
Theorem notifier_exit_status
    (int_of_str : string -> option Z) (json_loads : string -> option issue)
    (w : world) :
  ((List.length (argv w) < 2)%nat ->
   exit_status (main int_of_str json_loads w) = 1) /\
  (forall prog arg rest,
      argv w = prog :: arg :: rest -> int_of_str arg = None ->
      exit_status (main int_of_str json_loads w) = 1) /\
  ((forall args, subprocess_run w args = NotInstalled) ->
   exit_status (main int_of_str json_loads w) = 1) /\
  ((forall args, exists rc stdout stderr,
       subprocess_run w args = Completed rc stdout stderr /\ rc <> 0) ->
   exit_status (main int_of_str json_loads w) = 1) /\
  ((forall host port user pass msg, smtp_session w host port user pass msg <> None) ->
   exit_status (main int_of_str json_loads w) = 1) /\
  (forall prog arg rest n cfg repository output_dir stdout stderr i
          from_addr to_text smtp_host port_text smtp_port smtp_user smtp_pass,
      argv w = prog :: arg :: rest ->
      int_of_str arg = Some n ->
      read_config w "settings.ini" = inr cfg ->
      cfg "GitHub" "Repository" = Value repository ->
      (cfg "GitHub" "RepositoryName" = NoOption \/
       exists display, cfg "GitHub" "RepositoryName" = Value display) ->
      cfg "TestResults" "OutputDirectory" = Value output_dir ->
      subprocess_run w (gh_issue_view n repository) = Completed 0 stdout stderr ->
      json_loads stdout = Some i ->
      (path_exists w output_dir = false \/
       exists names, listdir w output_dir = inr names) ->
      cfg "Email" "FromAddress" = Value from_addr ->
      cfg "Email" "ToAddresses" = Value to_text ->
      cfg "Email" "SMTPHost" = Value smtp_host ->
      cfg "Email" "SMTPPort" = Value port_text ->
      int_of_str port_text = Some smtp_port ->
      cfg "Email" "SMTPUsername" = Value smtp_user ->
      cfg "Email" "SMTPPassword" = Value smtp_pass ->
      (forall p, exists data, read_binary w p = inr data) ->
      (forall host port user pass msg, smtp_session w host port user pass msg = None) ->
      exit_status (main int_of_str json_loads w) = 0).
Proof.
  repeat split.
  - unfold main. destruct (argv w) as [|prog [|arg rest]]; simpl; intros H;
      try reflexivity; lia.
  - intros prog arg rest Hargv Hint.
    unfold main, py_int. rewrite Hargv, Hint. reflexivity.
  - intros H. apply main_status_1. intros n repository out i Hi.
    rewrite (gh_unavailable _ _ _ _ (H _)) in Hi. discriminate.
  - intros H. apply main_status_1. intros n repository out i Hi.
    destruct (H (gh_issue_view n repository)) as (rc & so & se & Hrun & Hrc).
    rewrite (gh_failed _ _ _ _ _ _ _ Hrun Hrc) in Hi. discriminate.
  - intros H. apply main_status_1. intros n repository out i _ cfg a r out' Hs.
    apply send_email_true_accepted in Hs.
    destruct Hs as (host & port & user & pass & msg & Hs). now apply (H host port user pass msg).
  - intros prog arg rest n cfg repository output_dir stdout stderr i
           from_addr to_text smtp_host port_text smtp_port smtp_user smtp_pass
           Hargv Hint Hcfg Hrepo Hname Hdir Hrun Hjson Hlist Hfrom Hto Hhost Hport Hpint
           Huser Hpass Hread Hsmtp.
    unfold main. rewrite Hargv.
    unfold py_int at 1. rewrite Hint. unfold try_except, ret. fold (@ret Z n).
    rewrite bind_ret. unfold load_settings. rewrite Hcfg, bind_ret.
    unfold config_get at 1. rewrite Hrepo, bind_ret.
    destruct (config_get_fallback_returns cfg "GitHub" "RepositoryName"
                (last (split_on "/" repository) "") Hname) as [repo_name ->].
    rewrite bind_ret.
    unfold config_get at 1. rewrite Hdir, bind_ret.
    rewrite (exit_status_bind_returned _ _ tt) by reflexivity.
    rewrite (gh_succeeded _ _ _ _ _ _ _ Hrun Hjson), bind_ret.
    rewrite (exit_status_bind_returned _ _ tt) by reflexivity.
    rewrite (exit_status_bind_returned _ _ tt) by reflexivity.
    destruct (find_latest_returns w n output_dir Hlist) as (out & r & ->).
    rewrite (exit_status_bind_returned _ _ r) by reflexivity.
    rewrite (exit_status_bind_returned _ _ tt)
      by (destruct (truthy r); reflexivity).
    rewrite (exit_status_bind_returned _ _ tt) by reflexivity.
    destruct (send_email_succeeds int_of_str w cfg i r repo_name
                _ _ _ _ _ _ _ Hfrom Hto Hhost Hport Hpint Huser Hpass Hread Hsmtp)
      as [out' Hsend].
    rewrite exit_status_bind, Hsend. reflexivity.
Qed.

Lemma notifier_exit_status_example :
  exit_status (main example_int (fun _ => Some bare_issue) empty_world) = 1 /\
  exit_status (main example_int (fun _ => Some bare_issue) mail_world) = 0.
Proof.
  split.
  - apply (proj1 (notifier_exit_status example_int (fun _ => Some bare_issue)
                    empty_world)).
    simpl. lia.
  - apply (proj2 (proj2 (proj2 (proj2 (proj2
             (notifier_exit_status example_int (fun _ => Some bare_issue)
                mail_world)))))
             "send_issue_email.py" "32" [] 32 mail_config
             "irsiksoftware/LogSmith" "TestOutputs"
             "{...}" "" bare_issue
             "ci@example.org" "dev@example.org, qa@example.org"
             "email-smtp.example.org" "587" 587 "user" "secret");
      try reflexivity.
    + now left.
    + now left.
    + intros p. now exists [].
Defined.

(* ================================================================== *)
(** * Further properties of the scripts *)

(** ** The pattern and the scan *)

(** X1.  [pattern.match] accepts a name exactly when the name is
    [Test-Results-GH<issue>-], then a timestamp [dd-dd-dddd-dd-dd-dd] whose
    digits are decimal digits of any script, then [.htm] or [.html], then
    nothing or one newline; the group it captures is the timestamp.  Among
    names written in printable ASCII these are exactly the names of the
    convention. *)
Theorem pattern_accepts_exactly_convention
    (issue_number : Z) (filename : string) (g : option string) :
  (re_match (pattern issue_number) filename = Some g <->
   exists ts ext tail,
     g = Some ts /\
     filename = (artifact_prefix issue_number ++ ts ++ ext ++ tail)%string /\
     (ext = ".htm" \/ ext = ".html") /\ (tail = "" \/ tail = nl) /\
     decimal_timestamp ts = true) /\
  (plain_name filename = true ->
   (re_match (pattern issue_number) filename = Some g <->
    exists ts, g = Some ts /\ artifact_timestamp issue_number filename = Some ts)).
Proof.
  split; [split|].
  - apply pattern_match_sound.
  - intros (ts & ext & tail & -> & -> & Hext & Htail & Hs).
    now apply pattern_takes_timestamp.
  - intros Hp. split.
    + now apply plain_accepted.
    + intros (ts & -> & H). now apply pattern_match_complete in H.
Qed.

Lemma candidates_of_kept (issue_number : Z) (output_dir : string)
    (keep : string -> bool) (names : list string) :
  (forall f, In f names -> keep f = false ->
             re_match (pattern issue_number) f = None) ->
  candidates issue_number output_dir (filter keep names)
  = candidates issue_number output_dir names.
Proof.
  induction names as [|f names IH]; intros H; [reflexivity|].
  assert (IH' := IH (fun g Hg => H g (or_intror Hg))).
  simpl filter. destruct (keep f) eqn:Ek.
  - unfold candidates in *. simpl. now rewrite IH'.
  - unfold candidates in *. simpl. rewrite IH'.
    unfold entry at 2, entry_timestamp.
    now rewrite (H f (or_introl eq_refl) Ek).
Qed.

(** X2.  Artifacts of other issues never influence the selection: a
    listing and the same listing without some names that follow the
    convention for a different issue number give the same answer and the
    same output. *)
Theorem other_issues_never_influence
    (w w' : world) (issue_number : Z) (output_dir : string)
    (names : list string) (keep : string -> bool) :
  path_exists w output_dir = true ->
  path_exists w' output_dir = true ->
  listdir w output_dir = inr names ->
  listdir w' output_dir = inr (filter keep names) ->
  (forall f, In f names -> keep f = false ->
             exists m ts, m <> issue_number /\ artifact_timestamp m f = Some ts) ->
  find_latest_test_result w issue_number output_dir
  = find_latest_test_result w' issue_number output_dir.
Proof.
  intros He He' Hl Hl' Hdrop.
  rewrite (find_latest_listed _ _ _ _ He Hl), (find_latest_listed _ _ _ _ He' Hl').
  rewrite candidates_of_kept; [reflexivity|].
  intros f Hf Hk. destruct (Hdrop f Hf Hk) as (m & ts & Hne & Hm).
  apply (other_issue_rejected issue_number m f ts); [congruence | assumption].
Qed.

Lemma other_issues_never_influence_example :
  find_latest_test_result
    (world_with_listing "TestOutputs"
       ["Test-Results-GH99-12-31-2024-23-59-59.html";
        "Test-Results-GH32-01-03-2024-09-00-00.html";
        "Test-Results-GH320-12-31-2025-23-59-59.htm"])
    32 "TestOutputs"
  = find_latest_test_result
      (world_with_listing "TestOutputs"
         ["Test-Results-GH32-01-03-2024-09-00-00.html"])
      32 "TestOutputs".
Proof.
  apply (other_issues_never_influence _ _ 32 "TestOutputs"
           ["Test-Results-GH99-12-31-2024-23-59-59.html";
            "Test-Results-GH32-01-03-2024-09-00-00.html";
            "Test-Results-GH320-12-31-2025-23-59-59.htm"]
           (String.eqb "Test-Results-GH32-01-03-2024-09-00-00.html")).
  - reflexivity.
  - reflexivity.
  - reflexivity.
  - reflexivity.
  - intros f [<-|[<-|[<-|[]]]] Hk; try discriminate.
    + exists 99, "12-31-2024-23-59-59". split; [lia | reflexivity].
    + exists 320, "12-31-2025-23-59-59". split; [lia | reflexivity].
Defined.

(** Among the names of a listing, either none is a candidate or one is
    the first of those with the latest timestamp. *)
Lemma first_newest_exists (issue_number : Z) (names : list string) :
  (forall f, In f names -> entry_timestamp issue_number f = None) \/
  exists l1 f l2 t,
    names = (l1 ++ f :: l2)%list /\
    entry_timestamp issue_number f = Some t /\
    (forall g t', In g names -> entry_timestamp issue_number g = Some t' ->
                  Datetime.ltb t t' = false) /\
    (forall g t', In g l1 -> entry_timestamp issue_number g = Some t' ->
                  Datetime.ltb t' t = true).
Proof.
  induction names as [|x names IH].
  - left. intros f [].
  - destruct (entry_timestamp issue_number x) as [tx|] eqn:Ex.
    + right. destruct IH as [Hnone | (l1 & f & l2 & t & -> & Hf & Hmax & Hfirst)].
      * exists [], x, names, tx. repeat split; try assumption.
        -- intros g t' [<-|Hg] Hg'.
           ++ rewrite Ex in Hg'. injection Hg' as <-. apply datetime_ltb_irrefl.
           ++ rewrite (Hnone g Hg) in Hg'. discriminate.
        -- intros g t' [].
      * destruct (Datetime.ltb tx t) eqn:Elt.
        -- exists (x :: l1), f, l2, t. repeat split; try assumption.
           ++ intros g t' [<-|Hg] Hg'.
              ** rewrite Ex in Hg'. injection Hg' as <-.
                 now apply datetime_ltb_asym.
              ** now apply (Hmax g).
           ++ intros g t' [<-|Hg] Hg'.
              ** rewrite Ex in Hg'. now injection Hg' as <-.
              ** now apply (Hfirst g).
        -- exists [], x, (l1 ++ f :: l2)%list, tx. repeat split; try assumption.
           ++ intros g t' [<-|Hg] Hg'.
              ** rewrite Ex in Hg'. injection Hg' as <-. apply datetime_ltb_irrefl.
              ** apply datetime_le_trans with t; [now apply (Hmax g) | assumption].
           ++ intros g t' [].
    + destruct IH as [Hnone | (l1 & f & l2 & t & -> & Hf & Hmax & Hfirst)].
      * left. intros g [<-|Hg]; [assumption | now apply Hnone].
      * right. exists (x :: l1), f, l2, t. repeat split; try assumption.
        -- intros g t' [<-|Hg] Hg'; [congruence | now apply (Hmax g)].
        -- intros g t' [<-|Hg] Hg'; [congruence | now apply (Hfirst g)].
Qed.

(** X3.  Over a directory that can be listed, [find_latest_test_result]
    finds an artifact exactly when some listed name is accepted by the
    pattern with a timestamp that parses; what it returns is then the path
    of a listed name whose timestamp no candidate exceeds and which every
    candidate listed before it is older than; otherwise it prints the
    warning and returns [None]. *)
Theorem find_latest_finds_the_first_newest
    (w : world) (issue_number : Z) (output_dir : string) (names : list string) :
  path_exists w output_dir = true ->
  listdir w output_dir = inr names ->
  ((forall f, In f names -> entry_timestamp issue_number f = None) /\
   find_latest_test_result w issue_number output_dir
   = ([Stdout ("Warning: No test result files found for issue #" ++
               str_int issue_number)], Returned None)) \/
  (exists l1 f l2 t,
      names = (l1 ++ f :: l2)%list /\
      entry_timestamp issue_number f = Some t /\
      (forall g t', In g names -> entry_timestamp issue_number g = Some t' ->
                    Datetime.ltb t t' = false) /\
      (forall g t', In g l1 -> entry_timestamp issue_number g = Some t' ->
                    Datetime.ltb t' t = true) /\
      find_latest_test_result w issue_number output_dir
      = ([], Returned (Some (OsPath.join output_dir f)))).
Proof.
  intros He Hl.
  destruct (first_newest_exists issue_number names)
    as [Hnone | (l1 & f & l2 & t & Hn & Hf & Hmax & Hfirst)].
  - left. split; [assumption|].
    rewrite (find_latest_listed _ _ _ _ He Hl).
    replace (candidates issue_number output_dir names)
      with (@nil (string * Datetime.datetime)); [reflexivity|].
    symmetry. unfold candidates. clear Hl.
    induction names as [|x names IH]; [reflexivity|].
    simpl. unfold entry at 1. rewrite (Hnone x (or_introl eq_refl)).
    apply IH. intros g Hg. apply Hnone. now right.
  - right. exists l1, f, l2, t. repeat split; try assumption.
    subst names.
    apply (find_latest_first_max w issue_number output_dir l1 l2 f t He Hl Hf Hfirst).
    intros g t' Hg Hg'. apply (Hmax g); [|assumption].
    apply in_or_app. right. now right.
Qed.

Lemma find_latest_finds_the_first_newest_example :
  ((forall f, In f ["notes.txt"; "Test-Results-GH32-02-30-2024-10-00-00.html"] ->
              entry_timestamp 32 f = None) /\
   find_latest_test_result
     (world_with_listing "TestOutputs"
        ["notes.txt"; "Test-Results-GH32-02-30-2024-10-00-00.html"])
     32 "TestOutputs"
   = ([Stdout ("Warning: No test result files found for issue #" ++ str_int 32)],
      Returned None)) \/
  (exists l1 f l2 t,
      ["notes.txt"; "Test-Results-GH32-02-30-2024-10-00-00.html"]
      = (l1 ++ f :: l2)%list /\
      entry_timestamp 32 f = Some t /\
      (forall g t', In g ["notes.txt"; "Test-Results-GH32-02-30-2024-10-00-00.html"] ->
                    entry_timestamp 32 g = Some t' -> Datetime.ltb t t' = false) /\
      (forall g t', In g l1 -> entry_timestamp 32 g = Some t' ->
                    Datetime.ltb t' t = true) /\
      find_latest_test_result
        (world_with_listing "TestOutputs"
           ["notes.txt"; "Test-Results-GH32-02-30-2024-10-00-00.html"])
        32 "TestOutputs"
      = ([], Returned (Some (OsPath.join "TestOutputs" f)))).
Proof.
  apply (find_latest_finds_the_first_newest
           (world_with_listing "TestOutputs"
              ["notes.txt"; "Test-Results-GH32-02-30-2024-10-00-00.html"])
           32 "TestOutputs"
           ["notes.txt"; "Test-Results-GH32-02-30-2024-10-00-00.html"]);
    reflexivity.
Defined.

(** X4.  The only exceptions that leave [find_latest_test_result] are
    those of [os.listdir] on a path that exists: the call raises [e]
    exactly when [os.path.exists] holds and [os.listdir] raises [e], having
    printed nothing; and it never leaves through [sys.exit]. *)
Theorem find_latest_raises_only_listdir_errors
    (w : world) (issue_number : Z) (output_dir : string) :
  (forall out e,
      find_latest_test_result w issue_number output_dir = (out, Raised e) <->
      path_exists w output_dir = true /\ listdir w output_dir = inl e /\ out = []) /\
  (forall out c,
      find_latest_test_result w issue_number output_dir <> (out, Exited c)).
Proof.
  split.
  - intros out e. split.
    + intros H. destruct (path_exists w output_dir) eqn:He.
      * destruct (listdir w output_dir) as [e'|names] eqn:Hl.
        -- rewrite (find_latest_unlistable _ _ _ _ He Hl) in H.
           injection H as <- <-. now repeat split.
        -- rewrite (find_latest_listed _ _ _ _ He Hl) in H.
           destruct (select_never_raises issue_number
                       (candidates issue_number output_dir names)) as (o & r & E).
           rewrite E in H. discriminate.
      * rewrite (find_latest_absent _ _ _ He) in H. discriminate.
    + intros (He & Hl & ->). now apply find_latest_unlistable.
  - intros out c H.
    pose proof (exits_with_1_find_latest w issue_number output_dir c) as Hx.
    rewrite H in Hx. specialize (Hx eq_refl). subst c.
    destruct (path_exists w output_dir) eqn:He.
    + destruct (listdir w output_dir) as [e'|names] eqn:Hl.
      * rewrite (find_latest_unlistable _ _ _ _ He Hl) in H. discriminate.
      * rewrite (find_latest_listed _ _ _ _ He Hl) in H.
        destruct (select_never_raises issue_number
                    (candidates issue_number output_dir names)) as (o & r & E).
        rewrite E in H. discriminate.
    + rewrite (find_latest_absent _ _ _ He) in H. discriminate.
Qed.

(** ** Paths and names *)

Lemma contains_char_cons (c x : ascii) (s : string) :
  contains (String c "") (String x s)
  = Ascii.eqb c x || contains (String c "") s.
Proof. simpl. destruct (Ascii.eqb c x); reflexivity. Qed.

Lemma contains_char_app (c : ascii) (a b : string) :
  contains (String c "") (a ++ b)
  = contains (String c "") a || contains (String c "") b.
Proof.
  induction a as [|x a IH].
  - destruct b; reflexivity.
  - change (String x a ++ b)%string with (String x (a ++ b)).
    rewrite !contains_char_cons, IH. now rewrite orb_assoc.
Qed.

Lemma after_last_none (sep : ascii) (f : string) :
  contains (String sep "") f = false -> OsPath.after_last sep f = f.
Proof.
  destruct f as [|c f]; [reflexivity|].
  rewrite contains_char_cons. intros H. apply orb_false_elim in H.
  destruct H as [Hc Hf]. simpl OsPath.after_last.
  rewrite Hf, (Ascii.eqb_sym c sep), Hc. reflexivity.
Qed.

Lemma after_last_sep (sep : ascii) (a f : string) :
  contains (String sep "") f = false ->
  OsPath.after_last sep (a ++ String sep f) = f.
Proof.
  intros Hf. induction a as [|x a IH].
  - simpl append. simpl OsPath.after_last. rewrite Hf, Ascii.eqb_refl. reflexivity.
  - change (String x a ++ String sep f)%string with (String x (a ++ String sep f)).
    simpl OsPath.after_last.
    rewrite contains_char_app, contains_char_cons, Ascii.eqb_refl, orb_true_r.
    exact IH.
Qed.

Lemma ends_with_sep_split (d : string) :
  OsPath.ends_with_sep d = true -> exists a, d = (a ++ "/")%string.
Proof.
  unfold OsPath.ends_with_sep. induction d as [|c d IH]; [discriminate|].
  destruct d as [|c' d].
  - simpl. intros H. apply Ascii.eqb_eq in H. subst. now exists "".
  - intros H. destruct (IH H) as [a Ha]. exists (String c a). simpl. now rewrite Ha.
Qed.

(** The name is what [basename] gives back of a joined path. *)
Lemma basename_join (dir f : string) :
  contains "/" f = false -> OsPath.basename (OsPath.join dir f) = f.
Proof.
  intros Hf. unfold OsPath.basename, OsPath.join.
  assert (Hs : strip_prefix "/" f = None).
  { destruct f as [|c f]; [reflexivity|].
    rewrite contains_char_cons in Hf. apply orb_false_elim in Hf.
    cbn [strip_prefix]. now rewrite (proj1 Hf). }
  rewrite Hs. destruct dir as [|c dir].
  - now apply after_last_none.
  - destruct (OsPath.ends_with_sep (String c dir)) eqn:E.
    + destruct (ends_with_sep_split _ E) as [a ->].
      rewrite append_assoc. now apply after_last_sep.
    + now apply (after_last_sep "/" (String c dir) f).
Qed.

Lemma digit_not_slash (c : ascii) : is_digit c = true -> Ascii.eqb "/" c = false.
Proof.
  intros H. destruct (Ascii.eqb_spec "/" c) as [<-|]; [discriminate | reflexivity].
Qed.

Lemma all_digits_no_slash (s : string) :
  all_digits s = true -> contains "/" s = false.
Proof.
  induction s as [|c s IH]; [reflexivity|].
  simpl all_digits. intros H. apply andb_prop in H. destruct H as [Hc Hs].
  rewrite contains_char_cons, (digit_not_slash c Hc). now apply IH.
Qed.

Lemma str_int_no_slash (n : Z) : contains "/" (str_int n) = false.
Proof.
  destruct (str_int_shape n) as (sign & c & ds & -> & Hs & Hc & Hd).
  rewrite contains_char_app, contains_char_cons, (digit_not_slash c Hc),
    (all_digits_no_slash ds Hd).
  destruct Hs as [-> | ->]; reflexivity.
Qed.

Lemma high_no_slash (t : string) :
  all_bytes high t = true -> contains "/" t = false.
Proof.
  induction t as [|c t IH]; [reflexivity|].
  simpl all_bytes. intros H. apply andb_prop in H. destruct H as [Hc Ht].
  rewrite contains_char_cons, (IH Ht), orb_false_r.
  destruct (Ascii.eqb_spec "/" c) as [<-|]; [discriminate Hc | reflexivity].
Qed.

Lemma reads_no_slash (items : list stamp_item) (s : string) :
  reads items s = true -> contains "/" s = false.
Proof.
  revert s. induction items as [|[|] items IH]; intros s H.
  - apply reads_nil in H. now subst.
  - apply reads_digit in H.
    destruct H as (v & t & r & -> & (_ & [(c & -> & Hc) | (c & t' & -> & Hh)]) & H).
    + change (String c "" ++ r)%string with (String c r).
      rewrite contains_char_cons, (digit_not_slash c Hc). now apply IH.
    + rewrite contains_char_app, (high_no_slash _ Hh). now apply IH.
  - apply reads_dash in H. destruct H as (r & -> & H).
    rewrite contains_char_cons. now apply IH.
Qed.

Lemma timestamp_no_slash (ts : string) :
  decimal_timestamp ts = true -> contains "/" ts = false.
Proof. apply reads_no_slash. Qed.

(** No name that the pattern accepts holds a path separator. *)
Lemma accepted_no_slash (issue_number : Z) (filename : string) (g : option string) :
  re_match (pattern issue_number) filename = Some g ->
  contains "/" filename = false.
Proof.
  intros H. apply pattern_match_sound in H.
  destruct H as (ts & ext & tail & _ & -> & Hext & Htail & Hs).
  unfold artifact_prefix.
  rewrite !contains_char_app, str_int_no_slash, (timestamp_no_slash ts Hs).
  destruct Hext as [-> | ->], Htail as [-> | ->]; reflexivity.
Qed.

(** X5.  [os.path.basename] undoes [os.path.join] on a name without a
    separator, and so the name that [main] prints after
    [Found test result:], the base name of the path found, is a name of the
    listing, and the path found is that name joined to the directory. *)
Theorem found_path_names_a_listed_file :
  (forall dir f, contains "/" f = false ->
                 OsPath.basename (OsPath.join dir f) = f) /\
  (forall (w : world) (issue_number : Z) (output_dir : string)
          (names : list string) (out : list line) (p : string),
      listdir w output_dir = inr names ->
      find_latest_test_result w issue_number output_dir = (out, Returned (Some p)) ->
      In (OsPath.basename p) names /\
      p = OsPath.join output_dir (OsPath.basename p)).
Proof.
  split; [exact basename_join|].
  intros w issue_number output_dir names out p Hl H.
  destruct (path_exists w output_dir) eqn:He.
  2: { rewrite (find_latest_absent _ _ _ He) in H. discriminate. }
  rewrite (find_latest_listed _ _ _ _ He Hl) in H. unfold select in H.
  destruct (candidates issue_number output_dir names) as [|c cs] eqn:Hc;
    [discriminate|].
  destruct (list_sort snd Datetime.ltb true (c :: cs)) as [|[p' t] rest] eqn:Hs;
    [discriminate|].
  injection H as _ ->.
  assert (Hin : In (p, t) (candidates issue_number output_dir names)).
  { rewrite Hc. apply (list_sort_In snd Datetime.ltb true). rewrite Hs. now left. }
  apply candidates_In in Hin. destruct Hin as (f & Hf & Ht & Hp). simpl in Ht, Hp.
  unfold entry_timestamp in Ht.
  destruct (re_match (pattern issue_number) f) as [g|] eqn:Hm; [|discriminate].
  rewrite Hp, (basename_join output_dir f (accepted_no_slash _ _ _ Hm)).
  now split.
Qed.

Lemma found_path_names_a_listed_file_example :
  In (OsPath.basename "TestOutputs/Test-Results-GH32-01-03-2024-09-00-00.html")
     ["notes.txt"; "Test-Results-GH32-01-03-2024-09-00-00.html"] /\
  "TestOutputs/Test-Results-GH32-01-03-2024-09-00-00.html"
  = OsPath.join "TestOutputs"
      (OsPath.basename "TestOutputs/Test-Results-GH32-01-03-2024-09-00-00.html").
Proof.
  apply (proj2 found_path_names_a_listed_file
           (world_with_listing "TestOutputs"
              ["notes.txt"; "Test-Results-GH32-01-03-2024-09-00-00.html"])
           32 "TestOutputs"
           ["notes.txt"; "Test-Results-GH32-01-03-2024-09-00-00.html"] []).
  - reflexivity.
  - vm_compute. reflexivity.
Defined.

(** ** Recipients *)






(** ** Sending *)

(** [send_email] when the attachment is there to be read. *)
Lemma send_email_attaching
    (int_of_str : string -> option Z) (w : world) (cfg : config) (i : issue)
    (p repo_name from_addr to_text smtp_host port_text smtp_user smtp_pass : string)
    (smtp_port : Z) (data : list Byte.byte) :
  cfg "Email" "FromAddress" = Value from_addr ->
  cfg "Email" "ToAddresses" = Value to_text ->
  cfg "Email" "SMTPHost" = Value smtp_host ->
  cfg "Email" "SMTPPort" = Value port_text ->
  int_of_str port_text = Some smtp_port ->
  cfg "Email" "SMTPUsername" = Value smtp_user ->
  cfg "Email" "SMTPPassword" = Value smtp_pass ->
  nonempty p = true ->
  path_exists w p = true ->
  read_binary w p = inr data ->
  send_email int_of_str w cfg i (Some p) repo_name
  = match smtp_session w smtp_host smtp_port smtp_user smtp_pass
            (attach (html_message i repo_name from_addr to_text)
                    (attachment_part (OsPath.basename p) data)) with
    | None =>
        ([Stdout ("Attached: " ++ OsPath.basename p);
          Stdout ("Email sent successfully to: " ++
                  join ", " (map strip (split_on "," to_text)))],
         Returned true)
    | Some e =>
        ([Stdout ("Attached: " ++ OsPath.basename p);
          Stdout ("Error sending email: " ++ e)],
         Returned false)
    end.
Proof.
  intros Hfrom Hto Hhost Hport Hint Huser Hpass Hp He Hr.
  unfold send_email, config_get, py_int, attachment_available, open_read.
  rewrite Hp, He. simpl andb. cbv iota.
  repeat first [ rewrite bind_ret | rewrite Hfrom | rewrite Hto | rewrite Hhost
               | rewrite Hport | rewrite Hint | rewrite Huser | rewrite Hpass
               | rewrite Hr ].
  fold (html_message i repo_name from_addr to_text).
  cbv beta iota delta [bind print ret app].
  destruct (smtp_session w smtp_host smtp_port smtp_user smtp_pass
              (attach (html_message i repo_name from_addr to_text)
                      (attachment_part (OsPath.basename p) data))); reflexivity.
Qed.

(** X7.  With a complete configuration and a path at which a file
    exists, [send_email] hands the transport the HTML part followed by one
    [application/octet-stream] part that holds the bytes of the file under
    its base name, prints [Attached:] with that name, and returns what the
    transport decides; when the file cannot be read, the error of [open]
    leaves [send_email] and nothing is sent or printed. *)
Theorem send_email_attaches_the_file
    (int_of_str : string -> option Z) (w : world) (cfg : config) (i : issue)
    (p repo_name from_addr to_text smtp_host port_text smtp_user smtp_pass : string)
    (smtp_port : Z) :
  cfg "Email" "FromAddress" = Value from_addr ->
  cfg "Email" "ToAddresses" = Value to_text ->
  cfg "Email" "SMTPHost" = Value smtp_host ->
  cfg "Email" "SMTPPort" = Value port_text ->
  int_of_str port_text = Some smtp_port ->
  cfg "Email" "SMTPUsername" = Value smtp_user ->
  cfg "Email" "SMTPPassword" = Value smtp_pass ->
  nonempty p = true ->
  path_exists w p = true ->
  (forall data,
      read_binary w p = inr data ->
      msg_parts (attach (html_message i repo_name from_addr to_text)
                        (attachment_part (OsPath.basename p) data))
      = [MIMEText (format_issue_html i) "html";
         MIMEBase "application" "octet-stream" data
           [("Content-Transfer-Encoding", "base64");
            ("Content-Disposition",
             ("attachment; filename= " ++ OsPath.basename p)%string)]] /\
      send_email int_of_str w cfg i (Some p) repo_name
      = match smtp_session w smtp_host smtp_port smtp_user smtp_pass
                (attach (html_message i repo_name from_addr to_text)
                        (attachment_part (OsPath.basename p) data)) with
        | None =>
            ([Stdout ("Attached: " ++ OsPath.basename p);
              Stdout ("Email sent successfully to: " ++
                      join ", " (map strip (split_on "," to_text)))],
             Returned true)
        | Some e =>
            ([Stdout ("Attached: " ++ OsPath.basename p);
              Stdout ("Error sending email: " ++ e)],
             Returned false)
        end) /\
  (forall e,
      read_binary w p = inl e ->
      send_email int_of_str w cfg i (Some p) repo_name = ([], Raised e)).
Proof.
  intros Hfrom Hto Hhost Hport Hint Huser Hpass Hp He. split.
  - intros data Hr. split; [reflexivity|].
    now apply send_email_attaching with port_text.
  - intros e Hr.
    unfold send_email, config_get, py_int, attachment_available, open_read.
    rewrite Hp, He. simpl andb. cbv iota.
    repeat first [ rewrite bind_ret | rewrite Hfrom | rewrite Hto | rewrite Hhost
                 | rewrite Hport | rewrite Hint | rewrite Huser | rewrite Hpass
                 | rewrite Hr ].
    reflexivity.
Qed.

Lemma send_email_attaches_the_file_example :
  send_email example_int artifact_world mail_config bare_issue
    (Some "TestOutputs/Test-Results-GH32-01-03-2024-09-00-00.html") "LogSmith"
  = ([Stdout "Attached: Test-Results-GH32-01-03-2024-09-00-00.html";
      Stdout "Email sent successfully to: dev@example.org, qa@example.org"],
     Returned true).
Proof.
  apply (proj2 (proj1 (send_email_attaches_the_file example_int artifact_world
                         mail_config bare_issue
                         "TestOutputs/Test-Results-GH32-01-03-2024-09-00-00.html"
                         "LogSmith" "ci@example.org" "dev@example.org, qa@example.org"
                         "email-smtp.example.org" "587" "user" "secret" 587
                         eq_refl eq_refl eq_refl eq_refl eq_refl eq_refl eq_refl
                         eq_refl eq_refl)
                  [Byte.x3c; Byte.x70; Byte.x3e] eq_refl)).
Defined.

(** The three ways in which reading the setting [k] of [Email] raises. *)
Ltac unreadable_setting k :=
  match goal with
  | E : _ = Invalid ?e |- _ =>
      exists e; split; [reflexivity|]; right; right; exists k; split;
      [unfold email_keys; simpl; tauto | exact E]
  | |- _ =>
      eexists; split; [reflexivity|]; right; left; eexists; reflexivity
  end.

(** X8.  A setting of [Email] that is missing or cannot be read, or a
    port that is not an integer, makes [send_email] raise before it
    builds the message: a [KeyError], the [ValueError] of [int], or the
    error of the setting that cannot be interpolated; the [try] around
    the transport does not catch it, nothing is printed, and no [False]
    is returned. *)
Theorem send_email_raises_when_misconfigured
    (int_of_str : string -> option Z) (w : world) (cfg : config) (i : issue)
    (attachment_path : option string) (repo_name : string) :
  (exists k, In k email_keys /\ forall v, cfg "Email" k <> Value v) \/
  (exists t, cfg "Email" "SMTPPort" = Value t /\ int_of_str t = None) ->
  exists e,
    send_email int_of_str w cfg i attachment_path repo_name = ([], Raised e) /\
    (e = ValueError \/ (exists k, e = KeyError k) \/
     exists k, In k email_keys /\ cfg "Email" k = Invalid e).
Proof.
  intros H. unfold send_email, config_get, py_int.
  destruct (cfg "Email" "FromAddress") as [v1| | |e1] eqn:E1;
    [rewrite bind_ret | unreadable_setting "FromAddress" ..].
  destruct (cfg "Email" "ToAddresses") as [v2| | |e2] eqn:E2;
    [rewrite bind_ret | unreadable_setting "ToAddresses" ..].
  destruct (cfg "Email" "SMTPHost") as [v3| | |e3] eqn:E3;
    [rewrite bind_ret | unreadable_setting "SMTPHost" ..].
  destruct (cfg "Email" "SMTPPort") as [v4| | |e4] eqn:E4;
    [rewrite bind_ret | unreadable_setting "SMTPPort" ..].
  destruct (int_of_str v4) as [port|] eqn:E5.
  2: { exists ValueError. split; [reflexivity | now left]. }
  rewrite bind_ret.
  destruct (cfg "Email" "SMTPUsername") as [v6| | |e6] eqn:E6;
    [rewrite bind_ret | unreadable_setting "SMTPUsername" ..].
  destruct (cfg "Email" "SMTPPassword") as [v7| | |e7] eqn:E7;
    [| unreadable_setting "SMTPPassword" ..].
  exfalso. destruct H as [(k & Hk & Hn) | (t & Ht & Hn)].
  - unfold email_keys in Hk. simpl in Hk.
    repeat (destruct Hk as [<-|Hk]; [eapply Hn; eassumption|]). contradiction.
  - congruence.
Qed.

Lemma send_email_raises_when_misconfigured_example :
  exists e,
    send_email example_int mail_world no_config bare_issue None "LogSmith"
    = ([], Raised e) /\
    (e = ValueError \/ (exists k, e = KeyError k) \/
     exists k, In k email_keys /\ no_config "Email" k = Invalid e).
Proof.
  apply (send_email_raises_when_misconfigured example_int mail_world no_config
           bare_issue None "LogSmith").
  left. exists "SMTPHost". split; [simpl; auto | discriminate].
Defined.

(** ** Fetching the issue *)

(** X9.  [get_github_issue] returns a record only when [gh] ended with
    status 0 and its output parsed, and then prints nothing; a missing [gh]
    and a failing [gh] both end in [sys.exit(1)] after one line, the second
    showing the standard error of [gh]; an output that does not parse
    leaves as the [ValueError] of [json.loads], which no clause catches. *)
Theorem get_github_issue_outcomes
    (json_loads : string -> option issue) (w : world)
    (issue_number : Z) (repository : string) :
  get_github_issue json_loads w issue_number repository
  = match subprocess_run w (gh_issue_view issue_number repository) with
    | NotInstalled =>
        ([Stdout "Error: 'gh' command not found. Please install GitHub CLI."],
         Exited 1)
    | Completed returncode stdout stderr =>
        if returncode =? 0 then
          match json_loads stdout with
          | Some i => ([], Returned i)
          | None => ([], Raised ValueError)
          end
        else ([Stdout ("Error fetching issue: " ++ stderr)], Exited 1)
    end.
Proof.
  destruct (subprocess_run w (gh_issue_view issue_number repository))
    as [|rc out err] eqn:E.
  - now apply gh_unavailable.
  - destruct (Z.eqb_spec rc 0) as [->|Hrc].
    + destruct (json_loads out) as [i|] eqn:Ej.
      * now apply gh_succeeded with out err.
      * unfold get_github_issue, run_checked. rewrite E.
        change (0 =? 0) with true. cbv iota. rewrite bind_ret, Ej. reflexivity.
    + now apply gh_failed with rc out.
Qed.

(** ** The exit status of the lister *)

(** X10.  [get_issues.py] ends with status 0 exactly when [gh] ended with
    status 0 and its output parsed; when [gh] fails it prints nothing on
    standard output, one line with the standard error of [gh] on standard
    error, and exits with 1; a missing [gh] is not caught and leaves as
    [FileNotFoundError]. *)
Theorem lister_exit_status
    (json_loads : string -> option (list GetIssues.issue)) (w : world) :
  (exit_status (GetIssues.script json_loads w) = 0 <->
   exists stdout stderr issues,
     subprocess_run w GetIssues.gh_issue_list = Completed 0 stdout stderr /\
     json_loads stdout = Some issues) /\
  (forall rc stdout stderr,
      subprocess_run w GetIssues.gh_issue_list = Completed rc stdout stderr ->
      rc <> 0 ->
      GetIssues.script json_loads w = ([Stderr ("Error: " ++ stderr)], Exited 1)) /\
  (subprocess_run w GetIssues.gh_issue_list = NotInstalled ->
   GetIssues.script json_loads w = ([], Raised FileNotFoundError)).
Proof.
  unfold GetIssues.script, run_checked.
  destruct (subprocess_run w GetIssues.gh_issue_list) as [|rc out err] eqn:E.
  - repeat split; try discriminate.
    intros (so & se & issues & H & _). discriminate.
  - destruct (Z.eqb_spec rc 0) as [->|Hrc].
    + rewrite bind_ret.
      destruct (json_loads out) as [issues|] eqn:Ej.
      * rewrite bind_ret, lister_loop_eq. repeat split; try discriminate.
        -- intros _. now exists out, err, issues.
        -- intros rc so se [= <- _ _] H. contradiction.
      * repeat split; try discriminate.
        -- intros (so & se & issues & [= <- _] & H). congruence.
        -- intros rc so se [= <- _ _] H. contradiction.
    + repeat split; try discriminate.
      * intros (so & se & issues & [= -> _ _] & _). contradiction.
      * intros rc' so se [= <- <- <-] _. reflexivity.
Qed.

Lemma lister_exit_status_example :
  GetIssues.script (fun _ => Some listed_issues) failing_gh_world
  = ([Stderr "Error: HTTP 401: Bad credentials"], Exited 1).
Proof.
  apply (proj1 (proj2 (lister_exit_status (fun _ => Some listed_issues)
                         failing_gh_world))
           4 "" "HTTP 401: Bad credentials").
  - reflexivity.
  - lia.
Defined.

(** ** Labels and assignees in the notification *)

(** X11.  When the comma-joined label names are not empty the document
    holds the [Labels:] line with them, between the state and the creation
    time, and likewise the [Assignees:] line with the comma-joined logins
    when these are not empty. *)
Theorem html_shows_labels_and_assignees
    (i : issue) (ls : list label) (us : list account) :
  labels i = Some ls ->
  assignees i = Some us ->
  (nonempty (join ", " (map label_name ls)) = true ->
   occurs_in
     (state i ++ html_after_state ++
      "<div class=" ++ dq ++ "info" ++ dq ++ "><span class=" ++ dq ++ "label" ++ dq ++
      ">Labels:</span> " ++ join ", " (map label_name ls) ++ "</div>")
     (format_issue_html i)) /\
  (nonempty (join ", " (map login us)) = true ->
   occurs_in
     ("<div class=" ++ dq ++ "info" ++ dq ++ "><span class=" ++ dq ++ "label" ++ dq ++
      ">Assignees:</span> " ++ join ", " (map login us) ++ "</div>" ++
      html_after_assignees ++ createdAt i)
     (format_issue_html i)).
Proof.
  intros Hl Ha. unfold format_issue_html. rewrite Hl, Ha. simpl get_default.
  split; intros Hn; rewrite Hn.
  - exists (html_head ++ str_int (number i) ++ html_after_number ++ title i ++
            html_after_title)%string.
    eexists. unfold labels_line. rewrite !append_assoc. reflexivity.
  - set (l := if nonempty _ then labels_line _ else ""%string).
    exists (html_head ++ str_int (number i) ++ html_after_number ++ title i ++
            html_after_title ++ state i ++ html_after_state ++ l ++
            html_after_labels)%string.
    eexists. unfold assignees_line. rewrite !append_assoc. reflexivity.
Qed.

Lemma html_shows_labels_and_assignees_example :
  occurs_in
    ("OPEN" ++ html_after_state ++
     "<div class=" ++ dq ++ "info" ++ dq ++ "><span class=" ++ dq ++ "label" ++ dq ++
     ">Labels:</span> ready, logging</div>")
    (format_issue_html labelled_issue).
Proof.
  exact (proj1 (html_shows_labels_and_assignees labelled_issue
                  [{| label_name := "ready" |}; {| label_name := "logging" |}]
                  [{| login := "octocat" |}] eq_refl eq_refl) eq_refl).
Defined.

(** ** The sort *)

(** X12.  [matching_files.sort(key=lambda x: x[1], reverse=True)] keeps
    the entries, each as often as before, leaves them so that no entry
    comes before an entry of a later timestamp, and so puts first an entry
    whose timestamp none of the entries exceeds. *)
Theorem sort_orders_matching_files
    (matching_files : list (string * Datetime.datetime)) :
  Permutation matching_files (list_sort snd Datetime.ltb true matching_files) /\
  StronglySorted (fun a b => Datetime.ltb (snd a) (snd b) = false)
                 (list_sort snd Datetime.ltb true matching_files) /\
  (forall first rest,
      list_sort snd Datetime.ltb true matching_files = first :: rest ->
      forall c, In c matching_files -> Datetime.ltb (snd first) (snd c) = false).
Proof.
  assert (P : Permutation matching_files
                (list_sort snd Datetime.ltb true matching_files))
    by apply list_sort_perm.
  assert (S : StronglySorted (fun a b => Datetime.ltb (snd a) (snd b) = false)
                (list_sort snd Datetime.ltb true matching_files))
    by (apply list_sort_reverse_sorted;
        [apply datetime_ltb_asym | apply datetime_le_trans]).
  repeat split; try assumption.
  intros first rest E c Hc. rewrite E in P, S.
  apply (Permutation_in _ P) in Hc. destruct Hc as [<-|Hc].
  - apply datetime_ltb_irrefl.
  - inversion S as [|? ? _ Hall]; subst. rewrite Forall_forall in Hall.
    now apply Hall.
Qed.

(** ** The notifier from end to end *)

Lemma try_except_ret {A : Type} (a : A) (handler : exn -> option (io A)) :
  try_except (ret a) handler = ret a.
Proof. reflexivity. Qed.

Lemma bind_nil_returned {A B : Type} (a : A) (f : A -> io B) :
  bind ([], Returned a) f = f a.
Proof. exact (bind_ret a f). Qed.

Lemma bind_print_eq {B : Type} (s : string) (rest : io B)
    (out : list line) (r : outcome B) :
  rest = (out, r) -> bind (print s) (fun _ => rest) = (Stdout s :: out, r).
Proof. intros ->. reflexivity. Qed.

(** X13.  An error met before the mail is composed stops [main] at once:
    after the usage line or the complaint about the number, before
    anything is read; at a settings file that cannot be parsed and at
    the first setting that is missing or cannot be read, with the error
    ([KeyError] for a missing one) and no output; and after the line of
    [get_github_issue] when [gh] is missing or fails.  Nothing is
    searched, composed or sent. *)
Theorem main_stops_at_the_first_error
    (int_of_str : string -> option Z) (json_loads : string -> option issue)
    (w : world) :
  ((List.length (argv w) < 2)%nat ->
   main int_of_str json_loads w
   = ([Stdout "Usage: python send_issue_email.py <issue_number>"], Exited 1)) /\
  (forall prog arg rest,
      argv w = prog :: arg :: rest -> int_of_str arg = None ->
      main int_of_str json_loads w
      = ([Stdout "Error: Issue number must be an integer"], Exited 1)) /\
  (forall prog arg rest n,
      argv w = prog :: arg :: rest -> int_of_str arg = Some n ->
      (forall e, read_config w "settings.ini" = inl e ->
                 main int_of_str json_loads w = ([], Raised e)) /\
      (forall cfg,
          read_config w "settings.ini" = inr cfg ->
          (cfg "GitHub" "Repository" = NoSection \/
           cfg "GitHub" "Repository" = NoOption ->
           exists key, main int_of_str json_loads w = ([], Raised (KeyError key))) /\
          (forall e, cfg "GitHub" "Repository" = Invalid e ->
                     main int_of_str json_loads w = ([], Raised e)) /\
          (forall repository,
              cfg "GitHub" "Repository" = Value repository ->
              (forall e, cfg "GitHub" "RepositoryName" = Invalid e ->
                         main int_of_str json_loads w = ([], Raised e)) /\
              (cfg "GitHub" "RepositoryName" = NoOption \/
               (exists display, cfg "GitHub" "RepositoryName" = Value display) ->
               (cfg "TestResults" "OutputDirectory" = NoSection \/
                cfg "TestResults" "OutputDirectory" = NoOption ->
                exists key,
                  main int_of_str json_loads w = ([], Raised (KeyError key))) /\
               (forall e, cfg "TestResults" "OutputDirectory" = Invalid e ->
                          main int_of_str json_loads w = ([], Raised e)) /\
               (forall output_dir,
                   cfg "TestResults" "OutputDirectory" = Value output_dir ->
                   (subprocess_run w (gh_issue_view n repository) = NotInstalled ->
                    main int_of_str json_loads w
                    = ([Stdout ("Fetching issue #" ++ str_int n ++ " from " ++
                                repository ++ "...");
                        Stdout "Error: 'gh' command not found. Please install GitHub CLI."],
                       Exited 1)) /\
                   (forall rc stdout stderr,
                       subprocess_run w (gh_issue_view n repository)
                       = Completed rc stdout stderr ->
                       rc <> 0 ->
                       main int_of_str json_loads w
                       = ([Stdout ("Fetching issue #" ++ str_int n ++ " from " ++
                                   repository ++ "...");
                           Stdout ("Error fetching issue: " ++ stderr)],
                          Exited 1))))))).
Proof.
  split; [|split].
  - unfold main. destruct (argv w) as [|prog [|arg rest]]; simpl List.length;
      intros H; try reflexivity; lia.
  - intros prog arg rest Hargv Hint. unfold main, py_int. rewrite Hargv, Hint.
    reflexivity.
  - intros prog arg rest n Hargv Hint.
    assert (Hstart : forall k : Z -> io unit,
               bind (try_except (py_int int_of_str arg)
                       (fun e =>
                          match e with
                          | ValueError =>
                              Some (print "Error: Issue number must be an integer" ;;
                                    sys_exit 1)
                          | _ => None
                          end)) k = k n).
    { intros k. unfold py_int. rewrite Hint. now rewrite try_except_ret, bind_ret. }
    split.
    { intros e He. unfold main, load_settings. rewrite Hargv, Hstart, He.
      reflexivity. }
    intros cfg Hcfg.
    assert (Hload : forall k : config -> io unit,
               bind (load_settings w "settings.ini") k = k cfg).
    { intros k. unfold load_settings. now rewrite Hcfg, bind_ret. }
    split; [|split].
    + intros [Hrepo | Hrepo]; unfold main; rewrite Hargv, Hstart, Hload;
        unfold config_get at 1; rewrite Hrepo; now eexists.
    + intros e Hrepo. unfold main. rewrite Hargv, Hstart, Hload.
      unfold config_get at 1. rewrite Hrepo. reflexivity.
    + intros repository Hrepo. split.
      * intros e Hname. unfold main. rewrite Hargv, Hstart, Hload.
        unfold config_get at 1. rewrite Hrepo, bind_ret.
        unfold config_get_fallback. rewrite Hname. reflexivity.
      * intros Hname.
        destruct (config_get_fallback_returns cfg "GitHub" "RepositoryName"
                    (last (split_on "/" repository) "") Hname) as [repo_name Hn].
        split; [|split].
        -- intros [Hdir | Hdir]; unfold main; rewrite Hargv, Hstart, Hload;
             unfold config_get at 1; rewrite Hrepo, bind_ret, Hn, bind_ret;
             unfold config_get at 1; rewrite Hdir; now eexists.
        -- intros e Hdir. unfold main. rewrite Hargv, Hstart, Hload.
           unfold config_get at 1. rewrite Hrepo, bind_ret, Hn, bind_ret.
           unfold config_get at 1. rewrite Hdir. reflexivity.
        -- intros output_dir Hdir. split.
           ++ intros Hgh. unfold main. rewrite Hargv, Hstart, Hload.
              unfold config_get at 1. rewrite Hrepo, bind_ret, Hn, bind_ret.
              unfold config_get at 1. rewrite Hdir, bind_ret.
              apply bind_print_eq.
              rewrite (gh_unavailable _ _ _ _ Hgh). reflexivity.
           ++ intros rc stdout stderr Hgh Hrc.
              unfold main. rewrite Hargv, Hstart, Hload.
              unfold config_get at 1. rewrite Hrepo, bind_ret, Hn, bind_ret.
              unfold config_get at 1. rewrite Hdir, bind_ret.
              apply bind_print_eq.
              rewrite (gh_failed _ _ _ _ _ _ _ Hgh Hrc). reflexivity.
Qed.

Lemma main_stops_at_the_first_error_example :
  main example_int (fun _ => Some bare_issue) failing_gh_world
  = ([Stdout "Fetching issue #32 from irsiksoftware/LogSmith...";
      Stdout "Error fetching issue: HTTP 401: Bad credentials"],
     Exited 1).
Proof.
  apply (proj2 (proj2 (proj2 (proj2
           (proj2 (proj2 (proj2
              (proj2 (proj2 (main_stops_at_the_first_error example_int
                               (fun _ => Some bare_issue) failing_gh_world))
                 "send_issue_email.py" "32" [] 32 eq_refl eq_refl)
              mail_config eq_refl))
              "irsiksoftware/LogSmith" eq_refl)
              (or_introl eq_refl)))
           "TestOutputs" eq_refl)
           4 "" "HTTP 401: Bad credentials").
  - reflexivity.
  - lia.
Defined.

Lemma accepted_nonempty_join (issue_number : Z) (dir filename : string)
    (g : option string) :
  re_match (pattern issue_number) filename = Some g ->
  nonempty (OsPath.join dir filename) = true.
Proof.
  intros H.
  destruct (join_relative dir filename (accepted_name_relative _ _ _ H))
    as (sep & _ & ->).
  apply pattern_match_sound in H.
  destruct H as (ts & ext & tail & _ & -> & _).
  destruct dir; reflexivity || (destruct sep; reflexivity).
Qed.

(** X14.  When the issue is fetched and the directory lists artifacts of
    the issue, [main] mails the newest of them: the message handed to the
    transport is the HTML body followed by the bytes of the first listed
    artifact with the latest timestamp, under the name the directory lists;
    [main] prints its progress in order and ends normally when the
    transport accepts the message, with [sys.exit(1)] after
    [Error sending email:] when it does not. *)
Theorem main_mails_the_newest_artifact
    (int_of_str : string -> option Z) (json_loads : string -> option issue)
    (w : world) (cfg : config)
    (prog arg : string) (rest : list string) (n : Z)
    (repository output_dir stdout stderr : string) (i : issue)
    (from_addr to_text smtp_host port_text smtp_user smtp_pass : string)
    (smtp_port : Z)
    (l1 l2 : list string) (f : string) (t : Datetime.datetime)
    (data : list Byte.byte) :
  argv w = prog :: arg :: rest ->
  int_of_str arg = Some n ->
  read_config w "settings.ini" = inr cfg ->
  cfg "GitHub" "Repository" = Value repository ->
  (cfg "GitHub" "RepositoryName" = NoOption \/
   exists display, cfg "GitHub" "RepositoryName" = Value display) ->
  cfg "TestResults" "OutputDirectory" = Value output_dir ->
  subprocess_run w (gh_issue_view n repository) = Completed 0 stdout stderr ->
  json_loads stdout = Some i ->
  cfg "Email" "FromAddress" = Value from_addr ->
  cfg "Email" "ToAddresses" = Value to_text ->
  cfg "Email" "SMTPHost" = Value smtp_host ->
  cfg "Email" "SMTPPort" = Value port_text ->
  int_of_str port_text = Some smtp_port ->
  cfg "Email" "SMTPUsername" = Value smtp_user ->
  cfg "Email" "SMTPPassword" = Value smtp_pass ->
  path_exists w output_dir = true ->
  listdir w output_dir = inr (l1 ++ f :: l2)%list ->
  entry_timestamp n f = Some t ->
  (forall g t', In g l1 -> entry_timestamp n g = Some t' ->
                Datetime.ltb t' t = true) ->
  (forall g t', In g l2 -> entry_timestamp n g = Some t' ->
                Datetime.ltb t t' = false) ->
  path_exists w (OsPath.join output_dir f) = true ->
  read_binary w (OsPath.join output_dir f) = inr data ->
  main int_of_str json_loads w
  = match smtp_session w smtp_host smtp_port smtp_user smtp_pass
            (attach
               (html_message i
                  (display_name cfg repository) from_addr to_text)
               (attachment_part f data)) with
    | None =>
        ([Stdout ("Fetching issue #" ++ str_int n ++ " from " ++ repository ++ "...");
          Stdout ("Found: " ++ title i);
          Stdout ("Searching for test results in " ++ output_dir ++ "...");
          Stdout ("Found test result: " ++ f);
          Stdout "Sending email...";
          Stdout ("Attached: " ++ f);
          Stdout ("Email sent successfully to: " ++
                  join ", " (map strip (split_on "," to_text)));
          Stdout "Done!"],
         Returned tt)
    | Some e =>
        ([Stdout ("Fetching issue #" ++ str_int n ++ " from " ++ repository ++ "...");
          Stdout ("Found: " ++ title i);
          Stdout ("Searching for test results in " ++ output_dir ++ "...");
          Stdout ("Found test result: " ++ f);
          Stdout "Sending email...";
          Stdout ("Attached: " ++ f);
          Stdout ("Error sending email: " ++ e)],
         Exited 1)
    end.
Proof.
  intros Hargv Hint Hcfg Hrepo Hname Hdir Hgh Hjson Hfrom Hto Hhost Hport Hpint
         Huser Hpass
         He Hl Hf Hfirst Hlater Hpe Hread.
  assert (Hacc : exists g, re_match (pattern n) f = Some g).
  { unfold entry_timestamp in Hf.
    destruct (re_match (pattern n) f) as [g|]; [now exists g | discriminate]. }
  destruct Hacc as [g Hacc].
  pose proof (basename_join output_dir f (accepted_no_slash _ _ _ Hacc)) as Hbase.
  pose proof (accepted_nonempty_join n output_dir f g Hacc) as Hne.
  pose proof (send_email_attaching int_of_str w cfg i
                (OsPath.join output_dir f) (display_name cfg repository)
                from_addr to_text smtp_host port_text smtp_user smtp_pass smtp_port
                data Hfrom Hto Hhost Hport Hpint Huser Hpass Hne Hpe Hread) as Hsend.
  rewrite Hbase in Hsend.
  unfold main, load_settings. rewrite Hargv. unfold py_int at 1. rewrite Hint.
  rewrite try_except_ret, bind_ret, Hcfg, bind_ret.
  unfold config_get at 1. rewrite Hrepo, bind_ret.
  rewrite (config_get_fallback_display cfg repository Hname), bind_ret.
  unfold config_get at 1. rewrite Hdir, bind_ret.
  rewrite (gh_succeeded _ _ _ _ _ _ _ Hgh Hjson).
  rewrite (find_latest_first_max w n output_dir l1 l2 f t He Hl Hf Hfirst Hlater).
  destruct (smtp_session w smtp_host smtp_port smtp_user smtp_pass
              (attach
                 (html_message i (display_name cfg repository) from_addr to_text)
                 (attachment_part f data))) as [e|].
  - apply bind_print_eq. rewrite bind_ret. apply bind_print_eq. apply bind_print_eq.
    rewrite bind_nil_returned. unfold truthy. rewrite Hne. simpl get_default.
    rewrite Hbase.
    apply bind_print_eq. apply bind_print_eq. rewrite Hsend. reflexivity.
  - apply bind_print_eq. rewrite bind_ret. apply bind_print_eq. apply bind_print_eq.
    rewrite bind_nil_returned. unfold truthy. rewrite Hne. simpl get_default.
    rewrite Hbase.
    apply bind_print_eq. apply bind_print_eq. rewrite Hsend. reflexivity.
Qed.

Lemma main_mails_the_newest_artifact_example :
  main example_int (fun _ => Some bare_issue) artifact_world
  = ([Stdout "Fetching issue #32 from irsiksoftware/LogSmith...";
      Stdout ("Found: " ++ title bare_issue);
      Stdout "Searching for test results in TestOutputs...";
      Stdout "Found test result: Test-Results-GH32-01-03-2024-09-00-00.html";
      Stdout "Sending email...";
      Stdout "Attached: Test-Results-GH32-01-03-2024-09-00-00.html";
      Stdout "Email sent successfully to: dev@example.org, qa@example.org";
      Stdout "Done!"],
     Returned tt).
Proof.
  eapply (main_mails_the_newest_artifact example_int (fun _ => Some bare_issue)
            artifact_world mail_config "send_issue_email.py" "32" [] 32
            "irsiksoftware/LogSmith" "TestOutputs" "{...}" "" bare_issue
            "ci@example.org" "dev@example.org, qa@example.org"
            "email-smtp.example.org" "587" "user" "secret" 587
            ["notes.txt"] [] "Test-Results-GH32-01-03-2024-09-00-00.html" _
            [Byte.x3c; Byte.x70; Byte.x3e]);
    try reflexivity.
  - now left.
  - intros g t' [<-|[]] H. vm_compute in H. discriminate H.
  - intros g t' [].
Defined.

Lemma bind_line_returned {A B : Type} (l : line) (a : A) (f : A -> io B)
    (out : list line) (r : outcome B) :
  f a = (out, r) -> bind ([l], Returned a) f = (l :: out, r).
Proof. unfold bind. intros ->. reflexivity. Qed.

Lemma send_email_plain
    (int_of_str : string -> option Z) (w : world) (cfg : config) (i : issue)
    (repo_name from_addr to_text smtp_host port_text smtp_user smtp_pass : string)
    (smtp_port : Z) :
  cfg "Email" "FromAddress" = Value from_addr ->
  cfg "Email" "ToAddresses" = Value to_text ->
  cfg "Email" "SMTPHost" = Value smtp_host ->
  cfg "Email" "SMTPPort" = Value port_text ->
  int_of_str port_text = Some smtp_port ->
  cfg "Email" "SMTPUsername" = Value smtp_user ->
  cfg "Email" "SMTPPassword" = Value smtp_pass ->
  send_email int_of_str w cfg i None repo_name
  = match smtp_session w smtp_host smtp_port smtp_user smtp_pass
            (html_message i repo_name from_addr to_text) with
    | None =>
        ([Stdout ("Email sent successfully to: " ++
                  join ", " (map strip (split_on "," to_text)))],
         Returned true)
    | Some e => ([Stdout ("Error sending email: " ++ e)], Returned false)
    end.
Proof.
  intros Hfrom Hto Hhost Hport Hint Huser Hpass.
  unfold send_email, config_get, py_int, attachment_available.
  repeat first [ rewrite bind_ret | rewrite Hfrom | rewrite Hto | rewrite Hhost
               | rewrite Hport | rewrite Hint | rewrite Huser | rewrite Hpass ].
  fold (html_message i repo_name from_addr to_text).
  destruct (smtp_session w smtp_host smtp_port smtp_user smtp_pass
              (html_message i repo_name from_addr to_text)); reflexivity.
Qed.

Lemma find_latest_no_entry (w : world) (issue_number : Z) (output_dir : string)
    (names : list string) :
  path_exists w output_dir = true ->
  listdir w output_dir = inr names ->
  (forall f, In f names -> entry_timestamp issue_number f = None) ->
  find_latest_test_result w issue_number output_dir
  = ([Stdout ("Warning: No test result files found for issue #" ++
              str_int issue_number)], Returned None).
Proof.
  intros He Hl Hnone. rewrite (find_latest_listed _ _ _ _ He Hl).
  replace (candidates issue_number output_dir names)
    with (@nil (string * Datetime.datetime)); [reflexivity|].
  symmetry. unfold candidates. clear Hl.
  induction names as [|x names IH]; [reflexivity|].
  simpl. unfold entry at 1. rewrite (Hnone x (or_introl eq_refl)).
  apply IH. intros g Hg. apply Hnone. now right.
Qed.

(** X15.  Without an artifact the mail is sent all the same: when the
    output directory does not exist, or lists no name that is accepted
    with a timestamp that parses, [main] prints the warning of the search,
    prints no [Found test result:] line, and hands the transport the
    message whose only part is the HTML body; it ends normally when the
    transport accepts, with [sys.exit(1)] when it does not. *)
Theorem main_mails_without_artifact
    (int_of_str : string -> option Z) (json_loads : string -> option issue)
    (w : world) (cfg : config)
    (prog arg : string) (rest : list string) (n : Z)
    (repository output_dir stdout stderr : string) (i : issue)
    (from_addr to_text smtp_host port_text smtp_user smtp_pass : string)
    (smtp_port : Z) (warning : string) :
  argv w = prog :: arg :: rest ->
  int_of_str arg = Some n ->
  read_config w "settings.ini" = inr cfg ->
  cfg "GitHub" "Repository" = Value repository ->
  (cfg "GitHub" "RepositoryName" = NoOption \/
   exists display, cfg "GitHub" "RepositoryName" = Value display) ->
  cfg "TestResults" "OutputDirectory" = Value output_dir ->
  subprocess_run w (gh_issue_view n repository) = Completed 0 stdout stderr ->
  json_loads stdout = Some i ->
  cfg "Email" "FromAddress" = Value from_addr ->
  cfg "Email" "ToAddresses" = Value to_text ->
  cfg "Email" "SMTPHost" = Value smtp_host ->
  cfg "Email" "SMTPPort" = Value port_text ->
  int_of_str port_text = Some smtp_port ->
  cfg "Email" "SMTPUsername" = Value smtp_user ->
  cfg "Email" "SMTPPassword" = Value smtp_pass ->
  (path_exists w output_dir = false /\
   warning = "Warning: " ++ output_dir ++ " directory not found.") \/
  (path_exists w output_dir = true /\
   (exists names, listdir w output_dir = inr names /\
                  forall f, In f names -> entry_timestamp n f = None) /\
   warning = "Warning: No test result files found for issue #" ++ str_int n) ->
  main int_of_str json_loads w
  = match smtp_session w smtp_host smtp_port smtp_user smtp_pass
            (html_message i (display_name cfg repository) from_addr to_text) with
    | None =>
        ([Stdout ("Fetching issue #" ++ str_int n ++ " from " ++ repository ++ "...");
          Stdout ("Found: " ++ title i);
          Stdout ("Searching for test results in " ++ output_dir ++ "...");
          Stdout warning;
          Stdout "Sending email...";
          Stdout ("Email sent successfully to: " ++
                  join ", " (map strip (split_on "," to_text)));
          Stdout "Done!"],
         Returned tt)
    | Some e =>
        ([Stdout ("Fetching issue #" ++ str_int n ++ " from " ++ repository ++ "...");
          Stdout ("Found: " ++ title i);
          Stdout ("Searching for test results in " ++ output_dir ++ "...");
          Stdout warning;
          Stdout "Sending email...";
          Stdout ("Error sending email: " ++ e)],
         Exited 1)
    end.
Proof.
  intros Hargv Hint Hcfg Hrepo Hname Hdir Hgh Hjson Hfrom Hto Hhost Hport Hpint
         Huser Hpass
         Hnone.
  assert (Hfind : find_latest_test_result w n output_dir
                  = ([Stdout warning], Returned None)).
  { destruct Hnone as [[He ->] | (He & (names & Hl & Hn) & ->)].
    - now apply find_latest_absent.
    - now apply find_latest_no_entry with names. }
  pose proof (send_email_plain int_of_str w cfg i (display_name cfg repository)
                from_addr to_text smtp_host port_text smtp_user smtp_pass smtp_port
                Hfrom Hto Hhost Hport Hpint Huser Hpass) as Hsend.
  unfold main, load_settings. rewrite Hargv. unfold py_int at 1. rewrite Hint.
  rewrite try_except_ret, bind_ret, Hcfg, bind_ret.
  unfold config_get at 1. rewrite Hrepo, bind_ret.
  rewrite (config_get_fallback_display cfg repository Hname), bind_ret.
  unfold config_get at 1. rewrite Hdir, bind_ret.
  rewrite (gh_succeeded _ _ _ _ _ _ _ Hgh Hjson), Hfind.
  destruct (smtp_session w smtp_host smtp_port smtp_user smtp_pass
              (html_message i (display_name cfg repository) from_addr to_text))
    as [e|];
    (apply bind_print_eq; rewrite bind_ret; apply bind_print_eq; apply bind_print_eq;
     apply bind_line_returned; simpl truthy; cbv iota; rewrite bind_ret;
     apply bind_print_eq; rewrite Hsend; reflexivity).
Qed.

Lemma main_mails_without_artifact_example :
  main example_int (fun _ => Some bare_issue) mail_world
  = ([Stdout "Fetching issue #32 from irsiksoftware/LogSmith...";
      Stdout ("Found: " ++ title bare_issue);
      Stdout "Searching for test results in TestOutputs...";
      Stdout "Warning: TestOutputs directory not found.";
      Stdout "Sending email...";
      Stdout "Email sent successfully to: dev@example.org, qa@example.org";
      Stdout "Done!"],
     Returned tt).
Proof.
  apply (main_mails_without_artifact example_int (fun _ => Some bare_issue)
           mail_world mail_config "send_issue_email.py" "32" [] 32
           "irsiksoftware/LogSmith" "TestOutputs" "{...}" "" bare_issue
           "ci@example.org" "dev@example.org, qa@example.org"
           "email-smtp.example.org" "587" "user" "secret" 587
           "Warning: TestOutputs directory not found."
           eq_refl eq_refl eq_refl eq_refl (or_introl eq_refl) eq_refl eq_refl
           eq_refl eq_refl eq_refl eq_refl eq_refl eq_refl eq_refl eq_refl
           (or_introl (conj eq_refl eq_refl))).
Defined.

(** ** The name of the repository in the subject *)

Lemma split_on_not_nil (c : ascii) (s : string) : split_on c s <> [].
Proof.
  destruct s as [|x s]; simpl; [discriminate|].
  destruct (Ascii.eqb x c); [discriminate|].
  destruct (split_on c s); discriminate.
Qed.

Lemma last_cons_nonempty {A : Type} (x : A) (l : list A) (d : A) :
  l <> [] -> last (x :: l) d = last l d.
Proof. destruct l; [congruence | reflexivity]. Qed.

Lemma split_on_two (c : ascii) (a b : string) :
  exists y z r, split_on c (a ++ String c b) = y :: z :: r.
Proof.
  induction a as [|x a IH].
  - simpl. rewrite Ascii.eqb_refl.
    destruct (split_on c b) as [|z r] eqn:E; [now apply split_on_not_nil in E|].
    now exists "", z, r.
  - change (String x a ++ String c b)%string with (String x (a ++ String c b)).
    simpl split_on. destruct IH as (y & z & r & ->).
    destruct (Ascii.eqb x c); [now exists "", y, (z :: r) | now exists (String x y), z, r].
Qed.

Lemma last_split_on (c : ascii) (a b : string) :
  last (split_on c (a ++ String c b)) "" = last (split_on c b) "".
Proof.
  induction a as [|x a IH].
  - simpl. rewrite Ascii.eqb_refl. apply last_cons_nonempty, split_on_not_nil.
  - change (String x a ++ String c b)%string with (String x (a ++ String c b)).
    simpl split_on. destruct (split_on_two c a b) as (y & z & r & E).
    rewrite E in *. destruct (Ascii.eqb x c); exact IH.
Qed.

(* X16 HERE *)

(** ** The time a timestamp names *)

Lemma digit_cases (c : ascii) :
  is_digit c = true ->
  In c ["0"; "1"; "2"; "3"; "4"; "5"; "6"; "7"; "8"; "9"]%char.
Proof.
  destruct c as [[] [] [] [] [] [] [] []]; intros H; vm_compute in H;
    try discriminate H; simpl; auto 12.
Qed.

Lemma fmt_match_directive (d : ascii) (f : list Datetime.fmt_item) (s : string)
    (found : list (ascii * string)) :
  Datetime.fmt_match (Datetime.Directive d :: f) s found
  = first_alt (fun txt rest => Datetime.fmt_match f rest ((d, txt) :: found))
              (Datetime.directive_alts d) s.
Proof.
  cbn [Datetime.fmt_match]. generalize (Datetime.directive_alts d).
  intros alts. induction alts as [|a alts IH]; [reflexivity|].
  cbn [first_alt]. rewrite IH. reflexivity.
Qed.

Lemma fmt_match_literal (c : ascii) (f : list Datetime.fmt_item) (s : string)
    (found : list (ascii * string)) :
  Datetime.fmt_match (Datetime.Literal c :: f) (String c s) found
  = Datetime.fmt_match f s found.
Proof. cbn [Datetime.fmt_match]. now rewrite Ascii.eqb_refl. Qed.

Lemma fmt_match_dash_digit (b : ascii) (f : list Datetime.fmt_item) (r : string)
    (found : list (ascii * string)) :
  is_digit b = true ->
  Datetime.fmt_match (Datetime.Literal "-" :: f) (String b r) found = None.
Proof.
  intros Hb. cbn [Datetime.fmt_match].
  destruct (Ascii.eqb "-" b) eqn:E; [|reflexivity].
  apply Ascii.eqb_eq in E. subst b. discriminate Hb.
Qed.

(** Before a digit nothing but the two-digit alternatives can succeed:
    a directive in front of two digits takes both or fails. *)
Lemma first_alt_two_digits {R : Type} (k : string -> string -> option R)
    (d a b : ascii) (r : string) :
  In d ["m"; "d"; "H"; "M"]%char ->
  is_digit a = true -> is_digit b = true ->
  (forall txt, k txt (String b r) = None) ->
  first_alt k (Datetime.directive_alts d) (String a (String b r))
  = if field_ok d (Datetime.int_field (String a (String b "")))
    then k (String a (String b "")) r else None.
Proof.
  intros Hd Ha Hb Hk. apply digit_cases in Ha. apply digit_cases in Hb.
  simpl In in Hd, Ha, Hb.
  destruct Hd as [<-|[<-|[<-|[<-|[]]]]];
    destruct Ha as [<-|[<-|[<-|[<-|[<-|[<-|[<-|[<-|[<-|[<-|[]]]]]]]]]]];
    destruct Hb as [<-|[<-|[<-|[<-|[<-|[<-|[<-|[<-|[<-|[<-|[]]]]]]]]]]];
    simpl; rewrite ?Hk;
    try match goal with |- context [k ?t r] => destruct (k t r) end;
    rewrite ?Hk; reflexivity.
Qed.

Lemma first_alt_year {R : Type} (k : string -> string -> option R)
    (a b c d : ascii) (r : string) :
  is_digit a = true -> is_digit b = true -> is_digit c = true ->
  is_digit d = true ->
  first_alt k (Datetime.directive_alts "Y")
            (String a (String b (String c (String d r))))
  = k (String a (String b (String c (String d "")))) r.
Proof.
  intros Ha Hb Hc Hd.
  change (Datetime.directive_alts "Y")
    with [[Datetime.dig; Datetime.dig; Datetime.dig; Datetime.dig]].
  cbn [first_alt Datetime.take_alt Datetime.dig].
  rewrite (take_decimal_digit a _ Ha). cbv iota beta.
  rewrite (take_decimal_digit b _ Hb). cbv iota beta.
  rewrite (take_decimal_digit c _ Hc). cbv iota beta.
  rewrite (take_decimal_digit d _ Hd). cbv iota beta.
  simpl append. now destruct (k _ r).
Qed.

Lemma fmt_match_seconds (a b : ascii) (found : list (ascii * string)) :
  is_digit a = true -> is_digit b = true ->
  Datetime.fmt_match [Datetime.Directive "S"] (String a (String b "")) found
  = if field_ok "S" (Datetime.int_field (String a (String b "")))
    then Some (("S"%char, String a (String b "")) :: found, "")
    else Some (("S"%char, String a "") :: found, String b "").
Proof.
  intros Ha Hb. apply digit_cases in Ha. apply digit_cases in Hb.
  simpl In in Ha, Hb.
  destruct Ha as [<-|[<-|[<-|[<-|[<-|[<-|[<-|[<-|[<-|[<-|[]]]]]]]]]]];
    destruct Hb as [<-|[<-|[<-|[<-|[<-|[<-|[<-|[<-|[<-|[<-|[]]]]]]]]]]];
    reflexivity.
Qed.

Lemma days_in_month_le (y m : Z) : Datetime.days_in_month y m <= 31.
Proof.
  unfold Datetime.days_in_month.
  destruct ((m =? 2) && Datetime.is_leap y); [lia|].
  generalize (Z.to_nat m). intros k.
  do 13 (destruct k as [|k]; [simpl; lia|]).
  destruct k; simpl; lia.
Qed.

Lemma new_bad_month (y m d h mi s : Z) :
  field_ok "m" m = false -> Datetime.new y m d h mi s 0 = None.
Proof.
  change (field_ok "m" m) with ((1 <=? m) && (m <=? 12)).
  unfold Datetime.new, Datetime.check_date_fields. intros H.
  destruct (1 <=? y), (y <=? 9999); try reflexivity.
  destruct (1 <=? m), (m <=? 12); try reflexivity. discriminate H.
Qed.

Lemma new_bad_day (y m d h mi s : Z) :
  field_ok "d" d = false -> Datetime.new y m d h mi s 0 = None.
Proof.
  change (field_ok "d" d) with ((1 <=? d) && (d <=? 31)).
  unfold Datetime.new, Datetime.check_date_fields. intros H.
  pose proof (days_in_month_le y m) as Hle.
  destruct (1 <=? y), (y <=? 9999), (1 <=? m), (m <=? 12); try reflexivity.
  cbn [andb].
  destruct (Z.leb_spec 1 d); [|reflexivity].
  destruct (Z.leb_spec d (Datetime.days_in_month y m)); [|reflexivity].
  destruct (Z.leb_spec d 31); [discriminate H | lia].
Qed.

Lemma new_bad_time (y m d h mi s : Z) :
  field_ok "H" h = false \/ field_ok "M" mi = false \/ field_ok "S" s = false ->
  Datetime.new y m d h mi s 0 = None.
Proof.
  change (field_ok "H" h) with (h <=? 23).
  change (field_ok "M" mi) with (mi <=? 59).
  change (field_ok "S" s) with (s <=? 61).
  unfold Datetime.new, Datetime.check_time_fields. intros H.
  destruct (Datetime.check_date_fields y m d); [|reflexivity]. simpl andb.
  destruct (0 <=? h); [|reflexivity].
  destruct (Z.leb_spec h 23); [|reflexivity].
  destruct (0 <=? mi); [|reflexivity].
  destruct (Z.leb_spec mi 59); [|reflexivity].
  destruct (0 <=? s); [|reflexivity].
  destruct (Z.leb_spec s 59); [|reflexivity].
  exfalso. destruct H as [H|[H|H]]; try discriminate H.
  apply Z.leb_gt in H. lia.
Qed.

Lemma groups_of_timestamp (sm sd sy sh smi ss : string) :
  let found := [("S"%char, ss); ("M"%char, smi); ("H"%char, sh); ("Y"%char, sy);
                ("d"%char, sd); ("m"%char, sm)] in
  Datetime.group "Y" found 1900 = Datetime.int_field sy /\
  Datetime.group "m" found 1 = Datetime.int_field sm /\
  Datetime.group "d" found 1 = Datetime.int_field sd /\
  Datetime.group "H" found 0 = Datetime.int_field sh /\
  Datetime.group "M" found 0 = Datetime.int_field smi /\
  Datetime.group "S" found 0 = Datetime.int_field ss.
Proof. repeat split; reflexivity. Qed.

Lemma new_after_date_check (y m d h mi s : Z) :
  (if Datetime.check_date_fields y m d then Datetime.new y m d h mi s 0 else None)
  = Datetime.new y m d h mi s 0.
Proof.
  unfold Datetime.new. now destruct (Datetime.check_date_fields y m d).
Qed.

(** [strptime] with the format of the script reads a text of the shape
    [MM-DD-YYYY-HH-MM-SS] as the datetime of its six numbers, and raises
    exactly when they name no datetime. *)
Lemma strptime_shape (ts : string) :
  has_shape timestamp_classes ts = true ->
  Datetime.strptime ts timestamp_format = calendar_time ts.
Proof.
  intros Hs. unfold timestamp_classes in Hs. peel_shape Hs.
  unfold dash in *.
  repeat match goal with
         | H : Ascii.eqb _ _ = true |- _ => apply Ascii.eqb_eq in H; subst
         end.
  unfold Datetime.strptime, calendar_time, timestamp_field.
  change (Datetime.compile_format timestamp_format)
    with [Datetime.Directive "m"; Datetime.Literal "-"; Datetime.Directive "d";
          Datetime.Literal "-"; Datetime.Directive "Y"; Datetime.Literal "-";
          Datetime.Directive "H"; Datetime.Literal "-"; Datetime.Directive "M";
          Datetime.Literal "-"; Datetime.Directive "S"].
  cbn [substring].
  repeat match goal with
         | |- context [Datetime.fmt_match (Datetime.Directive "Y" :: _) _ _] =>
             rewrite fmt_match_directive, first_alt_year by assumption
         | |- context [Datetime.fmt_match [Datetime.Directive "S"] _ _] =>
             rewrite fmt_match_seconds by assumption;
             match goal with
             | |- context [field_ok ?d ?v] =>
                 destruct (field_ok d v) eqn:?;
                 [|symmetry; apply new_bad_time; auto]
             end
         | |- context [Datetime.fmt_match (Datetime.Directive _ :: _) _ _] =>
             rewrite fmt_match_directive,
               first_alt_two_digits
               by (assumption || (simpl; tauto) ||
                   (intros; now apply fmt_match_dash_digit));
             match goal with
             | |- context [field_ok ?d ?v] =>
                 destruct (field_ok d v) eqn:?;
                 [|symmetry;
                   first [ now apply new_bad_month | now apply new_bad_day
                         | apply new_bad_time; auto ]]
             end
         | |- context [Datetime.fmt_match (Datetime.Literal "-" :: _) _ _] =>
             rewrite fmt_match_literal
         end.
  cbv beta iota zeta.
  match goal with
  | |- context [Datetime.group _ [(_, ?ss); (_, ?smi); (_, ?sh); (_, ?sy);
                                   (_, ?sd); (_, ?sm)] _] =>
      destruct (groups_of_timestamp sm sd sy sh smi ss)
        as (-> & -> & -> & -> & -> & ->)
  end.
  apply new_after_date_check.
Qed.

Lemma artifact_fields (issue_number : Z) (filename ts : string)
    (t : Datetime.datetime) :
  re_match (pattern issue_number) filename = Some (Some ts) ->
  has_shape timestamp_classes ts = true ->
  entry_timestamp issue_number filename = Some t ->
  Datetime.fields t = (calendar_fields ts ++ [0])%list.
Proof.
  intros H Hs Ht. unfold entry_timestamp in Ht. rewrite H in Ht.
  rewrite (strptime_shape ts Hs) in Ht.
  unfold calendar_time, Datetime.new in Ht.
  destruct (_ && _) in Ht; [|discriminate Ht].
  injection Ht as <-. reflexivity.
Qed.



Lemma tuple_cmp_app (a b c : list Z) :
  List.length a = List.length b ->
  Datetime.tuple_cmp (a ++ c) (b ++ c) = Datetime.tuple_cmp a b.
Proof.
  revert b. induction a as [|x a IH]; intros [|y b] Hl; try discriminate Hl.
  - simpl. induction c as [|z c IHc]; [reflexivity|].
    simpl. now rewrite Z.compare_refl.
  - simpl. destruct (x ?= y); try reflexivity. apply IH. now injection Hl.
Qed.

(** X18.  Which of two artifacts is the newer is decided by their
    calendar times, the year first, then month, day, hour, minute and
    second, and not by the order of their names, which write the month
    first. *)
Theorem newer_artifact_is_later_in_time
    (issue_number : Z) (f1 f2 ts1 ts2 : string) (t1 t2 : Datetime.datetime) :
  re_match (pattern issue_number) f1 = Some (Some ts1) ->
  re_match (pattern issue_number) f2 = Some (Some ts2) ->
  has_shape timestamp_classes ts1 = true ->
  has_shape timestamp_classes ts2 = true ->
  entry_timestamp issue_number f1 = Some t1 ->
  entry_timestamp issue_number f2 = Some t2 ->
  Datetime.ltb t1 t2
  = match Datetime.tuple_cmp (calendar_fields ts1) (calendar_fields ts2) with
    | Lt => true
    | _ => false
    end.
Proof.
  intros H1 H2 S1 S2 E1 E2.
  pose proof (artifact_fields issue_number f1 ts1 t1 H1 S1 E1) as F1.
  pose proof (artifact_fields issue_number f2 ts2 t2 H2 S2 E2) as F2.
  unfold Datetime.ltb, Datetime.cmp. rewrite F1, F2.
  now rewrite tuple_cmp_app.
Qed.

Lemma newer_artifact_is_later_in_time_example :
  Datetime.ltb (Datetime.mk_datetime 2023 12 31 23 59 59 0)
               (Datetime.mk_datetime 2024 1 1 0 0 0 0) = true.
Proof.
  apply (newer_artifact_is_later_in_time 32
           "Test-Results-GH32-12-31-2023-23-59-59.html"
           "Test-Results-GH32-01-01-2024-00-00-00.htm"
           "12-31-2023-23-59-59" "01-01-2024-00-00-00"
           (Datetime.mk_datetime 2023 12 31 23 59 59 0)
           (Datetime.mk_datetime 2024 1 1 0 0 0 0)
           eq_refl eq_refl eq_refl eq_refl eq_refl eq_refl).
Defined.
